(** * takeout-calc: receipts parsed from archived mail

    A shallow embedding of [bak/parse.py] and [takeout_calc/parse.py]:
    the flattening of a message's body, the classification of its
    leaves, the three receipt classes and the loop that sums their
    totals, followed by the properties the specification states about
    them.

    Python values are modelled as the code sees them: a [str] is a
    sequence of Unicode code points, [bytes] a sequence of octets, an
    exception is a value of [Exception] carried by [Result], and what
    [print] writes is collected next to the result ([Py]). *)

From Stdlib Require Import String Ascii.
From Stdlib Require Import List ZArith QArith Qpower Bool Lia.
Import ListNotations.
Local Open Scope Z_scope.

(** ** Strings and bytes *)

(** A Python [str]: its code points, in order. *)
Definition str := list Z.

(** Python [bytes]: octets, in order. *)
Definition bytes := list Z.

(** A string literal of the source (ASCII text). *)
Definition py (x : string) : str :=
  List.map (fun a => Z.of_N (N_of_ascii a)) (list_ascii_of_string x).
Arguments py : simpl never.

(** The line feed and the two characters that end a line in CRLF text. *)
Definition LF : str := [10].
Definition CRLF : str := [13; 10].

Definition str_eq_dec : forall a b : str, {a = b} + {a <> b} :=
  list_eq_dec Z.eq_dec.

(** [a == b] on strings. *)
Definition str_eqb (a b : str) : bool :=
  if str_eq_dec a b then true else false.

(** [s.startswith(p)] *)
Fixpoint startswith (s p : str) : bool :=
  match p, s with
  | [], _ => true
  | _ :: _, [] => false
  | x :: p', y :: s' => (x =? y) && startswith s' p'
  end.

(** [s.__contains__(p)], also written [p in s] *)
Fixpoint contains (s p : str) : bool :=
  startswith s p ||
  match s with
  | [] => false
  | _ :: s' => contains s' p
  end.

(** [s.isascii()] *)
Definition isascii (s : str) : bool := forallb (fun c => c <? 128) s.

(** [s.split(sep=sep)] for a separator that is not empty (the source
    passes "\n" or "\r\n"): the text is cut at each occurrence of [sep],
    found from left to right; [skip] counts the characters of a separator
    still to be passed over and [cur] holds the running piece reversed. *)
Fixpoint split_from (sep : str) (skip : nat) (cur : str) (s : str) : list str :=
  match s with
  | [] => [rev cur]
  | c :: s' =>
      match skip with
      | S k => split_from sep k cur s'
      | O =>
          if startswith s sep
          then rev cur :: split_from sep (pred (length sep)) [] s'
          else split_from sep O (c :: cur) s'
      end
  end.

Definition split (s sep : str) : list str := split_from sep O [] s.

(** ** Exceptions, results and printed output *)

(** The exceptions the program can meet; [LibraryError] stands for any
    other exception a library raises. *)
Inductive Exception :=
| TypeError
| AttributeError
| IndexError
| ValueError
| UnicodeDecodeError
| UnicodeEncodeError
| DecimalOverflow
| DecimalInvalidOperation
| LibraryError (n : nat).

(** The outcome of a call: a value, or the exception that left it. *)
Inductive Result (A : Type) :=
| Return (a : A)
| Raise (e : Exception).
Arguments Return {A} a.
Arguments Raise {A} e.

Definition bind {A B} (m : Result A) (f : A -> Result B) : Result B :=
  match m with
  | Return a => f a
  | Raise e => Raise e
  end.

(** A function applied to the value of an outcome. *)
Definition fmap {A B} (f : A -> B) (m : Result A) : Result B :=
  match m with
  | Return a => Return (f a)
  | Raise e => Raise e
  end.

Declare Scope py_scope.
Delimit Scope py_scope with py.
Notation "x <- m ;; k" := (bind m (fun x => k))
  (at level 61, m at next level, right associativity) : py_scope.
Notation "' pat <- m ;; k" := (bind m (fun x => match x with pat => k end))
  (at level 61, pat pattern, m at next level, right associativity) : py_scope.
Local Open Scope py_scope.

(** [l[i]] on a list *)
Definition index {A} (l : list A) (i : nat) : Result A :=
  match nth_error l i with
  | Some a => Return a
  | None => Raise IndexError
  end.

(** [x.attr] or [x.method()] where [x] may be [None] *)
Definition attr_of {A} (x : option A) : Result A :=
  match x with
  | Some a => Return a
  | None => Raise AttributeError
  end.

(** A for loop whose body may raise: the state is threaded from one
    element to the next and the first exception ends the loop. *)
Fixpoint for_each {A S} (body : S -> A -> Result S) (l : list A) (s : S) : Result S :=
  match l with
  | [] => Return s
  | a :: l' => s' <- body s a ;; for_each body l' s'
  end.

(** ** The Unicode tables behind the character classes

    The classes [\p{Sc}], [\d], [\s] and [\w] of the [regex] module, the
    value [decimal.Decimal] gives a digit and [str.isspace] are tables of
    the Unicode character database, which is not part of the repository:
    the program is modelled over any such tables. *)
Class Unicode := {
  Sc : Z -> bool;           (* currency symbols, [\p{Sc}] *)
  Nd : Z -> option Z;       (* decimal digits, [\d], with their value *)
  White_Space : Z -> bool;  (* [\s] *)
  Word : Z -> bool;         (* [\w] *)
  isspace : Z -> bool       (* [str.isspace] on one character *)
}.

Definition is_digit `{Unicode} (c : Z) : bool :=
  match Nd c with Some _ => true | None => false end.

(** ** Regular expressions

    The patterns of the source use literals, character classes, greedy
    and possessive repetition, capture groups and the assertions [^], [$]
    and [\b]. [exec] is a backtracking matcher for that fragment, written
    with a continuation that stands for the rest of the pattern. *)
Module Re.

Inductive re :=
| Empty
| Char (p : Z -> bool)
| Cat (a b : re)
| Repeat (a : re) (lo : nat) (hi : option nat)
| Possessive (a : re)
| Group (n : nat) (a : re)
| Bol (multiline : bool)
| Eol
| WordBoundary.

(** A literal string. *)
Fixpoint Lit (s : str) : re :=
  match s with
  | [] => Empty
  | c :: s' => Cat (Char (Z.eqb c)) (Lit s')
  end.

(** A sequence of patterns. *)
Fixpoint Seq (l : list re) : re :=
  match l with
  | [] => Empty
  | [a] => a
  | a :: l' => Cat a (Seq l')
  end.

Definition Plus (a : re) : re := Repeat a 1 None.
Definition Star (a : re) : re := Repeat a 0 None.
Definition Times (a : re) (n : nat) : re := Repeat a n (Some n).

(** A position in the subject: the character before it, if any, and the
    text from it on. *)
Record cursor := { before : option Z; rest : str }.

Definition start (s : str) : cursor := {| before := None; rest := s |}.

Definition consumed (c c' : cursor) : str :=
  firstn (length (rest c) - length (rest c')) (rest c).

Definition progressed (c c' : cursor) : bool :=
  (length (rest c') <? length (rest c))%nat.

(** What the groups have captured so far; group [n] is at index [n - 1]. *)
Definition captures := list (option str).

Fixpoint set_capture (i : nat) (v : str) (g : captures) : captures :=
  match g, i with
  | [], _ => []
  | _ :: t, O => Some v :: t
  | x :: t, S j => x :: set_capture j v t
  end.

Definition more (hi : option nat) (n : nat) : bool :=
  match hi with
  | None => true
  | Some h => (n <? h)%nat
  end.

Section Matcher.
Context `{U : Unicode}.

Definition word_at (x : option Z) : bool :=
  match x with
  | Some c => Word c
  | None => false
  end.

(** Greedy repetition of [body], between [lo] and [hi] times: one more
    round is tried first, and the rest of the pattern, [k], when that
    fails. A round that matches nothing is not repeated once [lo] rounds
    are done, so the rounds are bounded by the text left; [fuel] is that
    bound and [n] the rounds done. *)
Fixpoint iterate {A : Type}
    (body : cursor -> captures -> (cursor -> captures -> option A) -> option A)
    (lo : nat) (hi : option nat) (k : cursor -> captures -> option A)
    (fuel n : nat) (c : cursor) (g : captures) {struct fuel} : option A :=
  let stop := if (lo <=? n)%nat then k c g else None in
  match fuel with
  | O => stop
  | S fuel' =>
      if more hi n then
        match body c g (fun c' g' =>
                if progressed c c' || (n <? lo)%nat
                then iterate body lo hi k fuel' (S n) c' g' else None) with
        | Some x => Some x
        | None => stop
        end
      else stop
  end.

Fixpoint exec (r : re) {A : Type} (c : cursor) (g : captures)
    (k : cursor -> captures -> option A) {struct r} : option A :=
  match r with
  | Empty => k c g
  | Char p =>
      match rest c with
      | x :: t => if p x then k {| before := Some x; rest := t |} g else None
      | [] => None
      end
  | Cat a b => exec a c g (fun c' g' => exec b c' g' k)
  | Repeat a lo hi =>
      iterate (fun c' g' k' => exec a c' g' k') lo hi k (S (length (rest c) + lo)) O c g
  | Possessive a =>
      match exec a c g (fun c' g' => Some (c', g')) with
      | Some (c', g') => k c' g'
      | None => None
      end
  | Group n a => exec a c g (fun c' g' => k c' (set_capture (pred n) (consumed c c') g'))
  | Bol multiline =>
      match before c with
      | None => k c g
      | Some x => if multiline && (x =? 10) then k c g else None
      end
  | Eol =>
      match rest c with
      | [] => k c g
      | [x] => if x =? 10 then k c g else None
      | _ => None
      end
  | WordBoundary =>
      if xorb (word_at (before c)) (word_at (hd_error (rest c))) then k c g else None
  end.

(** A compiled pattern: the expression and the number of its groups. *)
Record Pattern := { expr : re; ngroups : nat }.

(** One match: the text matched and what each group captured. *)
Record Match := { group0 : str; groups : captures }.

(** [m.group(n)] *)
Definition group (m : Match) (n : nat) : option str :=
  match n with
  | O => Some (group0 m)
  | S i => match nth_error (groups m) i with Some v => v | None => None end
  end.

(** The match that starts at [c], if there is one, and where it ends. *)
Definition match_at (p : Pattern) (c : cursor) : option (Match * cursor) :=
  exec (expr p) c (repeat None (ngroups p))
    (fun c' g' => Some ({| group0 := consumed c c'; groups := g' |}, c')).

Definition step (c : cursor) : option cursor :=
  match rest c with
  | [] => None
  | x :: t => Some {| before := Some x; rest := t |}
  end.

(** The matches found from [c] on, from left to right and without
    overlap: after a match the search goes on where it ended, one
    character further when it was empty. *)
Fixpoint finditer_from (fuel : nat) (p : Pattern) (c : cursor) : list Match :=
  match fuel with
  | O => []
  | S fuel' =>
      match match_at p c with
      | Some (m, c') =>
          m :: (if progressed c c' then finditer_from fuel' p c'
                else match step c with
                     | Some c1 => finditer_from fuel' p c1
                     | None => []
                     end)
      | None =>
          match step c with
          | Some c1 => finditer_from fuel' p c1
          | None => []
          end
      end
  end.

Definition finditer (p : Pattern) (s : str) : list Match :=
  finditer_from (S (length s)) p (start s).

(** [p.search(string=s)] *)
Definition search (p : Pattern) (s : str) : option Match := hd_error (finditer p s).

Definition group_text (m : Match) (n : nat) : str :=
  match group m n with Some v => v | None => [] end.

(** [p.findall(string=s)] for a pattern with one group: what the group
    captured in each match. *)
Definition findall1 (p : Pattern) (s : str) : list str :=
  List.map (fun m => group_text m 1) (finditer p s).

(** [p.findall(string=s)] for a pattern with two groups: the pair of
    what they captured in each match. *)
Definition findall2 (p : Pattern) (s : str) : list (str * str) :=
  List.map (fun m => (group_text m 1, group_text m 2)) (finditer p s).

(** [p.sub(repl="", string=s)]: the text with every match taken out. *)
Fixpoint remove_from (fuel : nat) (p : Pattern) (c : cursor) : str :=
  match fuel with
  | O => rest c
  | S fuel' =>
      match match_at p c with
      | Some (_, c') =>
          if progressed c c' then remove_from fuel' p c'
          else match rest c with
               | [] => []
               | x :: t => x :: remove_from fuel' p {| before := Some x; rest := t |}
               end
      | None =>
          match rest c with
          | [] => []
          | x :: t => x :: remove_from fuel' p {| before := Some x; rest := t |}
          end
      end
  end.

Definition sub_empty (p : Pattern) (s : str) : str :=
  remove_from (S (length s)) p (start s).

(** The classes of the patterns. *)
Definition d : re := Char is_digit.
Definition w : re := Char Word.
Definition s : re := Char White_Space.
Definition currency : re := Char Sc.
Definition dot : re := Char (fun c => negb (c =? 10)).

(** The group "(\d+\.\d+)", as group [n] *)
Definition decimal_group (n : nat) : re :=
  Group n (Seq [Plus d; Lit (py "."); Plus d]).

End Matcher.
End Re.

(** ** decimal.Decimal

    The amounts are [decimal.Decimal] values, never negative: a
    coefficient and an exponent, standing for [coef * 10 ^ exp].
    Arithmetic happens in the default context of the [decimal] module:
    28 significant digits, rounding half to even, exponents between
    [Emin] and [Emax], and [Overflow] raised as an exception. *)
Module Decimal.

Record t := { coef : Z; exp : Z }.

Definition prec : Z := 28.
Definition Emax : Z := 999999.
Definition Emin : Z := -999999.
Definition Etiny : Z := Emin - prec + 1.
Definition Etop : Z := Emax - prec + 1.

(** [decimal.Decimal(value=0)] *)
Definition zero : t := {| coef := 0; exp := 0 |}.

(** The number a decimal stands for. *)
Definition value (x : t) : Q := (inject_Z (coef x) * inject_Z 10 ^ exp x)%Q.

(** The number of digits of a coefficient, [len(str(c))]. *)
Fixpoint ndigits_from (fuel : nat) (c : Z) : Z :=
  match fuel with
  | O => 1
  | S fuel' => if c <? 10 then 1 else 1 + ndigits_from fuel' (c / 10)
  end.

Definition ndigits (c : Z) : Z := ndigits_from (Z.to_nat (Z.log2 c)) c.

(** The coefficient [c] without its last [k] digits, rounded half to
    even on what is dropped. *)
Definition round_half_even (c k : Z) : Z :=
  let q := c / 10 ^ k in
  let r := c mod 10 ^ k in
  if (2 * r >? 10 ^ k) || ((2 * r =? 10 ^ k) && Z.odd q) then q + 1 else q.

(** Bringing a result into the context: at most [prec] digits, the
    exponent within the context's range. *)
Definition fix_ (x : t) : Result t :=
  if coef x =? 0 then
    Return {| coef := 0; exp := Z.min (Z.max (exp x) Etiny) Emax |}
  else
    let exp_min := ndigits (coef x) + exp x - prec in
    if exp_min >? Etop then Raise DecimalOverflow
    else
      let exp_min := Z.max exp_min Etiny in
      if exp x <? exp_min then
        let digits := ndigits (coef x) + exp x - exp_min in
        let '(c, e) := if digits <? 0 then (1, exp_min - 1) else (coef x, exp x) in
        let coeff := round_half_even c (exp_min - e) in
        let '(coeff, exp_min) :=
          if ndigits coeff >? prec then (coeff / 10, exp_min + 1) else (coeff, exp_min) in
        if exp_min >? Etop then Raise DecimalOverflow
        else Return {| coef := coeff; exp := exp_min |}
      else Return x.

(** The sum of two decimals before it is brought into the context: exact,
    at the smaller of the two exponents. *)
Definition add_exact (a b : t) : t :=
  let e := Z.min (exp a) (exp b) in
  {| coef := coef a * 10 ^ (exp a - e) + coef b * 10 ^ (exp b - e); exp := e |}.

(** [a + b] *)
Definition add (a b : t) : Result t := fix_ (add_exact a b).

(** A result the context leaves as it is: a coefficient of at most
    [prec] digits, an exponent that is not positive and not below
    [Etiny]. *)
Definition fits (x : t) : Prop :=
  0 <= coef x < 10 ^ prec /\ Etiny <= exp x <= 0.

Section OfStr.
Context `{U : Unicode}.

(** The number a run of digits writes; [None] when a character is not a
    digit. *)
Fixpoint digits_value (acc : Z) (s : str) : option Z :=
  match s with
  | [] => Some acc
  | c :: s' =>
      match Nd c with
      | Some v => digits_value (10 * acc + v) s'
      | None => None
      end
  end.

(** The text up to the first ".", and the text after it if there is one. *)
Fixpoint partition_point (s : str) : str * option str :=
  match s with
  | [] => ([], None)
  | c :: s' =>
      if c =? 46 then ([], Some s')
      else let '(a, b) := partition_point s' in (c :: a, b)
  end.

(** [decimal.Decimal(s)] for the strings the source converts, which are
    what [(\d+\.\d+)] captured: digits, then optionally a point and
    digits, with a digit somewhere. The conversion is exact. A string of
    another form is answered with [InvalidOperation]; signs, exponents
    and the special values, which [Decimal] also reads, are outside this
    fragment. *)
Definition of_str (s : str) : Result t :=
  let '(int_part, frac) := partition_point s in
  let frac_part := match frac with Some f => f | None => [] end in
  match (int_part ++ frac_part)%list with
  | [] => Raise DecimalInvalidOperation
  | all =>
      match digits_value 0 all with
      | Some c => Return {| coef := c; exp := - Z.of_nat (length frac_part) |}
      | None => Raise DecimalInvalidOperation
      end
  end.

End OfStr.
End Decimal.

(** ** quopri and the UTF-8 codec *)
Module Codec.

Definition is_hex (b : Z) : bool :=
  ((48 <=? b) && (b <=? 57)) || ((65 <=? b) && (b <=? 70)) || ((97 <=? b) && (b <=? 102)).

Definition hex_value (b : Z) : Z :=
  if b <=? 57 then b - 48 else if b <=? 70 then b - 55 else b - 87.

(** What follows the first line feed. *)
Fixpoint after_line_feed (data : bytes) : bytes :=
  match data with
  | [] => []
  | c :: r => if c =? 10 then r else after_line_feed r
  end.

(** [binascii.a2b_qp(data)], which [quopri.decodestring] calls: "=" and
    two hexadecimal digits stand for an octet, "=" at the end of a line
    joins it with the next one, "==" stands for "=", and any other "="
    is kept. *)
Fixpoint a2b_qp_from (fuel : nat) (data : bytes) : bytes :=
  match fuel with
  | O => []
  | S fuel' =>
      match data with
      | [] => []
      | c :: r =>
          if c =? 61 then
            match r with
            | [] => []
            | x :: r' =>
                if x =? 10 then a2b_qp_from fuel' r'
                else if x =? 13 then a2b_qp_from fuel' (after_line_feed r)
                else if x =? 61 then 61 :: a2b_qp_from fuel' r'
                else
                  match r' with
                  | y :: r'' =>
                      if is_hex x && is_hex y
                      then (hex_value x * 16 + hex_value y) :: a2b_qp_from fuel' r''
                      else 61 :: a2b_qp_from fuel' r
                  | [] => 61 :: a2b_qp_from fuel' r
                  end
            end
          else c :: a2b_qp_from fuel' r
      end
  end.

Definition a2b_qp (data : bytes) : bytes := a2b_qp_from (length data) data.

(** [quopri.decodestring(s)] on a [str]: the text must be ASCII. *)
Definition decodestring (s : str) : Result bytes :=
  if isascii s then Return (a2b_qp s) else Raise ValueError.

Definition continuation (b : Z) : bool := (128 <=? b) && (b <=? 191).

Definition second_of_three (b0 b1 : Z) : bool :=
  if b0 =? 224 then (160 <=? b1) && (b1 <=? 191)
  else if b0 =? 237 then (128 <=? b1) && (b1 <=? 159)
  else continuation b1.

Definition second_of_four (b0 b1 : Z) : bool :=
  if b0 =? 240 then (144 <=? b1) && (b1 <=? 191)
  else if b0 =? 244 then (128 <=? b1) && (b1 <=? 143)
  else continuation b1.

(** [b.decode(encoding="utf-8")]: strict, so an octet sequence that is not
    well-formed UTF-8 raises [UnicodeDecodeError]. *)
Fixpoint decode (b : bytes) : Result str :=
  match b with
  | [] => Return []
  | b0 :: r =>
      if b0 <? 128 then
        match decode r with Return t => Return (b0 :: t) | Raise e => Raise e end
      else if (194 <=? b0) && (b0 <=? 223) then
        match r with
        | b1 :: r1 =>
            if continuation b1 then
              match decode r1 with
              | Return t => Return (((b0 - 192) * 64 + (b1 - 128)) :: t)
              | Raise e => Raise e
              end
            else Raise UnicodeDecodeError
        | _ => Raise UnicodeDecodeError
        end
      else if (224 <=? b0) && (b0 <=? 239) then
        match r with
        | b1 :: b2 :: r2 =>
            if second_of_three b0 b1 && continuation b2 then
              match decode r2 with
              | Return t =>
                  Return (((b0 - 224) * 4096 + (b1 - 128) * 64 + (b2 - 128)) :: t)
              | Raise e => Raise e
              end
            else Raise UnicodeDecodeError
        | _ => Raise UnicodeDecodeError
        end
      else if (240 <=? b0) && (b0 <=? 244) then
        match r with
        | b1 :: b2 :: b3 :: r3 =>
            if second_of_four b0 b1 && continuation b2 && continuation b3 then
              match decode r3 with
              | Return t =>
                  Return (((b0 - 240) * 262144 + (b1 - 128) * 4096
                           + (b2 - 128) * 64 + (b3 - 128)) :: t)
              | Raise e => Raise e
              end
            else Raise UnicodeDecodeError
        | _ => Raise UnicodeDecodeError
        end
      else Raise UnicodeDecodeError
  end.

(** [s.encode("utf_8")]: a surrogate raises [UnicodeEncodeError]. *)
Fixpoint encode (s : str) : Result bytes :=
  match s with
  | [] => Return []
  | c :: s' =>
      t <- encode s' ;;
      if c <? 128 then Return (c :: t)
      else if c <? 2048 then Return ((192 + c / 64) :: (128 + c mod 64) :: t)
      else if (55296 <=? c) && (c <=? 57343) then Raise UnicodeEncodeError
      else if c <? 65536 then
        Return ((224 + c / 4096) :: (128 + (c / 64) mod 64) :: (128 + c mod 64) :: t)
      else
        Return ((240 + c / 262144) :: (128 + (c / 4096) mod 64)
                :: (128 + (c / 64) mod 64) :: (128 + c mod 64) :: t)
  end.

(** [quopri.decodestring(s).decode(encoding="utf-8")] *)
Definition decode_quoted_printable (s : str) : Result str :=
  b <- decodestring s ;; decode b.

End Codec.

(** ** Messages and other Python values

    What the program reads from an [email.message.Message]: the headers
    it asks for, [get_content_type()], the payload as it is and decoded,
    and the text [as_string()] (and so [str()]) give for it. *)
Record Message := {
  X_Gmail_Labels : option str;
  Date : option str;
  From_ : option str;
  To : option str;
  Subject : option str;
  Content_Type : option str;
  Content_Transfer_Encoding : option str;
  get_content_type : str;
  get_payload : str;
  get_payload_decoded : bytes;
  as_string : str
}.

#[local] Set Warnings "-register-all".

(** The values that travel through the program: [None], strings, bytes,
    a message that is not multipart ([Msg]), a multipart message with
    the list [get_payload()] gives for it, and a list or tuple. *)
Inductive Obj :=
| PyNone
| Str (s : str)
| Bytes (b : bytes)
| Msg (m : Message)
| Multipart (m : Message) (parts : list Obj)
| Seq (items : list Obj).

(** A parsed document, as [bs4] holds it: text and tags with their
    children. *)
Inductive Node :=
| Text (s : str)
| Tag (name : str) (contents : list Node).

(** The libraries the program calls that are not modelled further:
    [bs4.BeautifulSoup(markup, "html5lib")], [soup.prettify()] and
    [html.unescape]. *)
Class Library := {
  BeautifulSoup : Obj -> Result Node;
  prettify : Node -> Result str;
  html_unescape : str -> str
}.

(** ** Reading a message: [get_html_text] and [AbstractEmail] *)

(** A generator that yields what [f] yields for each element in turn,
    collected the way [list(...)] does: the first exception ends it. *)
Definition yield_each {A B} (f : A -> Result (list B)) : list A -> Result (list B) :=
  fix go (l : list A) : Result (list B) :=
    match l with
    | [] => Return []
    | a :: l' => found <- f a ;; others <- go l' ;; Return (found ++ others)%list
    end.

(** [[f(x) for x in l]] *)
Fixpoint comprehension {A B} (f : A -> Result B) (l : list A) : Result (list B) :=
  match l with
  | [] => Return []
  | a :: l' => b <- f a ;; bs <- comprehension f l' ;; Return (b :: bs)
  end.

Section Reading.
Context `{L : Library}.

(** [get_html_text(html)]: only [AttributeError] is caught. *)
Definition get_html_text (html : Obj) : Result Obj :=
  match (soup <- BeautifulSoup html ;; prettify soup) with
  | Return text => Return (Str text)
  | Raise AttributeError => Return PyNone
  | Raise e => Raise e
  end.

(** The body of the loop of [_get_email_messages] for one [message].
    [isinstance(message, (list, tuple))] holds of a [Seq]; of the other
    values only messages have [is_multipart]. *)
Fixpoint get_email_messages_of (message : Obj) : Result (list Obj) :=
  match message with
  | Seq items => yield_each get_email_messages_of items
  | Multipart _ parts => yield_each get_email_messages_of parts
  | Msg _ => Return [message]
  | PyNone | Str _ | Bytes _ => Raise AttributeError
  end.

(** [list(self._get_email_messages(email_payload))] *)
Definition _get_email_messages (email_payload : list Obj) : Result (list Obj) :=
  yield_each get_email_messages_of email_payload.

(** [msg.get_content_type()] *)
Definition content_type_of (msg : Obj) : Result str :=
  match msg with
  | Msg m | Multipart m _ => Return (get_content_type m)
  | _ => Raise AttributeError
  end.

(** [msg.get("Content-Transfer-Encoding", "NA")] *)
Definition encoding_of (msg : Obj) : Result str :=
  match msg with
  | Msg m | Multipart m _ =>
      Return (match Content_Transfer_Encoding m with Some e => e | None => py "NA" end)
  | _ => Raise AttributeError
  end.

(** [msg.get_payload()] *)
Definition payload_of (msg : Obj) : Result Obj :=
  match msg with
  | Msg m => Return (Str (get_payload m))
  | Multipart _ parts => Return (Seq parts)
  | _ => Raise AttributeError
  end.

(** [msg.get_payload(decode=True)], which is [None] for a multipart
    message. *)
Definition decoded_payload_of (msg : Obj) : Result Obj :=
  match msg with
  | Msg m => Return (Bytes (get_payload_decoded m))
  | Multipart _ _ => Return PyNone
  | _ => Raise AttributeError
  end.

Definition is_str (msg : Obj) : bool :=
  match msg with Str _ => true | _ => false end.

Definition _read_email_text (msg : Obj) : Result (str * str * Obj) :=
  content_type <- (if is_str msg then Return (py "NA") else content_type_of msg) ;;
  encoding <- (if is_str msg then Return (py "NA") else encoding_of msg) ;;
  msg_text <-
    (if contains content_type (py "text/plain") && negb (contains encoding (py "base64"))
     then payload_of msg
     else if contains content_type (py "text/html") && negb (contains encoding (py "base64"))
     then html <- decoded_payload_of msg ;; get_html_text html
     else if str_eqb content_type (py "NA")
     then get_html_text msg
     else Return PyNone) ;;
  Return (content_type, encoding, msg_text).

End Reading.

Module AbstractEmail.

Record t := {
  email_data : Obj;
  multipart_messages : list Obj;
  labels : option str;
  date : option str;
  sender : option str;
  receiver : option str;
  subject : option str;
  body : list (str * str * Obj)
}.

Section Init.
Context `{L : Library}.

(** [read_email_payload]: the leaves and what [_read_email_text] gives
    for each. *)
Definition read_email_payload (email_data : Obj) : Result (list Obj * list (str * str * Obj)) :=
  multipart_messages <-
    match email_data with
    | Multipart _ email_payload => _get_email_messages email_payload
    | _ => email_payload <- payload_of email_data ;; Return [email_payload]
    end ;;
  body <- comprehension _read_email_text multipart_messages ;;
  Return (multipart_messages, body).

(** [AbstractEmail(email)]; a value that is not a message is refused. *)
Definition init (email : Obj) : Result t :=
  match email with
  | Msg m | Multipart m _ =>
      '(multipart_messages, body) <- read_email_payload email ;;
      Return {| email_data := email;
                multipart_messages := multipart_messages;
                labels := X_Gmail_Labels m;
                date := Date m;
                sender := From_ m;
                receiver := To m;
                subject := Subject m;
                body := body |}
  | _ => Raise TypeError
  end.

End Init.
End AbstractEmail.

(** [message[name]]: only a message can be indexed by a header name. *)
Definition item (message : Obj) (header : Message -> option str) : Result (option str) :=
  match message with
  | Msg m | Multipart m _ => Return (header m)
  | _ => Raise TypeError
  end.

(** [message.as_string()] and [str(message)] *)
Definition as_string_of (message : Obj) : Result str :=
  match message with
  | Msg m | Multipart m _ => Return (as_string m)
  | _ => Raise AttributeError
  end.

(** ** DoorDashReceipt ([bak/parse.py]) *)
Module DoorDashReceipt.

Record t := {
  email_data : Obj;
  multipart_messages : list Obj;
  body : Obj;
  body_as_str : option str;
  line_seperator : str;
  order_id : str;
  url : str;
  cost_total : Decimal.t;
  restaurant : str
}.

Definition set_body (self : t) (message : Obj) (text : str) : t :=
  {| email_data := message;
     multipart_messages := multipart_messages self;
     body := message;
     body_as_str := Some text;
     line_seperator := line_seperator self;
     order_id := order_id self;
     url := url self;
     cost_total := cost_total self;
     restaurant := restaurant self |}.

Definition set_cost_total (self : t) (total : Decimal.t) : t :=
  {| email_data := email_data self;
     multipart_messages := multipart_messages self;
     body := body self;
     body_as_str := body_as_str self;
     line_seperator := line_seperator self;
     order_id := order_id self;
     url := url self;
     cost_total := total;
     restaurant := restaurant self |}.

Definition set_order_id (self : t) (new_url new_order_id : str) : t :=
  {| email_data := email_data self;
     multipart_messages := multipart_messages self;
     body := body self;
     body_as_str := body_as_str self;
     line_seperator := line_seperator self;
     order_id := new_order_id;
     url := new_url;
     cost_total := cost_total self;
     restaurant := restaurant self |}.

(** The object before [__init__] has run: the defaults of the class. *)
Definition new (messages : list Obj) : t :=
  {| email_data := PyNone;
     multipart_messages := messages;
     body := PyNone;
     body_as_str := None;
     line_seperator := LF;
     order_id := py "Unknown";
     url := py "Unknown";
     cost_total := Decimal.zero;
     restaurant := py "Unknown" |}.

Section Methods.
Context `{U : Unicode}.
Import Re.

(** [regex_total], compiled from "^Total Charged \p{Sc}(\d+\.\d+)\b" *)
Definition regex_total : Pattern :=
  {| expr := Seq [Bol false; Lit (py "Total Charged "); currency; decimal_group 1;
                  WordBoundary];
     ngroups := 1 |}.

(** [regex_order_id], compiled from
    "<(https\:\/\/www\.doordash\.com\/orders\/(\w{8}\-\w{4}\-\w{4}\-\w{4}\-\w{12}))\/>" *)
Definition regex_order_id : Pattern :=
  {| expr := Seq [Lit (py "<");
                  Group 1 (Seq [Lit (py "https://www.doordash.com/orders/");
                                Group 2 (Seq [Times w 8; Lit (py "-"); Times w 4;
                                              Lit (py "-"); Times w 4; Lit (py "-");
                                              Times w 4; Lit (py "-"); Times w 12])]);
                  Lit (py "/>")];
     ngroups := 2 |}.

(** The body of the loop of [__init__] for one [message]. *)
Definition init_message (self : t) (message : Obj) : Result t :=
  content_type <- item message Content_Type ;;
  encoding <- item message Content_Transfer_Encoding ;;
  content_type <- attr_of content_type ;;
  if startswith content_type (py "text/plain") then
    encoding <- attr_of encoding ;;
    if startswith encoding (py "quoted-printable") then
      text <- as_string_of message ;;
      body_as_str <- Codec.decode_quoted_printable text ;;
      Return (set_body self message body_as_str)
    else
      body_as_str <- as_string_of message ;;
      Return (set_body self message body_as_str)
  else Return self.

(** [DoorDashReceipt(email)] *)
Definition init (email : AbstractEmail.t) : Result t :=
  for_each init_message (AbstractEmail.multipart_messages email)
    (new (AbstractEmail.multipart_messages email)).

Definition parse_amount (self : t) (line : str) : Result t :=
  match findall1 regex_total line with
  | first :: _ =>
      amount <- Decimal.of_str first ;;
      total <- Decimal.add (cost_total self) amount ;;
      Return (set_cost_total self total)
  | [] => Return self
  end.

Definition parse_order_id (self : t) (line : str) : t :=
  match findall2 regex_order_id line with
  | (first_url, first_id) :: _ => set_order_id self first_url first_id
  | [] => self
  end.

(** The body of the loop of [parse] for one [line]. *)
Definition parse_line (self : t) (line : str) : Result t :=
  self <- parse_amount self line ;;
  Return (parse_order_id self line).

Definition parse (self : t) : Result t :=
  body_as_str <- attr_of (body_as_str self) ;;
  for_each parse_line (split body_as_str (line_seperator self)) self.

End Methods.
End DoorDashReceipt.

(** ** DeliverooReceipt

    The class is the same in both files, but for the name of the total:
    [cost_total] in [bak/parse.py], [amount] in [takeout_calc/parse.py]. *)
Module DeliverooReceipt.

Record t := {
  email_data : Obj;
  multipart_messages : list Obj;
  body : Obj;
  body_as_str : option str;
  line_seperator : str;
  order_id : str;
  cost_total : Decimal.t;
  restaurant : str
}.

Definition set_body (self : t) (message : Obj) (text : str) : t :=
  {| email_data := message;
     multipart_messages := multipart_messages self;
     body := message;
     body_as_str := Some text;
     line_seperator := line_seperator self;
     order_id := order_id self;
     cost_total := cost_total self;
     restaurant := restaurant self |}.

Definition set_line_seperator (self : t) (sep : str) : t :=
  {| email_data := email_data self;
     multipart_messages := multipart_messages self;
     body := body self;
     body_as_str := body_as_str self;
     line_seperator := sep;
     order_id := order_id self;
     cost_total := cost_total self;
     restaurant := restaurant self |}.

Definition set_cost_total (self : t) (total : Decimal.t) : t :=
  {| email_data := email_data self;
     multipart_messages := multipart_messages self;
     body := body self;
     body_as_str := body_as_str self;
     line_seperator := line_seperator self;
     order_id := order_id self;
     cost_total := total;
     restaurant := restaurant self |}.

Definition set_restaurant (self : t) (name : str) : t :=
  {| email_data := email_data self;
     multipart_messages := multipart_messages self;
     body := body self;
     body_as_str := body_as_str self;
     line_seperator := line_seperator self;
     order_id := order_id self;
     cost_total := cost_total self;
     restaurant := name |}.

Definition set_order_id (self : t) (new_order_id : str) : t :=
  {| email_data := email_data self;
     multipart_messages := multipart_messages self;
     body := body self;
     body_as_str := body_as_str self;
     line_seperator := line_seperator self;
     order_id := new_order_id;
     cost_total := cost_total self;
     restaurant := restaurant self |}.

(** The object before [__init__] has run: the defaults of the class. *)
Definition new (messages : list Obj) : t :=
  {| email_data := PyNone;
     multipart_messages := messages;
     body := PyNone;
     body_as_str := None;
     line_seperator := LF;
     order_id := py "Unknown";
     cost_total := Decimal.zero;
     restaurant := py "Unknown" |}.

Section Methods.
Context `{U : Unicode}.
Import Re.

(** [regex_total], compiled from "^\s{2}Total\s+\p{Sc}(\d+\.\d+)$" *)
Definition regex_total : Pattern :=
  {| expr := Seq [Bol false; Times s 2; Lit (py "Total"); Plus s; currency;
                  decimal_group 1; Eol];
     ngroups := 1 |}.

(** [regex_order_id], compiled from "Your Receipt for Order \#(\d+)\b" *)
Definition regex_order_id : Pattern :=
  {| expr := Seq [Lit (py "Your Receipt for Order #"); Group 1 (Plus d); WordBoundary];
     ngroups := 1 |}.

(** [regex_restaurant_name]: a whole line made of any text, the first
    group, and then " has your order!", the second group. *)
Definition regex_restaurant_name : Pattern :=
  {| expr := Seq [Bol false; Group 1 (Star dot); Group 2 (Lit (py " has your order!"));
                  Eol];
     ngroups := 2 |}.

(** The body of the loop of [__init__] for one [message]. *)
Definition init_message (self : t) (message : Obj) : Result t :=
  content_type <- item message Content_Type ;;
  encoding <- item message Content_Transfer_Encoding ;;
  content_type <- attr_of content_type ;;
  if startswith content_type (py "text/plain") then
    encoding <- attr_of encoding ;;
    if startswith encoding (py "quoted-printable") then
      text <- as_string_of message ;;
      body_as_str <- Codec.decode_quoted_printable text ;;
      let self := set_body self message body_as_str in
      if negb (isascii body_as_str)
      then Return (set_line_seperator self CRLF)
      else Return self
    else
      body_as_str <- as_string_of message ;;
      Return (set_body self message body_as_str)
  else Return self.

(** [DeliverooReceipt(email)] *)
Definition init (email : AbstractEmail.t) : Result t :=
  for_each init_message (AbstractEmail.multipart_messages email)
    (new (AbstractEmail.multipart_messages email)).

Definition parse_amount (self : t) (line : str) : Result t :=
  match findall1 regex_total line with
  | first :: _ =>
      amount <- Decimal.of_str first ;;
      total <- Decimal.add (cost_total self) amount ;;
      Return (set_cost_total self total)
  | [] => Return self
  end.

Definition parse_restaurant (self : t) (line : str) : t :=
  match findall2 regex_restaurant_name line with
  | (name, _) :: _ => set_restaurant self name
  | [] => self
  end.

Definition parse_order_id (self : t) (line : str) : t :=
  match findall1 regex_order_id line with
  | first :: _ => set_order_id self first
  | [] => self
  end.

(** The body of the loop of [parse] for one [line]. *)
Definition parse_line (self : t) (line : str) : Result t :=
  self <- parse_amount self line ;;
  Return (parse_order_id (parse_restaurant self line) line).

Definition parse (self : t) : Result t :=
  body_as_str <- attr_of (body_as_str self) ;;
  for_each parse_line (split body_as_str (line_seperator self)) self.

End Methods.
End DeliverooReceipt.

(** ** Printed output *)

(** What [print] writes: a literal line, or one of the formatted lines
    with the values it shows. *)
Inductive Printed :=
| Line (text : str)
| Parsing (index num_entries : nat)
| Adding (amount total : Decimal.t) (restaurant order_id : str)
| Sum (total : Decimal.t).

(** A computation that prints: the lines written, in order, and the
    outcome. An exception keeps what was printed before it. *)
Definition Py (A : Type) : Type := (list Printed * Result A)%type.

Definition ret {A} (a : A) : Py A := ([], Return a).

Definition lift {A} (r : Result A) : Py A := ([], r).

Definition print (p : Printed) : Py unit := ([p], Return tt).

Definition pbind {A B} (m : Py A) (f : A -> Py B) : Py B :=
  match m with
  | (out, Return a) => let '(out', r) := f a in ((out ++ out')%list, r)
  | (out, Raise e) => (out, Raise e)
  end.

Notation "x <~ m ;; k" := (pbind m (fun x => k))
  (at level 61, m at next level, right associativity) : py_scope.
Notation "m ~;; k" := (pbind m (fun _ => k))
  (at level 61, right associativity) : py_scope.

(** A for loop over the elements and their positions, as [enumerate]
    gives them. *)
Fixpoint for_enumerate {A S} (body : S -> nat -> A -> Py S) (index : nat)
    (l : list A) (s : S) : Py S :=
  match l with
  | [] => ret s
  | a :: l' => s' <~ body s index a ;; for_enumerate body (Datatypes.S index) l' s'
  end.

(** ** Searching a parsed document *)
Module Soup.

(** [tag.string]: the text of a tag with one child, looked for through
    single children. *)
Fixpoint string (n : Node) : option str :=
  match n with
  | Text t => Some t
  | Tag _ [child] => string child
  | Tag _ _ => None
  end.

(** [tag.descendants]: document order. *)
Fixpoint descendants (n : Node) : list Node :=
  match n with
  | Text _ => []
  | Tag _ contents => flat_map (fun child => child :: descendants child) contents
  end.

Definition contents (n : Node) : list Node :=
  match n with
  | Text _ => []
  | Tag _ c => c
  end.

Section FindAll.
Context `{U : Unicode}.

(** [soup.find_all(name=name, text=pattern)]: the tags called [name]
    whose [string] the pattern is found in. *)
Definition find_all (soup : Node) (name : str) (text : Re.Pattern) : list Node :=
  filter (fun n =>
            match n with
            | Tag tag_name _ =>
                str_eqb tag_name name &&
                match string n with
                | Some t => match Re.search text t with Some _ => true | None => false end
                | None => false
                end
            | Text _ => false
            end)
         (descendants soup).

End FindAll.
End Soup.

(** [s.rstrip()] *)
Definition rstrip `{Unicode} (s : str) : str :=
  rev ((fix drop (l : str) : str :=
          match l with
          | c :: l' => if isspace c then drop l' else l
          | [] => []
          end) (rev s)).

(** ** [bak/parse.py]: UberReceipt and [parse] *)
Module Bak.

Module UberReceipt.

Record t := {
  soup : Node;
  email_data : Obj;
  body : Obj;
  body_as_str : Obj;
  order_id : str;
  cost_total : Decimal.t;
  restaurant : str
}.

Definition set_cost_total (self : t) (total : Decimal.t) : t :=
  {| soup := soup self;
     email_data := email_data self;
     body := body self;
     body_as_str := body_as_str self;
     order_id := order_id self;
     cost_total := total;
     restaurant := restaurant self |}.

Definition set_restaurant (self : t) (name : str) : t :=
  {| soup := soup self;
     email_data := email_data self;
     body := body self;
     body_as_str := body_as_str self;
     order_id := order_id self;
     cost_total := cost_total self;
     restaurant := name |}.

Section Methods.
Context `{U : Unicode} `{L : Library}.
Import Re.

(** [re_ascii_chars], compiled from "[^\x00-\x7F]+" *)
Definition re_ascii_chars : Pattern :=
  {| expr := Plus (Char (fun c => negb ((0 <=? c) && (c <=? 127)))); ngroups := 0 |}.

(** [re_currency_sign], compiled from "\p{Sc}(\d+\.\d+)\b" *)
Definition re_currency_sign : Pattern :=
  {| expr := Seq [currency; decimal_group 1; WordBoundary]; ngroups := 1 |}.

(** [re_restaurant_name], compiled from
    "^\s+You ordered from (.*+)[\r\n|\r|\n]" with [re.MULTILINE]; the
    class at the end holds a carriage return, a line feed and a bar. *)
Definition re_restaurant_name : Pattern :=
  {| expr := Seq [Bol true; Plus s; Lit (py "You ordered from ");
                  Group 1 (Possessive (Star dot));
                  Char (fun c => (c =? 13) || (c =? 10) || (c =? 124))];
     ngroups := 1 |}.

(** [self.body.isascii()] *)
Definition isascii_of (o : Obj) : Result bool :=
  match o with
  | Str t => Return (isascii t)
  | Bytes b => Return (isascii b)
  | _ => Raise AttributeError
  end.

(** A string handed to a pattern: anything else is a [TypeError]. *)
Definition string_of (o : Obj) : Result str :=
  match o with
  | Str t => Return t
  | _ => Raise TypeError
  end.

(** [UberReceipt(email)] *)
Definition init (email : AbstractEmail.t) : Result t :=
  first <- index (AbstractEmail.body email) 0 ;;
  let body := snd first in
  soup <- BeautifulSoup body ;;
  transfer_encoding <- item (AbstractEmail.email_data email) Content_Transfer_Encoding ;;
  transfer_encoding <- attr_of transfer_encoding ;;
  body_as_str <-
    (if startswith transfer_encoding (py "quoted-printable") then
       ascii <- isascii_of body ;;
       if negb ascii then
         text <- string_of body ;;
         ascii_stripped_body <- Codec.encode (sub_empty re_ascii_chars text) ;;
         decoded <- Codec.decode (Codec.a2b_qp ascii_stripped_body) ;;
         Return (Str decoded)
       else Return body
     else Return body) ;;
  Return {| soup := soup;
            email_data := AbstractEmail.email_data email;
            body := body;
            body_as_str := body_as_str;
            order_id := py "Unknown";
            cost_total := Decimal.zero;
            restaurant := py "Unknown" |}.

(** [self.re_currency_sign.search(string=node)]: a tag is not a string. *)
Definition search_node (p : Pattern) (n : Node) : Result (option Match) :=
  match n with
  | Text t => Return (search p t)
  | Tag _ _ => Raise TypeError
  end.

Definition parse_amount (self : t) : Py t :=
  let amounts_found := Soup.find_all (soup self) (py "td") re_currency_sign in
  (if (length amounts_found <? 1)%nat
   then print (Line (py "Unable to find total amount in email"))
   else ret tt) ~;;
  lift (first <- index amounts_found 0 ;;
        content <- index (Soup.contents first) 0 ;;
        found <- search_node re_currency_sign content ;;
        found <- attr_of found ;;
        total <- attr_of (group found 1) ;;
        amount <- Decimal.of_str total ;;
        new_total <- Decimal.add (cost_total self) amount ;;
        Return (set_cost_total self new_total)).

Definition parse_restaurant (self : t) : Result t :=
  text <- string_of (body_as_str self) ;;
  match findall1 re_restaurant_name text with
  | first :: _ => Return (set_restaurant self (html_unescape (rstrip first)))
  | [] => Return self
  end.

Definition parse (self : t) : Py t :=
  self <~ parse_amount self ;;
  lift (parse_restaurant self).

End Methods.
End UberReceipt.

(** The receipt the loop holds: one of the three classes. *)
Inductive Receipt :=
| Uber (r : UberReceipt.t)
| DoorDash (r : DoorDashReceipt.t)
| Deliveroo (r : DeliverooReceipt.t).

Definition cost_total (receipt : Receipt) : Decimal.t :=
  match receipt with
  | Uber r => UberReceipt.cost_total r
  | DoorDash r => DoorDashReceipt.cost_total r
  | Deliveroo r => DeliverooReceipt.cost_total r
  end.

Definition restaurant (receipt : Receipt) : str :=
  match receipt with
  | Uber r => UberReceipt.restaurant r
  | DoorDash r => DoorDashReceipt.restaurant r
  | Deliveroo r => DeliverooReceipt.restaurant r
  end.

Definition order_id (receipt : Receipt) : str :=
  match receipt with
  | Uber r => UberReceipt.order_id r
  | DoorDash r => DoorDashReceipt.order_id r
  | Deliveroo r => DeliverooReceipt.order_id r
  end.

Section Parse.
Context `{U : Unicode} `{L : Library}.

(** [receipt.parse()] *)
Definition parse_receipt (receipt : Receipt) : Py Receipt :=
  match receipt with
  | Uber r => r' <~ UberReceipt.parse r ;; ret (Uber r')
  | DoorDash r => r' <~ lift (DoorDashReceipt.parse r) ;; ret (DoorDash r')
  | Deliveroo r => r' <~ lift (DeliverooReceipt.parse r) ;; ret (Deliveroo r')
  end.

(** The choice of the receipt class from the sender. *)
Definition select (email_data : AbstractEmail.t) : Py (option Receipt) :=
  sender <~ lift (attr_of (AbstractEmail.sender email_data)) ;;
  if contains sender (py "uber") then
    r <~ lift (UberReceipt.init email_data) ;; ret (Some (Uber r))
  else if contains sender (py "doordash") then
    r <~ lift (DoorDashReceipt.init email_data) ;; ret (Some (DoorDash r))
  else if contains sender (py "deliveroo") then
    r <~ lift (DeliverooReceipt.init email_data) ;; ret (Some (Deliveroo r))
  else
    print (Line (py "Unknown delivery service found")) ~;; ret None.

(** The body of the loop of [parse] for one message: [total] before it,
    and after it. *)
Definition parse_message (num_entries : nat) (total : Decimal.t) (index : nat)
    (email_obj : Obj) : Py Decimal.t :=
  email_data <~ lift (AbstractEmail.init email_obj) ;;
  receipt <~ select email_data ;;
  match receipt with
  | None => ret total
  | Some receipt =>
      receipt <~ parse_receipt receipt ;;
      let amount := cost_total receipt in
      total <~ lift (Decimal.add total amount) ;;
      print (Parsing index num_entries) ~;;
      print (Adding amount total (restaurant receipt) (order_id receipt)) ~;;
      ret total
  end.

(** [parse(mbox_file, results)]: [results] with the total appended. *)
Definition parse (mbox_file : list Obj) (results : list Decimal.t) : Py (list Decimal.t) :=
  let num_entries := length mbox_file in
  total <~ for_enumerate (parse_message num_entries) O mbox_file Decimal.zero ;;
  ret (results ++ [total])%list.

End Parse.
End Bak.

(** ** [takeout_calc/parse.py]: UberReceipt and the loop of the script *)
Module TakeoutCalc.

Module UberReceipt.

Record t := {
  email_data : Obj;
  body : Obj;
  order_id : str;
  amount : Decimal.t;
  restaurant : str
}.

Definition set_amount (self : t) (total : Decimal.t) : t :=
  {| email_data := email_data self;
     body := body self;
     order_id := order_id self;
     amount := total;
     restaurant := restaurant self |}.

Definition set_restaurant (self : t) (name : str) : t :=
  {| email_data := email_data self;
     body := body self;
     order_id := order_id self;
     amount := amount self;
     restaurant := name |}.

Section Methods.
Context `{U : Unicode}.
Import Re.

(** [regex_total], compiled from "\p{Sc}(\d+\.\d+)\b" *)
Definition regex_total : Pattern :=
  {| expr := Seq [currency; decimal_group 1; WordBoundary]; ngroups := 1 |}.

(** [UberReceipt(email)] *)
Definition init (email : AbstractEmail.t) : Result t :=
  first <- index (AbstractEmail.body email) 0 ;;
  Return {| email_data := AbstractEmail.email_data email;
            body := snd first;
            order_id := py "Unknown";
            amount := Decimal.zero;
            restaurant := py "Unknown" |}.

Definition parse_amount (self : t) : Py t :=
  text <~ lift (Bak.UberReceipt.string_of (body self)) ;;
  let amounts_found := findall1 regex_total text in
  (if (length amounts_found <? 1)%nat
   then print (Line (py "Unable to find total amount in email"))
   else ret tt) ~;;
  lift (first <- index amounts_found 0 ;;
        value <- Decimal.of_str first ;;
        new_total <- Decimal.add (amount self) value ;;
        Return (set_amount self new_total)).

Definition parse_restaurant (self : t) : Py t :=
  print (Line (py "TODO(MinuraIddamalgoda): Parse restaurant")) ~;;
  ret (set_restaurant self (py "Unknown")).

Definition parse (self : t) : Py t :=
  self <~ parse_amount self ;;
  parse_restaurant self.

End Methods.
End UberReceipt.

(** The receipt the loop holds: DoorDash has no class in this file. *)
Inductive Receipt :=
| Uber (r : UberReceipt.t)
| Deliveroo (r : DeliverooReceipt.t).

Definition amount (receipt : Receipt) : Decimal.t :=
  match receipt with
  | Uber r => UberReceipt.amount r
  | Deliveroo r => DeliverooReceipt.cost_total r
  end.

Definition restaurant (receipt : Receipt) : str :=
  match receipt with
  | Uber r => UberReceipt.restaurant r
  | Deliveroo r => DeliverooReceipt.restaurant r
  end.

Definition order_id (receipt : Receipt) : str :=
  match receipt with
  | Uber r => UberReceipt.order_id r
  | Deliveroo r => DeliverooReceipt.order_id r
  end.

Section Script.
Context `{U : Unicode} `{L : Library}.

(** [receipt.parse()] *)
Definition parse_receipt (receipt : Receipt) : Py Receipt :=
  match receipt with
  | Uber r => r' <~ UberReceipt.parse r ;; ret (Uber r')
  | Deliveroo r => r' <~ lift (DeliverooReceipt.parse r) ;; ret (Deliveroo r')
  end.

(** The choice of the receipt class from the sender. *)
Definition select (email_data : AbstractEmail.t) : Py (option Receipt) :=
  sender <~ lift (attr_of (AbstractEmail.sender email_data)) ;;
  if contains sender (py "uber") then
    r <~ lift (UberReceipt.init email_data) ;; ret (Some (Uber r))
  else if contains sender (py "doordash") then
    print (Line (py "DoorDash has not been implemented yet")) ~;; ret None
  else if contains sender (py "deliveroo") then
    r <~ lift (DeliverooReceipt.init email_data) ;; ret (Some (Deliveroo r))
  else
    print (Line (py "Unknown delivery service found")) ~;; ret None.

(** The body of the loop of the script for one message. *)
Definition parse_message (num_entries : nat) (total : Decimal.t) (idx : nat)
    (email_obj : Obj) : Py Decimal.t :=
  email_data <~ lift (AbstractEmail.init email_obj) ;;
  receipt <~ select email_data ;;
  match receipt with
  | None => ret total
  | Some receipt =>
      receipt <~ parse_receipt receipt ;;
      let amount := amount receipt in
      total <~ lift (Decimal.add total amount) ;;
      print (Parsing idx num_entries) ~;;
      print (Adding amount total (restaurant receipt) (order_id receipt)) ~;;
      ret total
  end.

(** The script over the messages of the mailbox [mbox_obj]: the total it
    prints at the end. *)
Definition script (mbox_obj : list Obj) : Py Decimal.t :=
  let num_entries := length mbox_obj in
  total <~ for_enumerate (parse_message num_entries) O mbox_obj Decimal.zero ;;
  print (Sum total) ~;;
  ret total.

End Script.
End TakeoutCalc.

(** ** Tables and stand-ins for the examples

    The examples below are evaluated with the Unicode tables cut down to
    Basic Latin and Latin-1 Supplement, the blocks their texts are written
    in, and with a stand-in for [bs4] and [html]. *)
Definition in_range (lo hi c : Z) : bool := (lo <=? c) && (c <=? hi).

Definition latin1 : Unicode := {|
  Sc := fun c => (c =? 36) || in_range 162 165 c;
  Nd := fun c => if in_range 48 57 c then Some (c - 48) else None;
  White_Space := fun c => in_range 9 13 c || (c =? 32) || (c =? 133) || (c =? 160);
  Word := fun c =>
    in_range 48 57 c || in_range 65 90 c || (c =? 95) || in_range 97 122 c
    || (c =? 170) || (c =? 181) || (c =? 186) || in_range 192 214 c
    || in_range 216 246 c || in_range 248 255 c;
  isspace := fun c => in_range 9 13 c || in_range 28 32 c || (c =? 133) || (c =? 160)
|}.

(** The stand-in: a string, or bytes, is a document of one text node,
    which [prettify] gives back; any other value is refused with a
    [TypeError], [None] among them, as [bs4] does when it takes the
    length of the markup. *)
Definition text_only : Library := {|
  BeautifulSoup := fun markup =>
    match markup with
    | Str t | Bytes t => Return (Tag (py "[document]") [Text t])
    | _ => Raise TypeError
    end;
  prettify := fun soup =>
    match Soup.string soup with
    | Some t => Return t
    | None => Return []
    end;
  html_unescape := fun t => t
|}.

(** ** Notions the statements use *)

(** A leaf of the body: a message that is not multipart. *)
Definition is_leaf (o : Obj) : bool :=
  match o with
  | Msg _ => true
  | _ => false
  end.

(** The tests of [_read_email_text] on the content type and the
    encoding of a part. *)
Definition plain_text (content_type encoding : str) : bool :=
  contains content_type (py "text/plain") && negb (contains encoding (py "base64")).

Definition html_text (content_type encoding : str) : bool :=
  contains content_type (py "text/html") && negb (contains encoding (py "base64")).

(** The encoding [_read_email_text] reads from a message. *)
Definition encoding_or_NA (m : Message) : str :=
  match Content_Transfer_Encoding m with
  | Some e => e
  | None => py "NA"
  end.

(** [message["Content-Type"].startswith("text/plain")], when the value is
    a message that carries the header. *)
Definition starts_text_plain (o : Obj) : option bool :=
  match o with
  | Msg m | Multipart m _ =>
      match Content_Type m with
      | Some content_type => Some (startswith content_type (py "text/plain"))
      | None => None
      end
  | _ => None
  end.

(** A part that is text/plain, and one that has a content type which is
    not. *)
Definition text_plain (o : Obj) : Prop := starts_text_plain o = Some true.
Definition not_text_plain (o : Obj) : Prop := starts_text_plain o = Some false.

Definition quoted_printable (m : Message) : bool :=
  match Content_Transfer_Encoding m with
  | Some encoding => startswith encoding (py "quoted-printable")
  | None => false
  end.

(** The text the constructors of DoorDashReceipt and DeliverooReceipt
    read from one text/plain part: [as_string()] decoded when the
    encoding starts with "quoted-printable", as it is otherwise. *)
Definition body_text (m : Message) : Result str :=
  match Content_Transfer_Encoding m with
  | Some encoding =>
      if startswith encoding (py "quoted-printable")
      then Codec.decode_quoted_printable (as_string m)
      else Return (as_string m)
  | None => Raise AttributeError
  end.

(** A part the constructors get past: a message with a content type,
    whose text can be read if it is text/plain. *)
Definition readable (o : Obj) : bool :=
  match o with
  | Msg m | Multipart m _ =>
      match Content_Type m with
      | Some content_type =>
          if startswith content_type (py "text/plain")
          then match body_text m with Return _ => true | Raise _ => false end
          else true
      | None => false
      end
  | _ => false
  end.

(** What a match of an expression is, apart from the search for it:
    [Matches r c g c' g'] when [r] can take the text from [c] to [c']
    and turn the captures [g] into [g']. The assertions are left
    unconstrained, which is enough to tell what a group can capture. *)
Module ReSpec.
Import Re.

(** [n] rounds of [step], one after the other. *)
Fixpoint rounds (step : cursor -> captures -> cursor -> captures -> Prop) (n : nat)
    (c : cursor) (g : captures) (c' : cursor) (g' : captures) : Prop :=
  match n with
  | O => c' = c /\ g' = g
  | S n' => exists c1 g1, step c g c1 g1 /\ rounds step n' c1 g1 c' g'
  end.

Fixpoint Matches (r : re) (c : cursor) (g : captures) (c' : cursor) (g' : captures)
    : Prop :=
  match r with
  | Empty => c' = c /\ g' = g
  | Char p => exists x, rest c = x :: rest c' /\ p x = true /\ g' = g
  | Cat a b => exists c1 g1, Matches a c g c1 g1 /\ Matches b c1 g1 c' g'
  | Repeat a lo _ => exists n, (lo <= n)%nat /\ rounds (Matches a) n c g c' g'
  | Possessive a => Matches a c g c' g'
  | Group n a =>
      exists g1, Matches a c g c' g1 /\ g' = set_capture (pred n) (consumed c c') g1
  | Bol _ | Eol | WordBoundary => c' = c /\ g' = g
  end.

(** An expression without groups. *)
Fixpoint plain (r : re) : bool :=
  match r with
  | Group _ _ => false
  | Cat a b => plain a && plain b
  | Repeat a _ _ | Possessive a => plain a
  | Empty | Char _ | Bol _ | Eol | WordBoundary => true
  end.

(** A number written with a point: digits, a point, digits. *)
Definition decimal_text `{U : Unicode} (text : str) : Prop :=
  exists whole fraction,
    text = (whole ++ 46 :: fraction)%list
    /\ Forall (fun c => is_digit c = true) whole
    /\ Forall (fun c => is_digit c = true) fraction
    /\ whole <> [] /\ fraction <> [].

End ReSpec.

Section Totals.
Context `{U : Unicode}.

(** What the first match of [pattern] captured, for each line that has a
    match. *)
Definition captured (pattern : Re.Pattern) (lines : list str) : list str :=
  flat_map (fun line =>
              match Re.findall1 pattern line with
              | first :: _ => [first]
              | [] => []
              end) lines.

(** What [parse_amount] does to the total for one line. *)
Definition add_amount (pattern : Re.Pattern) (total : Decimal.t) (line : str)
    : Result Decimal.t :=
  match Re.findall1 pattern line with
  | first :: _ => amount <- Decimal.of_str first ;; Decimal.add total amount
  | [] => Return total
  end.

(** The total after the lines, from [total] before them. *)
Definition total_of_lines (pattern : Re.Pattern) (lines : list str) (total : Decimal.t)
    : Result Decimal.t :=
  for_each (add_amount pattern) lines total.

End Totals.

(** Every running sum of the amounts, starting from [total], is one the
    context leaves as it is. *)
Fixpoint sums_fit (total : Decimal.t) (amounts : list Decimal.t) : Prop :=
  match amounts with
  | [] => True
  | amount :: rest =>
      Decimal.fits (Decimal.add_exact total amount)
      /\ sums_fit (Decimal.add_exact total amount) rest
  end.

(** The sum of the numbers the amounts stand for. *)
Definition sum_values (amounts : list Decimal.t) : Q :=
  fold_right (fun amount q => (Decimal.value amount + q)%Q) 0%Q amounts.

(** The separator a text/plain part leaves behind in a
    DeliverooReceipt. *)
Definition with_separator (self : DeliverooReceipt.t) (m : Message) (text : str)
    : DeliverooReceipt.t :=
  if quoted_printable m && negb (isascii text)
  then DeliverooReceipt.set_line_seperator self CRLF else self.

(** What a line does to the fields of a DeliverooReceipt other than the
    total. *)
Definition parse_names `{U : Unicode} (self : DeliverooReceipt.t) (line : str)
    : DeliverooReceipt.t :=
  DeliverooReceipt.parse_order_id (DeliverooReceipt.parse_restaurant self line) line.

(** ** Inputs of the examples *)

(** A part with the two headers the program reads, serialised as the
    headers, an empty line and the payload. *)
Definition part (content_type encoding mime_type payload : str) (decoded : bytes) : Message :=
  {| X_Gmail_Labels := None;
     Date := None;
     From_ := None;
     To := None;
     Subject := None;
     Content_Type := Some content_type;
     Content_Transfer_Encoding := Some encoding;
     get_content_type := mime_type;
     get_payload := payload;
     get_payload_decoded := decoded;
     as_string := (py "Content-Type: " ++ content_type ++ LF
                   ++ py "Content-Transfer-Encoding: " ++ encoding ++ LF ++ LF
                   ++ payload)%list |}.

Definition plain_part (payload : str) : Message :=
  part (py "text/plain; charset=utf-8") (py "7bit") (py "text/plain") payload payload.

Definition html_part (payload : str) : Message :=
  part (py "text/html; charset=utf-8") (py "7bit") (py "text/html") payload payload.

(** A text/plain part in quoted-printable whose text, once decoded, holds
    an e with an acute accent. *)
Definition cafe_part : Message :=
  part (py "text/plain; charset=utf-8") (py "quoted-printable") (py "text/plain")
       (py "Caf=C3=A9 Luna has your order!")
       (py "Caf" ++ [195; 169] ++ py " Luna has your order!")%list.

(** A multipart message of the mailbox, from [from], with the given
    parts. *)
Definition mbox_message (from : str) (parts : list Message) : Obj :=
  Multipart
    {| X_Gmail_Labels := Some (py "Receipts/Takeout");
       Date := Some (py "Mon, 01 Jan 2024 12:00:00 +0000");
       From_ := Some from;
       To := Some (py "me@example.com");
       Subject := Some (py "Your receipt");
       Content_Type := Some (py "multipart/alternative; boundary=b1");
       Content_Transfer_Encoding := None;
       get_content_type := py "multipart/alternative";
       get_payload := [];
       get_payload_decoded := [];
       as_string := [] |}
    (List.map Msg parts).

(** What [AbstractEmail] makes of that message, when the text of each
    part is its payload: so it is for a text/plain part, and for a
    text/html part with the stand-in for [bs4]. *)
Definition email_of (from : str) (parts : list Message) : AbstractEmail.t :=
  {| AbstractEmail.email_data := mbox_message from parts;
     AbstractEmail.multipart_messages := List.map Msg parts;
     AbstractEmail.labels := Some (py "Receipts/Takeout");
     AbstractEmail.date := Some (py "Mon, 01 Jan 2024 12:00:00 +0000");
     AbstractEmail.sender := Some from;
     AbstractEmail.receiver := Some (py "me@example.com");
     AbstractEmail.subject := Some (py "Your receipt");
     AbstractEmail.body :=
       List.map (fun m => (get_content_type m, encoding_or_NA m, Str (get_payload m)))
         parts |}.

Definition doordash_sender : str := py "DoorDash <no-reply@doordash.com>".
Definition deliveroo_sender : str := py "Deliveroo <hello@deliveroo.co.uk>".

(** A DoorDash message with [cafe_part] alone, one with two text/plain
    parts around an HTML part, and one with an HTML part only. *)
Definition cafe_email : AbstractEmail.t := email_of doordash_sender [cafe_part].

Definition three_parts : list Message :=
  [plain_part (py "Total Charged $1.00");
   html_part (py "<p>Total Charged $2.00</p>");
   plain_part (py "Total Charged $3.00")].

Definition two_plain_parts : AbstractEmail.t := email_of doordash_sender three_parts.

Definition html_only : AbstractEmail.t :=
  email_of doordash_sender [html_part (py "<p>Total Charged $2.00</p>")].

(** A DoorDash receipt of 23.45 in one text/plain part. *)
Definition doordash_message : Obj :=
  mbox_message doordash_sender
    [plain_part (py "Thanks for your order" ++ LF ++ py "Total Charged $23.45" ++ LF)%list].

(** What [UberReceipt.parse_amount] prints when it finds no amount. *)
Definition no_amount_notice : Printed :=
  Line (py "Unable to find total amount in email").

(** A message from Uber Eats, not multipart, whose HTML holds no amount
    and no table cell; what [AbstractEmail] and then [UberReceipt] make of
    it with the stand-in for [bs4]. *)
Definition uber_html : str := py "<html><body><p>Thanks for ordering</p></body></html>".

Definition uber_message : Obj :=
  Msg {| X_Gmail_Labels := Some (py "Receipts/Takeout");
         Date := Some (py "Mon, 01 Jan 2024 12:00:00 +0000");
         From_ := Some (py "Uber Receipts <uber.us@uber.com>");
         To := Some (py "me@example.com");
         Subject := Some (py "Your order with Uber Eats");
         Content_Type := Some (py "text/html; charset=utf-8");
         Content_Transfer_Encoding := Some (py "7bit");
         get_content_type := py "text/html";
         get_payload := uber_html;
         get_payload_decoded := uber_html;
         as_string := [] |}.

Definition uber_email : AbstractEmail.t :=
  {| AbstractEmail.email_data := uber_message;
     AbstractEmail.multipart_messages := [Str uber_html];
     AbstractEmail.labels := Some (py "Receipts/Takeout");
     AbstractEmail.date := Some (py "Mon, 01 Jan 2024 12:00:00 +0000");
     AbstractEmail.sender := Some (py "Uber Receipts <uber.us@uber.com>");
     AbstractEmail.receiver := Some (py "me@example.com");
     AbstractEmail.subject := Some (py "Your order with Uber Eats");
     AbstractEmail.body := [(py "NA", py "NA", Str uber_html)] |}.

Definition uber_receipt : Bak.UberReceipt.t :=
  {| Bak.UberReceipt.soup := Tag (py "[document]") [Text uber_html];
     Bak.UberReceipt.email_data := uber_message;
     Bak.UberReceipt.body := Str uber_html;
     Bak.UberReceipt.body_as_str := Str uber_html;
     Bak.UberReceipt.order_id := py "Unknown";
     Bak.UberReceipt.cost_total := Decimal.zero;
     Bak.UberReceipt.restaurant := py "Unknown" |}.

(** The text of a message that names two orders of DoorDash, and of one
    that names two of Deliveroo. *)
Definition first_order_line : str :=
  py "<https://www.doordash.com/orders/11111111-2222-3333-4444-555555555555/>".

Definition second_order_line : str :=
  py "<https://www.doordash.com/orders/aaaaaaaa-bbbb-cccc-dddd-eeeeeeeeeeee/>".

Definition two_orders_doordash : str :=
  (first_order_line ++ LF ++ second_order_line ++ LF)%list.

Definition two_orders_deliveroo : str :=
  (py "Your Receipt for Order #1111" ++ LF ++ py "Your Receipt for Order #2222" ++ LF)%list.

(** Two amounts of at most 28 digits each whose sum has 29, as DoorDash
    and as Deliveroo write them. *)
Definition long_amounts_doordash : str :=
  (py "Total Charged $999999999999999999999999999.9" ++ LF
   ++ py "Total Charged $0.05" ++ LF)%list.

Definition long_amounts_deliveroo : str :=
  (py "  Total  $999999999999999999999999999.9" ++ LF ++ py "  Total  $0.05" ++ LF)%list.

(** The amounts 12.50 and 1.00. *)
Definition two_amounts_doordash : str :=
  (py "Total Charged $12.50" ++ LF ++ py "Total Charged $1.00" ++ LF)%list.

(** A message with [payload] in one text/plain part, and the receipts
    the two constructors make of it. *)
Definition plain_email (from payload : str) : AbstractEmail.t :=
  email_of from [plain_part payload].

Definition doordash_of (payload : str) : DoorDashReceipt.t :=
  DoorDashReceipt.set_body (DoorDashReceipt.new [Msg (plain_part payload)])
    (Msg (plain_part payload)) (as_string (plain_part payload)).

Definition deliveroo_of (payload : str) : DeliverooReceipt.t :=
  DeliverooReceipt.set_body (DeliverooReceipt.new [Msg (plain_part payload)])
    (Msg (plain_part payload)) (as_string (plain_part payload)).

(** The lines of the text of a [plain_part] before those of its payload:
    the two headers and an empty line. *)
Definition header_lines : list str :=
  [py "Content-Type: text/plain; charset=utf-8";
   py "Content-Transfer-Encoding: 7bit";
   []].

(** The DoorDash message of the scenario in the specification, a
    Deliveroo receipt of 18.90, and a message from an unknown sender. *)
Definition scenario_text : str :=
  (py "Total Charged $23.45" ++ LF ++ first_order_line ++ LF)%list.

Definition deliveroo_text : str :=
  (py "Luna Pizza has your order!" ++ LF
   ++ py "Your Receipt for Order #4711" ++ LF
   ++ py "  Subtotal  $16.90" ++ LF
   ++ py "  Total  $18.90" ++ LF)%list.

Definition mailbox : list Obj :=
  [mbox_message doordash_sender [plain_part scenario_text];
   mbox_message (py "someone@example.com") [plain_part (py "Total Charged $5.00")];
   mbox_message deliveroo_sender [plain_part deliveroo_text]].

(** ** Notions of the amended statements *)

(** The order the specification asks of flattening: the leaves of a
    value depth first, from left to right. A multipart message and a
    list stand for their elements in turn, anything else for itself. *)
Fixpoint depth_first (o : Obj) : list Obj :=
  match o with
  | Multipart _ parts => flat_map depth_first parts
  | Seq items => flat_map depth_first items
  | _ => [o]
  end.

(** A value that flattening goes through: a message, or a multipart
    message or list of such values. *)
Fixpoint all_messages (o : Obj) : bool :=
  match o with
  | Msg _ => true
  | Multipart _ parts => forallb all_messages parts
  | Seq items => forallb all_messages items
  | PyNone | Str _ | Bytes _ => false
  end.

(** A payload with a multipart message, and a list in it, before a
    leaf. *)
Definition nested_parts : list Obj :=
  [Multipart (html_part [])
     [Msg (plain_part (py "one")); Seq [Msg (html_part (py "two"))];
      Msg (plain_part (py "three"))];
   Msg (plain_part (py "four"))].


(** The error of the constructors of DoorDashReceipt and
    DeliverooReceipt on a part they cannot ask for its content type:
    [message["Content-Type"]] is a [TypeError] on a value that is no
    message, and [None.startswith] an [AttributeError] on a message
    without the header. *)
Definition header_error (o : Obj) : Exception :=
  match o with
  | Msg _ | Multipart _ _ => AttributeError
  | _ => TypeError
  end.

(** A part without a Content-Type header, and a DoorDash message made
    of it. *)
Definition headerless_part : Message :=
  {| X_Gmail_Labels := None;
     Date := None;
     From_ := None;
     To := None;
     Subject := None;
     Content_Type := None;
     Content_Transfer_Encoding := None;
     get_content_type := py "text/plain";
     get_payload := py "Total Charged $23.45";
     get_payload_decoded := py "Total Charged $23.45";
     as_string := (LF ++ py "Total Charged $23.45")%list |}.

Definition headerless_email : AbstractEmail.t := email_of doordash_sender [headerless_part].

(** Rounding to the nearest, ties to the even one: [n] units of
    [10 ^ k] are as near to [c] as units can be, and [n] is even when
    [c] is half way between two. *)
Definition nearest_half_even (c k n : Z) : Prop :=
  2 * Z.abs (c - n * 10 ^ k) <= 10 ^ k
  /\ (2 * Z.abs (c - n * 10 ^ k) = 10 ^ k -> Z.even n = true).

(** [r] is the exact sum [s] brought to the 28 significant digits of the
    context: the digits of [s] beyond the 28th are dropped, what stays
    is rounded to the nearest, ties to even, and [r] stands for it. *)
Definition rounded_to_context (s r : Decimal.t) : Prop :=
  let k := Decimal.ndigits (Decimal.coef s) - Decimal.prec in
  exists n,
    nearest_half_even (Decimal.coef s) k n
    /\ (Decimal.value r == inject_Z n * inject_Z 10 ^ (Decimal.exp s + k))%Q
    /\ 0 < Decimal.coef r < 10 ^ Decimal.prec.

(** ** Notions for the further properties *)

(** A value of a payload that flattening can go through: a message, or
    a multipart message or list whose elements all are. *)
Fixpoint only_messages (o : Obj) : bool :=
  match o with
  | Msg _ => true
  | Multipart _ parts => forallb only_messages parts
  | Seq items => forallb only_messages items
  | PyNone | Str _ | Bytes _ => false
  end.

(** A payload with parts nested in a multipart message and in a list,
    and one that holds a bare string. *)
Definition nested_payload : list Obj :=
  [Multipart (html_part []) [Msg (plain_part (py "a")); Seq [Msg (html_part (py "b"))]];
   Msg (plain_part (py "c"))].

Definition payload_with_string : list Obj :=
  [Msg (plain_part (py "a")); Seq [Msg (html_part (py "b")); Str (py "c")]].

(** A value that is a message, multipart or not. *)
Definition is_message (o : Obj) : bool :=
  match o with
  | Msg _ | Multipart _ _ => true
  | _ => false
  end.

(** A DoorDash receipt that is not multipart: one text/plain message. *)
Definition single_part : Message :=
  {| X_Gmail_Labels := Some (py "Receipts/Takeout");
         Date := Some (py "Mon, 01 Jan 2024 12:00:00 +0000");
         From_ := Some doordash_sender;
         To := Some (py "me@example.com");
         Subject := Some (py "Your receipt");
         Content_Type := Some (py "text/plain; charset=utf-8");
         Content_Transfer_Encoding := Some (py "7bit");
         get_content_type := py "text/plain";
         get_payload := py "Total Charged $23.45";
         get_payload_decoded := py "Total Charged $23.45";
         as_string := (py "Content-Type: text/plain; charset=utf-8" ++ LF ++ LF
                       ++ py "Total Charged $23.45")%list |}.

Definition single_part_message : Obj := Msg single_part.

(** What [AbstractEmail] makes of it with the stand-in for [bs4]. *)
Definition single_part_email : AbstractEmail.t :=
  {| AbstractEmail.email_data := single_part_message;
     AbstractEmail.multipart_messages := [Str (py "Total Charged $23.45")];
     AbstractEmail.labels := Some (py "Receipts/Takeout");
     AbstractEmail.date := Some (py "Mon, 01 Jan 2024 12:00:00 +0000");
     AbstractEmail.sender := Some doordash_sender;
     AbstractEmail.receiver := Some (py "me@example.com");
     AbstractEmail.subject := Some (py "Your receipt");
     AbstractEmail.body := [(py "NA", py "NA", Str (py "Total Charged $23.45"))] |}.

(** What a match of an expression is, with its assertions: [Holds r c g
    c' g'] when [r] takes the text from [c] to [c'], turning the
    captures [g] into [g'], the repetitions within their bounds and
    [^], [$] and [\b] true where they stand. *)
Module ReStrict.
Import Re.

(** [n] rounds of [step], one after the other. *)
Fixpoint repeated (step : cursor -> captures -> cursor -> captures -> Prop) (n : nat)
    (c : cursor) (g : captures) (c' : cursor) (g' : captures) : Prop :=
  match n with
  | O => c' = c /\ g' = g
  | S n' => exists c1 g1, step c g c1 g1 /\ repeated step n' c1 g1 c' g'
  end.

Definition within (hi : option nat) (n : nat) : Prop :=
  match hi with
  | Some h => (n <= h)%nat
  | None => True
  end.

Section Holds.
Context `{U : Unicode}.

Fixpoint Holds (r : re) (c : cursor) (g : captures) (c' : cursor) (g' : captures)
    : Prop :=
  match r with
  | Empty => c' = c /\ g' = g
  | Char p =>
      exists x, rest c = x :: rest c' /\ p x = true /\ before c' = Some x /\ g' = g
  | Cat a b => exists c1 g1, Holds a c g c1 g1 /\ Holds b c1 g1 c' g'
  | Repeat a lo hi =>
      exists n, (lo <= n)%nat /\ within hi n /\ repeated (Holds a) n c g c' g'
  | Possessive a => Holds a c g c' g'
  | Group n a =>
      exists g1, Holds a c g c' g1 /\ g' = set_capture (pred n) (consumed c c') g1
  | Bol multiline =>
      c' = c /\ g' = g
      /\ (before c = None \/ (multiline = true /\ before c = Some 10))
  | Eol => c' = c /\ g' = g /\ (rest c = [] \/ rest c = [10])
  | WordBoundary =>
      c' = c /\ g' = g /\ xorb (word_at (before c)) (word_at (hd_error (rest c))) = true
  end.

End Holds.

(** The character before the position once [xs] has been passed. *)
Fixpoint last_seen (b : option Z) (xs : str) : option Z :=
  match xs with
  | [] => b
  | x :: xs' => last_seen (Some x) xs'
  end.

(** The position [c] moved over [xs], with [t] left. *)
Definition moved (c : cursor) (xs t : str) : cursor :=
  {| before := last_seen (before c) xs; rest := t |}.

(** The class [p] goes no further into [t]: [t] is empty, or its first
    character is not of the class. *)
Definition stops (p : Z -> bool) (t : str) : Prop :=
  match t with
  | [] => True
  | y :: _ => p y = false
  end.

End ReStrict.

(** A part that makes [DeliverooReceipt] take CRLF as the line
    separator: text/plain, in quoted-printable, with a text that is not
    ASCII once decoded. *)
Definition switches_to_crlf (o : Obj) : bool :=
  match o with
  | Msg m | Multipart m _ =>
      match Content_Type m, Content_Transfer_Encoding m with
      | Some content_type, Some encoding =>
          startswith content_type (py "text/plain")
          && startswith encoding (py "quoted-printable")
          && match Codec.decode_quoted_printable (as_string m) with
             | Return text => negb (isascii text)
             | Raise _ => false
             end
      | _, _ => false
      end
  | _ => false
  end.

(** A Deliveroo message whose first text/plain part is [cafe_part] and
    whose second one is plain ASCII. *)
Definition cafe_then_total : AbstractEmail.t :=
  email_of deliveroo_sender [cafe_part; plain_part (py "  Total  $18.90")].

(** A character of ASCII. *)
Definition ascii_char (c : Z) : bool := (0 <=? c) && (c <=? 127).

(** An Uber Eats message in quoted-printable whose text holds an e with
    an acute accent beside an escaped "=", as [AbstractEmail] has
    it. *)
Definition uber_quoted_text : str := (py "Caf" ++ [233] ++ py " Luna =3D 1")%list.

Definition uber_quoted_email : AbstractEmail.t :=
  {| AbstractEmail.email_data :=
       Msg (part (py "text/html; charset=utf-8") (py "quoted-printable") (py "text/html")
              uber_quoted_text uber_quoted_text);
     AbstractEmail.multipart_messages := [Str uber_quoted_text];
     AbstractEmail.labels := None;
     AbstractEmail.date := None;
     AbstractEmail.sender := Some (py "Uber Receipts <uber.us@uber.com>");
     AbstractEmail.receiver := None;
     AbstractEmail.subject := None;
     AbstractEmail.body := [(py "NA", py "NA", Str uber_quoted_text)] |}.

(** The five groups of word characters of a DoorDash order, with the
    dashes between them. *)
Definition dashed (a b c d e : str) : str :=
  (a ++ py "-" ++ b ++ py "-" ++ c ++ py "-" ++ d ++ py "-" ++ e)%list.

(** * Properties *)

(** ** The examples are messages as the program reads them *)

(** [AbstractEmail] reads the messages of the examples into the values
    the examples use. *)
Lemma examples_read :
  @AbstractEmail.init text_only (mbox_message doordash_sender [cafe_part])
  = Return cafe_email
  /\ @AbstractEmail.init text_only (mbox_message doordash_sender three_parts)
     = Return two_plain_parts
  /\ @AbstractEmail.init text_only
       (mbox_message doordash_sender [html_part (py "<p>Total Charged $2.00</p>")])
     = Return html_only
  /\ @AbstractEmail.init text_only uber_message = Return uber_email
  /\ @Bak.UberReceipt.init latin1 text_only uber_email = Return uber_receipt
  /\ (forall from payload,
        @AbstractEmail.init text_only (mbox_message from [plain_part payload])
        = Return (plain_email from payload))
  /\ (forall payload,
        DoorDashReceipt.init (plain_email doordash_sender payload)
        = Return (doordash_of payload))
  /\ (forall payload,
        DeliverooReceipt.init (plain_email deliveroo_sender payload)
        = Return (deliveroo_of payload)).
Proof.
  repeat split; reflexivity.
Qed.

(** The scenario of the specification: the amount, the order id and the
    url of the DoorDash message. *)
Lemma doordash_scenario :
  fmap (fun r => (DoorDashReceipt.cost_total r, DoorDashReceipt.order_id r,
                  DoorDashReceipt.url r))
    (@DoorDashReceipt.parse latin1 (doordash_of scenario_text))
  = Return ({| Decimal.coef := 2345; Decimal.exp := -2 |},
            py "11111111-2222-3333-4444-555555555555",
            py "https://www.doordash.com/orders/11111111-2222-3333-4444-555555555555").
Proof. vm_compute. reflexivity. Qed.

(** A Deliveroo receipt: the line of the subtotal does not count. *)
Lemma deliveroo_scenario :
  fmap (fun r => (DeliverooReceipt.cost_total r, DeliverooReceipt.order_id r,
                  DeliverooReceipt.restaurant r))
    (@DeliverooReceipt.parse latin1 (deliveroo_of deliveroo_text))
  = Return ({| Decimal.coef := 1890; Decimal.exp := -2 |}, py "4711", py "Luna Pizza").
Proof. vm_compute. reflexivity. Qed.

(** A mailbox of three messages in [bak/parse.py]: the unknown sender is
    reported and adds nothing, the total is 23.45 + 18.90. *)
Lemma mailbox_scenario :
  @Bak.parse latin1 text_only mailbox []
  = ([Parsing 0 3;
      Adding {| Decimal.coef := 2345; Decimal.exp := -2 |}
             {| Decimal.coef := 2345; Decimal.exp := -2 |}
             (py "Unknown") (py "11111111-2222-3333-4444-555555555555");
      Line (py "Unknown delivery service found");
      Parsing 2 3;
      Adding {| Decimal.coef := 1890; Decimal.exp := -2 |}
             {| Decimal.coef := 4235; Decimal.exp := -2 |}
             (py "Luna Pizza") (py "4711")],
     Return [{| Decimal.coef := 4235; Decimal.exp := -2 |}]).
Proof. vm_compute. reflexivity. Qed.


(** ** What the patterns capture *)
Module ReFacts.
Import Re ReSpec.
Section Sound.
Context `{U : Unicode}.

Lemma iterate_sound {A} (step : cursor -> captures -> cursor -> captures -> Prop)
    (body : cursor -> captures -> (cursor -> captures -> option A) -> option A)
    (lo : nat) (hi : option nat) (k : cursor -> captures -> option A) :
  (forall c g k' x, body c g k' = Some x ->
                    exists c' g', step c g c' g' /\ k' c' g' = Some x) ->
  forall fuel n c g x,
    iterate body lo hi k fuel n c g = Some x ->
    exists m c' g', rounds step m c g c' g' /\ (lo <= n + m)%nat /\ k c' g' = Some x.
Proof.
  intros Hbody.
  assert (Hstop : forall n c g x,
             (if (lo <=? n)%nat then k c g else None) = Some x ->
             exists m c' g', rounds step m c g c' g' /\ (lo <= n + m)%nat /\ k c' g' = Some x).
  { intros n c g x H. destruct (Nat.leb_spec lo n) as [Hle|]; [|discriminate].
    exists O, c, g. simpl. repeat split; [lia|exact H]. }
  induction fuel as [|fuel IH]; intros n c g x H; cbn [iterate] in H.
  - apply Hstop. exact H.
  - destruct (more hi n); [|apply Hstop; exact H].
    destruct (body c g _) as [y|] eqn:E; [|apply Hstop; exact H].
    injection H as ->.
    destruct (Hbody _ _ _ _ E) as (c1 & g1 & Hs & Hk).
    destruct (progressed c c1 || (n <? lo)%nat); [|discriminate].
    destruct (IH _ _ _ _ Hk) as (m & c' & g' & Hr & Hle & Hx).
    exists (S m), c', g'. repeat split; [|lia|exact Hx].
    simpl. exists c1, g1. split; assumption.
Qed.

(** Whatever the matcher finds is a match, and the rest of the pattern
    was run from where it ends. *)
Lemma exec_sound (r : re) :
  forall A c g (k : cursor -> captures -> option A) x,
    exec r c g k = Some x ->
    exists c' g', Matches r c g c' g' /\ k c' g' = Some x.
Proof.
  induction r as [|p|a IHa b IHb|a IHa lo hi|a IHa|n a IHa|m| |];
    intros A c g k x H; cbn [exec] in H.
  - exists c, g. simpl. auto.
  - destruct c as [b [|y t]]; simpl in H; [discriminate|].
    destruct (p y) eqn:Ep; [|discriminate].
    exists {| before := Some y; rest := t |}, g. simpl. split; [|exact H].
    exists y. auto.
  - destruct (IHa _ _ _ _ _ H) as (c1 & g1 & H1 & H2).
    destruct (IHb _ _ _ _ _ H2) as (c2 & g2 & H3 & H4).
    exists c2, g2. split; [|exact H4]. simpl. exists c1, g1. auto.
  - destruct (iterate_sound (Matches a) _ lo hi k (fun c g k' x => IHa A c g k' x)
                _ _ _ _ _ H) as (m & c' & g' & Hr & Hle & Hk).
    exists c', g'. split; [|exact Hk]. simpl. exists m. split; [lia|exact Hr].
  - destruct (exec a c g _) as [[c1 g1]|] eqn:E; [|discriminate].
    destruct (IHa _ _ _ _ _ E) as (c' & g' & H1 & [= -> ->]).
    exists c1, g1. auto.
  - destruct (IHa _ _ _ _ _ H) as (c' & g' & H1 & H2).
    exists c', (set_capture (pred n) (consumed c c') g'). split; [|exact H2].
    simpl. exists g'. auto.
  - exists c, g. split; [simpl; auto|].
    destruct (before c) as [y|]; [|exact H].
    destruct (m && (y =? 10)); [exact H|discriminate].
  - exists c, g. split; [simpl; auto|].
    destruct (rest c) as [|y [|z t]]; [exact H| |discriminate].
    destruct (y =? 10); [exact H|discriminate].
  - exists c, g. split; [simpl; auto|].
    destruct (xorb _ _); [exact H|discriminate].
Qed.

Lemma rounds_ind_step (step : cursor -> captures -> cursor -> captures -> Prop)
    (P : cursor -> captures -> cursor -> captures -> Prop) :
  (forall c g, P c g c g) ->
  (forall c g c1 g1 c' g', step c g c1 g1 -> P c1 g1 c' g' -> P c g c' g') ->
  forall n c g c' g', rounds step n c g c' g' -> P c g c' g'.
Proof.
  intros H0 HS. induction n as [|n IH]; intros c g c' g'; simpl.
  - intros [-> ->]. apply H0.
  - intros (c1 & g1 & H1 & H2). eapply HS; [exact H1|]. apply IH. exact H2.
Qed.

(** A match takes a piece off the front of the text. *)
Lemma matches_suffix (r : re) :
  forall c g c' g', Matches r c g c' g' -> exists xs, rest c = (xs ++ rest c')%list.
Proof.
  induction r as [|p|a IHa b IHb|a IHa lo hi|a IHa|n a IHa|m| |];
    intros c g c' g'; simpl;
    try (intros [-> ->]; exists []; reflexivity).
  - intros (x & H & _). exists [x]. exact H.
  - intros (c1 & g1 & H1 & H2).
    destruct (IHa _ _ _ _ H1) as [xs Hx]. destruct (IHb _ _ _ _ H2) as [ys Hy].
    exists (xs ++ ys)%list. rewrite Hx, Hy. apply app_assoc.
  - intros (n & _ & H). revert H.
    apply (rounds_ind_step (Matches a)
             (fun c g c' g' => exists xs, rest c = (xs ++ rest c')%list)).
    + intros c0 g0. exists []. reflexivity.
    + intros c0 g0 c1 g1 c2 g2 H1 [ys Hy]. destruct (IHa _ _ _ _ H1) as [xs Hx].
      exists (xs ++ ys)%list. rewrite Hx, Hy. apply app_assoc.
  - apply IHa.
  - intros (g1 & H & _). eapply IHa. exact H.
Qed.

Lemma consumed_front (c c' : cursor) (xs : str) :
  rest c = (xs ++ rest c')%list -> consumed c c' = xs.
Proof.
  intros H. unfold consumed. rewrite H, length_app.
  replace (length xs + length (rest c') - length (rest c'))%nat with (length xs) by lia.
  rewrite firstn_app, Nat.sub_diag, firstn_all. simpl. apply app_nil_r.
Qed.

(** An expression without groups leaves the captures as they are. *)
Lemma plain_keeps (r : re) :
  plain r = true -> forall c g c' g', Matches r c g c' g' -> g' = g.
Proof.
  induction r as [|p|a IHa b IHb|a IHa lo hi|a IHa|n a IHa|m| |];
    simpl; intros Hp c g c' g';
    try (intros [_ ->]; reflexivity); try discriminate.
  - intros (x & _ & _ & ->). reflexivity.
  - apply andb_prop in Hp as [Ha Hb]. intros (c1 & g1 & H1 & H2).
    rewrite (IHb Hb _ _ _ _ H2). apply (IHa Ha _ _ _ _ H1).
  - intros (n & _ & H). revert H.
    apply (rounds_ind_step (Matches a) (fun c g c' g' => g' = g)).
    + reflexivity.
    + intros c0 g0 c1 g1 c2 g2 H1 ->. apply (IHa Hp _ _ _ _ H1).
  - apply IHa. exact Hp.
Qed.

(** One or more digits. *)
Lemma matches_digits (c : cursor) (g : captures) (c' : cursor) (g' : captures) :
  Matches (Plus d) c g c' g' ->
  exists ds, rest c = (ds ++ rest c')%list
             /\ Forall (fun x => is_digit x = true) ds /\ ds <> [] /\ g' = g.
Proof.
  unfold Plus, d. simpl. intros (n & Hn & H).
  assert (Hr : exists ds, rest c = (ds ++ rest c')%list
                          /\ Forall (fun x => is_digit x = true) ds
                          /\ length ds = n /\ g' = g).
  { clear Hn. revert c g H. induction n as [|n IH]; intros c g; simpl.
    - intros [-> ->]. exists []. auto.
    - intros (c1 & g1 & (x & Hx & Hd & ->) & H2).
      destruct (IH _ _ H2) as (ds & H3 & H4 & H5 & H6).
      exists (x :: ds). rewrite Hx, H3. simpl. auto. }
  destruct Hr as (ds & H1 & H2 & H3 & H4). exists ds. repeat split; auto.
  intros ->. simpl in H3. lia.
Qed.

(** The group of an amount captures a number written with a point. *)
Lemma matches_decimal_group (c : cursor) (g : captures) (c' : cursor) (g' : captures) :
  Matches (decimal_group 1) c g c' g' ->
  g <> [] ->
  exists text, decimal_text text /\ hd_error g' = Some (Some text).
Proof.
  unfold decimal_group. change (py ".") with [46]. cbn [Seq Lit Matches pred].
  intros (g1 & (c1 & g2 & H1 & c2 & g3 & (c3 & g4 & (x & Hx & Ex & ->) & -> & ->) & H3) & ->)
         Hg.
  destruct (matches_digits _ _ _ _ H1) as (whole & Hw & Dw & Nw & ->).
  destruct (matches_digits _ _ _ _ H3) as (fraction & Hf & Df & Nf & ->).
  apply Z.eqb_eq in Ex. subst x.
  exists (whole ++ 46 :: fraction)%list. split.
  - exists whole, fraction. auto.
  - rewrite (consumed_front c c' (whole ++ 46 :: fraction)).
    + destruct g; [contradiction|reflexivity].
    + rewrite Hw, Hx, Hf, <- app_assoc. reflexivity.
Qed.

(** Every match of the search is a match of the pattern somewhere in the
    text. *)
Lemma finditer_from_matches (p : Pattern) (fuel : nat) :
  forall c m, In m (finditer_from fuel p c) ->
              exists c0 c1, match_at p c0 = Some (m, c1).
Proof.
  induction fuel as [|fuel IH]; intros c m; cbn [finditer_from]; [contradiction|].
  destruct (match_at p c) as [[m0 c']|] eqn:E.
  - intros [<-|H]; [eauto|].
    destruct (progressed c c'); [eapply IH; exact H|].
    destruct (step c); [eapply IH; exact H|contradiction].
  - destruct (step c); [apply IH|contradiction].
Qed.

Lemma match_at_matches (p : Pattern) (c0 c1 : cursor) (m : Match) :
  match_at p c0 = Some (m, c1) ->
  Matches (expr p) c0 (repeat None (ngroups p)) c1 (groups m).
Proof.
  unfold match_at. intros H.
  destruct (exec_sound _ _ _ _ _ _ H) as (c' & g' & Hm & [= <- <-]). exact Hm.
Qed.

(** In a sequence of expressions without groups that ends with the
    group of an amount and one more expression, the group is matched
    with the captures as they were at the start. *)
Lemma matches_seq_group (pre : list re) (group_expr post : re) :
  forallb plain pre = true ->
  forall c g c' g',
    Matches (Seq (pre ++ [group_expr; post])) c g c' g' ->
    exists c2 c3 g3, Matches group_expr c2 g c3 g3 /\ Matches post c3 g3 c' g'.
Proof.
  intros Hp. induction pre as [|a pre IH]; intros c g c' g'.
  - cbn [app Seq Matches]. intros (c1 & g1 & H1 & H2). eauto.
  - simpl in Hp. apply andb_prop in Hp as [Ha Hp].
    change (Seq ((a :: pre) ++ [group_expr; post]))
      with (Seq (a :: (pre ++ [group_expr; post]))).
    destruct (pre ++ [group_expr; post])%list as [|b l] eqn:E;
      [destruct pre; discriminate|].
    cbn [Seq Matches]. intros (c1 & g1 & H1 & H2).
    rewrite (plain_keeps _ Ha _ _ _ _ H1) in H2.
    apply (IH Hp _ _ _ _ H2).
Qed.

(** What [findall] gives for such a pattern are numbers written with a
    point. *)
Lemma findall1_decimal (p : Pattern) (pre : list re) (post : re) (line first : str)
    (others : list str) :
  expr p = Seq (pre ++ [decimal_group 1; post]) ->
  ngroups p = 1%nat ->
  forallb plain pre = true -> plain post = true ->
  findall1 p line = first :: others ->
  decimal_text first.
Proof.
  intros He Hn Hb Ha. unfold findall1, finditer.
  destruct (finditer_from _ p (start line)) as [|m ms] eqn:E; [discriminate|].
  intros [= <- _].
  destruct (finditer_from_matches p (S (List.length line)) (start line) m)
    as (c0 & c1 & Hm); [rewrite E; now left|].
  apply match_at_matches in Hm. rewrite He, Hn in Hm. simpl repeat in Hm.
  destruct (matches_seq_group _ _ _ Hb _ _ _ _ Hm) as (c2 & c3 & g3 & H2 & H3).
  pose proof (plain_keeps _ Ha _ _ _ _ H3) as Hg3.
  destruct (matches_decimal_group _ _ _ _ H2 ltac:(discriminate)) as (text & Ht & Hg).
  unfold group_text, group. rewrite Hg3.
  destruct g3 as [|[v|] g3]; try discriminate.
  injection Hg as ->. exact Ht.
Qed.

Lemma digits_value_digits (s : str) :
  Forall (fun c => is_digit c = true) s ->
  forall acc, exists v, Decimal.digits_value acc s = Some v.
Proof.
  induction 1 as [|c s Hc _ IH]; intros acc; simpl; [eauto|].
  unfold is_digit in Hc. destruct (Nd c); [apply IH|discriminate].
Qed.

Lemma partition_decimal (whole fraction : str) :
  Forall (fun c => is_digit c = true) whole ->
  Forall (fun c => is_digit c = true) fraction ->
  fraction <> [] ->
  exists a f, Decimal.partition_point (whole ++ 46 :: fraction) = (a, Some f)
              /\ Forall (fun c => is_digit c = true) (a ++ f)
              /\ (a ++ f)%list <> [].
Proof.
  intros Hw Hf Hn. induction Hw as [|x whole Hx Hw IH]; simpl.
  - exists [], fraction. auto.
  - destruct (Z.eqb_spec x 46) as [->|_].
    + exists [], (whole ++ 46 :: fraction)%list. repeat split.
      * simpl. apply Forall_app. split; [exact Hw|]. constructor; assumption.
      * simpl. destruct whole; discriminate.
    + destruct IH as (a & f & -> & H1 & H2).
      exists (x :: a), f. repeat split; [constructor; assumption|discriminate].
Qed.

(** A number written with a point converts. *)
Lemma of_str_decimal (text : str) :
  decimal_text text -> exists amount, Decimal.of_str text = Return amount.
Proof.
  intros (whole & fraction & -> & Hw & Hf & _ & Nf).
  destruct (partition_decimal whole fraction Hw Hf Nf) as (a & f & E & Hd & Hn).
  unfold Decimal.of_str. rewrite E.
  destruct (a ++ f)%list as [|x l] eqn:El; [contradiction|].
  destruct (digits_value_digits _ Hd 0) as [v ->]. eauto.
Qed.

(** The amounts of the lines always convert: [decimal.Decimal] does not
    raise on what the patterns of the totals capture. *)
Lemma amounts_convert (lines : list str) :
  (exists amounts,
      comprehension Decimal.of_str (captured DoorDashReceipt.regex_total lines)
      = Return amounts)
  /\ (exists amounts,
         comprehension Decimal.of_str (captured DeliverooReceipt.regex_total lines)
         = Return amounts)
  /\ (forall line first others,
         findall1 Bak.UberReceipt.re_currency_sign line = first :: others ->
         exists amount, Decimal.of_str first = Return amount)
  /\ (forall line first others,
         findall1 TakeoutCalc.UberReceipt.regex_total line = first :: others ->
         exists amount, Decimal.of_str first = Return amount).
Proof.
  assert (Hall : forall p : Pattern,
             (forall line first others, findall1 p line = first :: others ->
                                        decimal_text first) ->
             exists amounts,
               comprehension Decimal.of_str (captured p lines) = Return amounts).
  { intros p Hp. unfold captured. induction lines as [|line lines IH]; simpl; [eauto|].
    destruct (findall1 p line) as [|first others] eqn:E; simpl; [exact IH|].
    destruct (of_str_decimal first (Hp _ _ _ E)) as [amount ->].
    destruct IH as [amounts ->]. simpl. eauto. }
  repeat split.
  - apply Hall. intros line first others.
    apply (findall1_decimal _ [Bol false; Lit (py "Total Charged "); currency] WordBoundary);
      reflexivity.
  - apply Hall. intros line first others.
    apply (findall1_decimal _ [Bol false; Times s 2; Lit (py "Total"); Plus s; currency]
             Eol); reflexivity.
  - intros line first others H. apply of_str_decimal.
    revert H. apply (findall1_decimal _ [currency] WordBoundary); reflexivity.
  - intros line first others H. apply of_str_decimal.
    revert H. apply (findall1_decimal _ [currency] WordBoundary); reflexivity.
Qed.

End Sound.
End ReFacts.
(** ** Flattening *)

Lemma yield_each_app {A B} (f : A -> Result (list B)) (l1 l2 : list A) :
  yield_each f (l1 ++ l2) =
  (found <- yield_each f l1 ;; others <- yield_each f l2 ;; Return (found ++ others)%list).
Proof.
  induction l1 as [|a l1 IH]; simpl.
  - destruct (yield_each f l2); reflexivity.
  - rewrite IH. destruct (f a) as [xs|e]; simpl; [|reflexivity].
    destruct (yield_each f l1) as [ys|e]; simpl; [|reflexivity].
    destruct (yield_each f l2) as [zs|e]; simpl; [|reflexivity].
    now rewrite app_assoc.
Qed.

(** The parts are visited from left to right: what a payload yields is
    what its front yields followed by what its back yields. *)
Lemma get_email_messages_app (l1 l2 : list Obj) :
  _get_email_messages (l1 ++ l2) =
  (found <- _get_email_messages l1 ;;
   others <- _get_email_messages l2 ;;
   Return (found ++ others)%list).
Proof. apply yield_each_app. Qed.

(** A nested multipart message or list is gone into where it stands. *)
Lemma get_email_messages_nested (m : Message) (parts rest : list Obj) :
  _get_email_messages (Multipart m parts :: rest) = _get_email_messages (parts ++ rest)
  /\ _get_email_messages (Seq parts :: rest) = _get_email_messages (parts ++ rest).
Proof.
  split; rewrite get_email_messages_app; reflexivity.
Qed.

(** Induction on a value and, for a multipart message or a list, on its
    elements. *)
Lemma Obj_nested_ind (P : Obj -> Prop) :
  P PyNone ->
  (forall s, P (Str s)) ->
  (forall b, P (Bytes b)) ->
  (forall m, P (Msg m)) ->
  (forall m parts, Forall P parts -> P (Multipart m parts)) ->
  (forall items, Forall P items -> P (Seq items)) ->
  forall o, P o.
Proof.
  intros HN HS HB HM HP HL.
  fix IH 1. intros [| s | b | m | m parts | items].
  - exact HN.
  - apply HS.
  - apply HB.
  - apply HM.
  - apply HP. induction parts as [|o parts IHp]; constructor; [apply IH|exact IHp].
  - apply HL. induction items as [|o items IHi]; constructor; [apply IH|exact IHi].
Qed.

Lemma yield_each_depth_first (payload : list Obj) :
  Forall (fun o => all_messages o = true ->
                   get_email_messages_of o = Return (depth_first o)) payload ->
  forallb all_messages payload = true ->
  yield_each get_email_messages_of payload = Return (flat_map depth_first payload).
Proof.
  induction 1 as [|o payload Ho _ IH]; simpl; [reflexivity|].
  intros H. apply andb_prop in H. destruct H as [H1 H2].
  rewrite (Ho H1). simpl. rewrite (IH H2). reflexivity.
Qed.

Lemma get_email_messages_of_depth_first (o : Obj) :
  all_messages o = true -> get_email_messages_of o = Return (depth_first o).
Proof.
  induction o as [| s | b | m | m parts IH | items IH] using Obj_nested_ind; simpl;
    try discriminate.
  - reflexivity.
  - apply yield_each_depth_first. exact IH.
  - apply yield_each_depth_first. exact IH.
Qed.

(** C7. Flattening is depth first and from left to right: of a payload
    of messages, nested in multipart messages and in lists to any depth,
    it returns the leaves in the order [depth_first] lists them; what a
    payload yields is what its front yields followed by what its back
    yields, and a multipart message or a list is gone into where it
    stands. On a list of leaves, one that holds no multipart message and
    no list or tuple, it returns that list, in its order. *)
Theorem get_email_messages_flat :
  (forall payload, forallb all_messages payload = true ->
                   _get_email_messages payload = Return (flat_map depth_first payload))
  /\ (forall l1 l2,
        _get_email_messages (l1 ++ l2) =
        (found <- _get_email_messages l1 ;;
         others <- _get_email_messages l2 ;;
         Return (found ++ others)%list))
  /\ (forall m parts rest,
        _get_email_messages (Multipart m parts :: rest) = _get_email_messages (parts ++ rest)
        /\ _get_email_messages (Seq parts :: rest) = _get_email_messages (parts ++ rest))
  /\ (forall l, Forall (fun o => is_leaf o = true) l -> _get_email_messages l = Return l).
Proof.
  split; [|split; [|split]].
  - intros payload. apply yield_each_depth_first.
    apply Forall_forall. intros o _. apply get_email_messages_of_depth_first.
  - apply get_email_messages_app.
  - apply get_email_messages_nested.
  - induction 1 as [|o l Ho _ IH]; [reflexivity|].
    destruct o; try discriminate Ho.
    unfold _get_email_messages in *. simpl. rewrite IH. reflexivity.
Qed.

Lemma get_email_messages_flat_witness :
  _get_email_messages nested_parts
  = Return [Msg (plain_part (py "one")); Msg (html_part (py "two"));
            Msg (plain_part (py "three")); Msg (plain_part (py "four"))].
Proof.
  apply (proj1 get_email_messages_flat nested_parts). reflexivity.
Defined.

(** ** Rendering HTML and classifying a leaf *)




(** C6. The text of a leaf. For a message that is not multipart, with
    the content type [get_content_type()] gives and the encoding read
    from its header ("NA" without one): the payload as it is when the
    content type contains "text/plain" and the encoding does not contain
    "base64"; else what [get_html_text] makes of the decoded payload
    when the content type contains "text/html" and the encoding does not
    contain "base64"; else what [get_html_text] makes of the leaf when
    the content type is "NA"; else [None]. A leaf that is a bare string
    has content type and encoding "NA" and the text [get_html_text]
    makes of the string. *)
Theorem read_email_text_classification `{L : Library} :
  (forall m : Message,
     let content_type := get_content_type m in
     let encoding := encoding_or_NA m in
     (plain_text content_type encoding = true ->
      _read_email_text (Msg m) = Return (content_type, encoding, Str (get_payload m)))
     /\ (plain_text content_type encoding = false ->
         html_text content_type encoding = true ->
         _read_email_text (Msg m) =
         (text <- get_html_text (Bytes (get_payload_decoded m)) ;;
          Return (content_type, encoding, text)))
     /\ (plain_text content_type encoding = false ->
         html_text content_type encoding = false ->
         content_type = py "NA" ->
         _read_email_text (Msg m) =
         (text <- get_html_text (Msg m) ;; Return (content_type, encoding, text)))
     /\ (plain_text content_type encoding = false ->
         html_text content_type encoding = false ->
         content_type <> py "NA" ->
         _read_email_text (Msg m) = Return (content_type, encoding, PyNone)))
  /\ (forall s : str,
        _read_email_text (Str s) =
        (text <- get_html_text (Str s) ;; Return (py "NA", py "NA", text))).
Proof.
  split.
  - intros m content_type encoding.
    unfold _read_email_text, plain_text, html_text, encoding_or_NA in *.
    subst content_type encoding. cbn [is_str content_type_of encoding_of bind].
    repeat split.
    + intros ->. reflexivity.
    + intros -> ->. reflexivity.
    + intros -> -> E. rewrite E at 1. reflexivity.
    + intros -> -> E. unfold str_eqb.
      destruct (str_eq_dec (get_content_type m) (py "NA")) as [E'|_]; [contradiction|].
      reflexivity.
  - intros s. reflexivity.
Qed.

Lemma read_email_text_classification_witness :
  @_read_email_text text_only (Msg (plain_part (py "Total Charged $1.00")))
  = Return (py "text/plain", py "7bit", Str (py "Total Charged $1.00")).
Proof.
  apply (proj1 (proj1 (@read_email_text_classification text_only)
                  (plain_part (py "Total Charged $1.00")))).
  reflexivity.
Defined.

(** ** The constructors of DoorDashReceipt and DeliverooReceipt *)

Lemma for_each_app {A S} (body : S -> A -> Result S) (l1 l2 : list A) (s : S) :
  for_each body (l1 ++ l2) s = (s' <- for_each body l1 s ;; for_each body l2 s').
Proof.
  revert s. induction l1 as [|a l1 IH]; intros s; simpl; [reflexivity|].
  destruct (body s a) as [s'|e]; simpl; [apply IH|reflexivity].
Qed.

(** Case analysis on what a value is to the constructors. *)
Lemma starts_text_plain_cases (o : Obj) (b : bool) :
  starts_text_plain o = Some b ->
  exists m content_type,
    item o Content_Type = Return (Some content_type)
    /\ item o Content_Transfer_Encoding = Return (Content_Transfer_Encoding m)
    /\ as_string_of o = Return (as_string m)
    /\ Content_Type m = Some content_type
    /\ startswith content_type (py "text/plain") = b.
Proof.
  destruct o as [| | |m|m parts|]; simpl; try discriminate;
    destruct (Content_Type m) as [content_type|] eqn:E; try discriminate;
    intros [= <-]; exists m, content_type; rewrite ?E; auto.
Qed.

Module DoorDashFacts.
Import DoorDashReceipt.

Lemma doordash_init_message_other (self : t) (o : Obj) :
  not_text_plain o -> init_message self o = Return self.
Proof.
  intros H. destruct (starts_text_plain_cases _ _ H) as (m & ct & H1 & H2 & _ & _ & H4).
  unfold init_message. rewrite H1, H2. simpl. rewrite H4. reflexivity.
Qed.

Lemma doordash_init_others (l : list Obj) (self : t) :
  Forall not_text_plain l -> for_each init_message l self = Return self.
Proof.
  induction 1 as [|o l Ho _ IH]; simpl; [reflexivity|].
  rewrite doordash_init_message_other by assumption. apply IH.
Qed.

Lemma doordash_init_message_text_plain (self : t) (m : Message) (text : str) :
  text_plain (Msg m) -> body_text m = Return text ->
  init_message self (Msg m) = Return (set_body self (Msg m) text).
Proof.
  unfold text_plain, body_text, init_message. simpl.
  destruct (Content_Type m) as [ct|]; [|discriminate]. intros [= E]. simpl. rewrite E.
  destruct (Content_Transfer_Encoding m) as [enc|]; [|discriminate]. simpl.
  destruct (startswith enc (py "quoted-printable"));
    [intros -> | intros [= <-]]; reflexivity.
Qed.

Lemma doordash_init_message_readable (self : t) (o : Obj) :
  readable o = true -> exists self', init_message self o = Return self'.
Proof.
  unfold readable, body_text, init_message.
  destruct o as [| | |m|m parts|]; try discriminate; simpl;
    (destruct (Content_Type m) as [ct|]; [|discriminate]); simpl;
    (destruct (startswith ct (py "text/plain")); [|eauto]);
    (destruct (Content_Transfer_Encoding m) as [enc|]; [|discriminate]); simpl;
    (destruct (startswith enc (py "quoted-printable")); [|eauto]);
    (destruct (Codec.decode_quoted_printable (as_string m)); [|discriminate]);
    simpl; eauto.
Qed.

Lemma doordash_init_readable (l : list Obj) (self : t) :
  Forall (fun o => readable o = true) l ->
  exists self', for_each init_message l self = Return self'.
Proof.
  intros H. revert self. induction H as [|o l Ho _ IH]; intros self; simpl; [eauto|].
  destruct (doordash_init_message_readable self o Ho) as [s1 ->]. simpl. apply IH.
Qed.

(** The text of the body comes from a text/plain part. *)
Lemma doordash_init_body_from_text_plain (l : list Obj) (self r : t) :
  for_each init_message l self = Return r ->
  body_as_str r <> None ->
  body_as_str self <> None \/ Exists text_plain l.
Proof.
  revert self. induction l as [|o l IH]; intros self; simpl.
  - intros [= ->]. auto.
  - destruct (init_message self o) as [s1|e] eqn:E; simpl; [|discriminate].
    intros H1 H2. destruct (IH _ H1 H2) as [H|H]; [|right; now constructor 2].
    destruct (starts_text_plain o) as [[|]|] eqn:Es.
    + right. now constructor 1.
    + rewrite doordash_init_message_other in E by exact Es. injection E as <-. now left.
    + exfalso. unfold init_message in E.
      destruct o as [| | |m|m parts|]; simpl in *; try discriminate;
        destruct (Content_Type m); discriminate.
Qed.

End DoorDashFacts.

Module DeliverooFacts.
Import DeliverooReceipt.

Lemma deliveroo_init_message_other (self : t) (o : Obj) :
  not_text_plain o -> init_message self o = Return self.
Proof.
  intros H. destruct (starts_text_plain_cases _ _ H) as (m & ct & H1 & H2 & _ & _ & H4).
  unfold init_message. rewrite H1, H2. simpl. rewrite H4. reflexivity.
Qed.

Lemma deliveroo_init_others (l : list Obj) (self : t) :
  Forall not_text_plain l -> for_each init_message l self = Return self.
Proof.
  induction 1 as [|o l Ho _ IH]; simpl; [reflexivity|].
  rewrite deliveroo_init_message_other by assumption. apply IH.
Qed.

Lemma deliveroo_init_message_text_plain (self : t) (m : Message) (text : str) :
  text_plain (Msg m) -> body_text m = Return text ->
  init_message self (Msg m) = Return (with_separator (set_body self (Msg m) text) m text).
Proof.
  unfold text_plain, body_text, init_message, with_separator, quoted_printable. simpl.
  destruct (Content_Type m) as [ct|]; [|discriminate]. intros [= E]. simpl. rewrite E.
  destruct (Content_Transfer_Encoding m) as [enc|]; [|discriminate]. simpl.
  destruct (startswith enc (py "quoted-printable"));
    [intros -> | intros [= <-]]; simpl; [|reflexivity].
  destruct (isascii text); reflexivity.
Qed.

Lemma deliveroo_init_message_readable (self : t) (o : Obj) :
  readable o = true -> exists self', init_message self o = Return self'.
Proof.
  unfold readable, body_text, init_message.
  destruct o as [| | |m|m parts|]; try discriminate; simpl;
    (destruct (Content_Type m) as [ct|]; [|discriminate]); simpl;
    (destruct (startswith ct (py "text/plain")); [|eauto]);
    (destruct (Content_Transfer_Encoding m) as [enc|]; [|discriminate]); simpl;
    (destruct (startswith enc (py "quoted-printable")); [|eauto]);
    (destruct (Codec.decode_quoted_printable (as_string m)) as [text|]; [|discriminate]);
    simpl; destruct (isascii text); simpl; eauto.
Qed.

Lemma deliveroo_init_readable (l : list Obj) (self : t) :
  Forall (fun o => readable o = true) l ->
  exists self', for_each init_message l self = Return self'.
Proof.
  intros H. revert self. induction H as [|o l Ho _ IH]; intros self; simpl; [eauto|].
  destruct (deliveroo_init_message_readable self o Ho) as [s1 ->]. simpl. apply IH.
Qed.

Lemma deliveroo_init_body_from_text_plain (l : list Obj) (self r : t) :
  for_each init_message l self = Return r ->
  body_as_str r <> None ->
  body_as_str self <> None \/ Exists text_plain l.
Proof.
  revert self. induction l as [|o l IH]; intros self; simpl.
  - intros [= ->]. auto.
  - destruct (init_message self o) as [s1|e] eqn:E; simpl; [|discriminate].
    intros H1 H2. destruct (IH _ H1 H2) as [H|H]; [|right; now constructor 2].
    destruct (starts_text_plain o) as [[|]|] eqn:Es.
    + right. now constructor 1.
    + rewrite deliveroo_init_message_other in E by exact Es. injection E as <-. now left.
    + exfalso. unfold init_message in E.
      destruct o as [| | |m|m parts|]; simpl in *; try discriminate;
        destruct (Content_Type m); discriminate.
Qed.

End DeliverooFacts.

(** The constructors cannot ask a value that is no message, or a message
    without the header, for its content type. *)
Lemma init_message_header_error (o : Obj) :
  starts_text_plain o = None ->
  (forall self, DoorDashReceipt.init_message self o = Raise (header_error o))
  /\ (forall self, DeliverooReceipt.init_message self o = Raise (header_error o)).
Proof.
  unfold DoorDashReceipt.init_message, DeliverooReceipt.init_message.
  destruct o as [| s | b | m | m parts | items]; simpl;
    try (intros _; split; reflexivity);
    (destruct (Content_Type m); [discriminate|]); intros _; split; reflexivity.
Qed.

(** Without a text/plain part, either every part has a content type or
    there is a first one that has none to give. *)
Lemma first_without_content_type (messages : list Obj) :
  ~ Exists text_plain messages ->
  Forall not_text_plain messages
  \/ exists before o after,
       messages = (before ++ o :: after)%list
       /\ Forall not_text_plain before
       /\ starts_text_plain o = None.
Proof.
  induction messages as [|o messages IH]; intros H; [left; constructor|].
  destruct (starts_text_plain o) as [[|]|] eqn:E.
  - exfalso. apply H. constructor 1. exact E.
  - destruct IH as [IH|(before & o' & after & -> & Hb & Ho)].
    + intros H'. apply H. constructor 2. exact H'.
    + left. constructor; assumption.
    + right. exists (o :: before), o', after. repeat split; [|exact Ho].
      constructor; assumption.
  - right. exists [], o, messages. repeat split; [constructor|exact E].
Qed.

(** C9, as the code has it. DoorDashReceipt and DeliverooReceipt need a
    text/plain part, and without one no receipt with a total of 0 comes
    out. When every part has a content type and none starts with
    "text/plain", the constructor returns the object with its defaults,
    the text of the body still [None], and [parse] fails on it with the
    [AttributeError] of [None.split]. When a part before any text/plain
    one has no content type to give, the constructor itself fails
    there: with a [TypeError] on a value that is no message, such as the
    string that is the one leaf of a message that is not multipart, and
    with an [AttributeError] on a message without the header. Without a
    text/plain part one of the two is the case. And whenever the
    constructor and then [parse] return, some part was text/plain. *)
Theorem text_plain_part_required `{U : Unicode} (email : AbstractEmail.t) :
  let messages := AbstractEmail.multipart_messages email in
  (Forall not_text_plain messages ->
     (DoorDashReceipt.init email = Return (DoorDashReceipt.new messages)
      /\ DoorDashReceipt.body_as_str (DoorDashReceipt.new messages) = None
      /\ DoorDashReceipt.parse (DoorDashReceipt.new messages) = Raise AttributeError)
     /\ (DeliverooReceipt.init email = Return (DeliverooReceipt.new messages)
         /\ DeliverooReceipt.body_as_str (DeliverooReceipt.new messages) = None
         /\ DeliverooReceipt.parse (DeliverooReceipt.new messages) = Raise AttributeError))
  /\ (forall before o after,
        messages = (before ++ o :: after)%list ->
        Forall not_text_plain before ->
        starts_text_plain o = None ->
        DoorDashReceipt.init email = Raise (header_error o)
        /\ DeliverooReceipt.init email = Raise (header_error o))
  /\ (~ Exists text_plain messages ->
      Forall not_text_plain messages
      \/ exists before o after,
           messages = (before ++ o :: after)%list
           /\ Forall not_text_plain before
           /\ starts_text_plain o = None)
  /\ (forall r r', DoorDashReceipt.init email = Return r ->
        DoorDashReceipt.parse r = Return r' -> Exists text_plain messages)
  /\ (forall r r', DeliverooReceipt.init email = Return r ->
        DeliverooReceipt.parse r = Return r' -> Exists text_plain messages).
Proof.
  intros messages. split; [|split; [|split; [|split]]].
  - intros H. split.
    + split; [apply DoorDashFacts.doordash_init_others; exact H|]. split; reflexivity.
    + split; [apply DeliverooFacts.deliveroo_init_others; exact H|]. split; reflexivity.
  - intros before o after Hm Hb Ho.
    destruct (init_message_header_error o Ho) as [Hd Hr].
    unfold DoorDashReceipt.init, DeliverooReceipt.init. fold messages.
    rewrite Hm, !for_each_app.
    rewrite DoorDashFacts.doordash_init_others by exact Hb.
    rewrite DeliverooFacts.deliveroo_init_others by exact Hb.
    cbn [bind for_each]. rewrite Hd, Hr. split; reflexivity.
  - apply first_without_content_type.
  - intros r r' Hi Hp.
    destruct (DoorDashFacts.doordash_init_body_from_text_plain _ _ _ Hi) as [H|H]; auto.
    + unfold DoorDashReceipt.parse in Hp.
      destruct (DoorDashReceipt.body_as_str r); [discriminate|discriminate Hp].
    + now contradiction H.
  - intros r r' Hi Hp.
    destruct (DeliverooFacts.deliveroo_init_body_from_text_plain _ _ _ Hi) as [H|H]; auto.
    + unfold DeliverooReceipt.parse in Hp.
      destruct (DeliverooReceipt.body_as_str r); [discriminate|discriminate Hp].
    + now contradiction H.
Qed.

Lemma text_plain_part_required_witness :
  DoorDashReceipt.init html_only
  = Return (DoorDashReceipt.new (AbstractEmail.multipart_messages html_only))
  /\ @DoorDashReceipt.parse latin1
       (DoorDashReceipt.new (AbstractEmail.multipart_messages html_only))
     = Raise AttributeError.
Proof.
  assert (H : Forall not_text_plain (AbstractEmail.multipart_messages html_only))
    by (repeat constructor).
  destruct (proj1 (@text_plain_part_required latin1 html_only) H) as [(H1 & _ & H2) _].
  split; assumption.
Defined.

(** Against C9 as stated: a message that is not multipart is read into
    one leaf, its payload as a string, which is no text/plain part, and
    the constructors do not return on it with the text of the body
    [None]: they raise [TypeError]. On a part without a Content-Type
    header they raise [AttributeError]. *)
Lemma constructor_raises_counterexample :
  @AbstractEmail.init text_only single_part_message = Return single_part_email
  /\ ~ Exists text_plain (AbstractEmail.multipart_messages single_part_email)
  /\ DoorDashReceipt.init single_part_email = Raise TypeError
  /\ DeliverooReceipt.init single_part_email = Raise TypeError
  /\ ~ Exists text_plain (AbstractEmail.multipart_messages headerless_email)
  /\ DoorDashReceipt.init headerless_email = Raise AttributeError
  /\ DeliverooReceipt.init headerless_email = Raise AttributeError.
Proof.
  repeat split; try reflexivity;
    intros H; inversion H as [? ? H1|? ? H1]; subst;
      first [discriminate H1|inversion H1].
Qed.

(** C10. With several text/plain parts the body is the last one alone:
    once the parts before it have been read, the text/plain part after
    which no other comes gives the body and its text, and nothing of an
    earlier part is kept. *)
Theorem last_text_plain_part_is_body (email : AbstractEmail.t)
    (before after : list Obj) (m : Message) (text : str) :
  AbstractEmail.multipart_messages email = (before ++ Msg m :: after)%list ->
  Forall (fun o => readable o = true) before ->
  text_plain (Msg m) ->
  body_text m = Return text ->
  Forall not_text_plain after ->
  (exists r, DoorDashReceipt.init email = Return r
             /\ DoorDashReceipt.body r = Msg m
             /\ DoorDashReceipt.body_as_str r = Some text)
  /\ (exists r, DeliverooReceipt.init email = Return r
                /\ DeliverooReceipt.body r = Msg m
                /\ DeliverooReceipt.body_as_str r = Some text).
Proof.
  intros Hm Hb Hp Ht Ha. split.
  - unfold DoorDashReceipt.init. set (self := DoorDashReceipt.new _). rewrite Hm, for_each_app.
    destruct (DoorDashFacts.doordash_init_readable before self Hb) as [s1 ->].
    simpl. rewrite (DoorDashFacts.doordash_init_message_text_plain s1 m text Hp Ht). simpl.
    rewrite DoorDashFacts.doordash_init_others by exact Ha. eauto.
  - unfold DeliverooReceipt.init. set (self := DeliverooReceipt.new _). rewrite Hm, for_each_app.
    destruct (DeliverooFacts.deliveroo_init_readable before self Hb) as [s1 ->].
    simpl. rewrite (DeliverooFacts.deliveroo_init_message_text_plain s1 m text Hp Ht). simpl.
    rewrite DeliverooFacts.deliveroo_init_others by exact Ha.
    eexists. split; [reflexivity|].
    unfold with_separator.
    destruct (quoted_printable m && negb (isascii text)); split; reflexivity.
Qed.

Lemma last_text_plain_part_is_body_witness :
  exists r, DoorDashReceipt.init two_plain_parts = Return r
            /\ DoorDashReceipt.body r = Msg (plain_part (py "Total Charged $3.00"))
            /\ DoorDashReceipt.body_as_str r
               = Some (as_string (plain_part (py "Total Charged $3.00"))).
Proof.
  apply (proj1 (last_text_plain_part_is_body two_plain_parts
                  [Msg (plain_part (py "Total Charged $1.00"));
                   Msg (html_part (py "<p>Total Charged $2.00</p>"))]
                  [] (plain_part (py "Total Charged $3.00"))
                  (as_string (plain_part (py "Total Charged $3.00")))
                  eq_refl
                  ltac:(repeat constructor) eq_refl eq_refl ltac:(constructor))).
Defined.





(** ** The choice of the receipt class *)

(** C4, as the code has it. The class is chosen from the sender alone,
    by the first of "uber", "doordash" and "deliveroo" it contains. In
    [bak/parse.py] these select UberReceipt, DoorDashReceipt and
    DeliverooReceipt; in [takeout_calc/parse.py] "uber" and "deliveroo"
    select their classes and "doordash" selects none: the message is
    reported as not implemented and skipped. With none of the three, both
    report an unknown service and skip the message. A skipped message
    leaves the running total as it was. *)
Theorem select_by_sender `{U : Unicode} `{L : Library}
    (email_data : AbstractEmail.t) (sender : str) :
  AbstractEmail.sender email_data = Some sender ->
  let skipped_with (line : str) (step : Decimal.t -> nat -> Obj -> Py Decimal.t) :=
    forall (total : Decimal.t) (index : nat) (email_obj : Obj),
      AbstractEmail.init email_obj = Return email_data ->
      step total index email_obj = ([Line line], Return total) in
  ((contains sender (py "uber") = true ->
    Bak.select email_data =
    (r <~ lift (Bak.UberReceipt.init email_data) ;; ret (Some (Bak.Uber r))))
   /\ (contains sender (py "uber") = false ->
       contains sender (py "doordash") = true ->
       Bak.select email_data =
       (r <~ lift (DoorDashReceipt.init email_data) ;; ret (Some (Bak.DoorDash r))))
   /\ (contains sender (py "uber") = false ->
       contains sender (py "doordash") = false ->
       contains sender (py "deliveroo") = true ->
       Bak.select email_data =
       (r <~ lift (DeliverooReceipt.init email_data) ;; ret (Some (Bak.Deliveroo r))))
   /\ (contains sender (py "uber") = false ->
       contains sender (py "doordash") = false ->
       contains sender (py "deliveroo") = false ->
       Bak.select email_data = ([Line (py "Unknown delivery service found")], Return None)
       /\ forall n, skipped_with (py "Unknown delivery service found") (Bak.parse_message n)))
  /\ ((contains sender (py "uber") = true ->
       TakeoutCalc.select email_data =
       (r <~ lift (TakeoutCalc.UberReceipt.init email_data) ;;
        ret (Some (TakeoutCalc.Uber r))))
      /\ (contains sender (py "uber") = false ->
          contains sender (py "doordash") = true ->
          TakeoutCalc.select email_data
          = ([Line (py "DoorDash has not been implemented yet")], Return None)
          /\ forall n, skipped_with (py "DoorDash has not been implemented yet")
                         (TakeoutCalc.parse_message n))
      /\ (contains sender (py "uber") = false ->
          contains sender (py "doordash") = false ->
          contains sender (py "deliveroo") = true ->
          TakeoutCalc.select email_data =
          (r <~ lift (DeliverooReceipt.init email_data) ;;
           ret (Some (TakeoutCalc.Deliveroo r))))
      /\ (contains sender (py "uber") = false ->
          contains sender (py "doordash") = false ->
          contains sender (py "deliveroo") = false ->
          TakeoutCalc.select email_data
          = ([Line (py "Unknown delivery service found")], Return None)
          /\ forall n, skipped_with (py "Unknown delivery service found")
                         (TakeoutCalc.parse_message n))).
Proof.
  intros Hs skipped_with. subst skipped_with.
  unfold Bak.parse_message, TakeoutCalc.parse_message, Bak.select, TakeoutCalc.select.
  repeat split; intros;
    repeat match goal with
           | H : _ = _ |- _ => progress (rewrite H; cbn [attr_of lift pbind app])
           end;
    try reflexivity;
    match goal with
    | |- context [match ?init with Return _ => _ | Raise _ => _ end] =>
        destruct init; reflexivity
    end.
Qed.

Lemma select_by_sender_witness :
  @Bak.select latin1 text_only cafe_email =
  (r <~ lift (DoorDashReceipt.init cafe_email) ;; ret (Some (Bak.DoorDash r))).
Proof.
  apply (proj1 (proj2 (proj1 (@select_by_sender latin1 text_only cafe_email
                                doordash_sender eq_refl))));
    reflexivity.
Defined.

(** Against C4 as stated: in [takeout_calc/parse.py] a sender that
    contains "doordash" selects no class. A mailbox with one DoorDash
    receipt of 23.45 sums to 0 there, and to 23.45 in [bak/parse.py]. *)
Lemma takeout_calc_doordash_counterexample :
  TakeoutCalc.select cafe_email
  = ([Line (py "DoorDash has not been implemented yet")], Return None)
  /\ @TakeoutCalc.script latin1 text_only [doordash_message]
     = ([Line (py "DoorDash has not been implemented yet"); Sum Decimal.zero],
        Return Decimal.zero)
  /\ snd (@Bak.parse latin1 text_only [doordash_message] [])
     = Return [{| Decimal.coef := 2345; Decimal.exp := -2 |}].
Proof.
  repeat split; vm_compute; reflexivity.
Qed.

(** ** UberReceipt without an amount *)

Lemma for_enumerate_raise {A S} (body : S -> nat -> A -> Py S) (index : nat)
    (a : A) (l : list A) (s : S) (out : list Printed) (e : Exception) :
  body s index a = (out, Raise e) ->
  for_enumerate body index (a :: l) s = (out, Raise e).
Proof. intros H. simpl. rewrite H. reflexivity. Qed.

(** C2, on the code. When no table cell (in [takeout_calc/parse.py]: no
    place of the body) holds an amount, [parse_amount] prints its notice
    and then raises [IndexError] on the first element of the empty list;
    [parse] raises with it, and so does the loop over the mailbox, which
    reads no further message. *)
Theorem uber_no_amount_raises `{U : Unicode} `{L : Library} :
  (forall self : Bak.UberReceipt.t,
     Soup.find_all (Bak.UberReceipt.soup self) (py "td") Bak.UberReceipt.re_currency_sign = [] ->
     Bak.UberReceipt.parse_amount self = ([no_amount_notice], Raise IndexError)
     /\ Bak.UberReceipt.parse self = ([no_amount_notice], Raise IndexError)
     /\ forall email_obj email_data sender rest results,
          AbstractEmail.init email_obj = Return email_data ->
          AbstractEmail.sender email_data = Some sender ->
          contains sender (py "uber") = true ->
          Bak.UberReceipt.init email_data = Return self ->
          Bak.parse (email_obj :: rest) results = ([no_amount_notice], Raise IndexError))
  /\ (forall (self : TakeoutCalc.UberReceipt.t) (text : str),
        TakeoutCalc.UberReceipt.body self = Str text ->
        Re.findall1 TakeoutCalc.UberReceipt.regex_total text = [] ->
        TakeoutCalc.UberReceipt.parse_amount self = ([no_amount_notice], Raise IndexError)
        /\ TakeoutCalc.UberReceipt.parse self = ([no_amount_notice], Raise IndexError)
        /\ forall email_obj email_data sender rest,
             AbstractEmail.init email_obj = Return email_data ->
             AbstractEmail.sender email_data = Some sender ->
             contains sender (py "uber") = true ->
             TakeoutCalc.UberReceipt.init email_data = Return self ->
             TakeoutCalc.script (email_obj :: rest) = ([no_amount_notice], Raise IndexError)).
Proof.
  split.
  - intros self H.
    assert (Ha : Bak.UberReceipt.parse_amount self = ([no_amount_notice], Raise IndexError))
      by (unfold Bak.UberReceipt.parse_amount; rewrite H; reflexivity).
    assert (Hp : Bak.UberReceipt.parse self = ([no_amount_notice], Raise IndexError))
      by (unfold Bak.UberReceipt.parse; rewrite Ha; reflexivity).
    repeat split; [exact Ha|exact Hp|].
    intros email_obj email_data sender rest results Hi Hs Hc Hu.
    unfold Bak.parse.
    rewrite for_enumerate_raise with (out := [no_amount_notice]) (e := IndexError);
      [reflexivity|].
    unfold Bak.parse_message, Bak.select. rewrite Hi. cbn [lift pbind app].
    rewrite Hs. cbn [attr_of lift pbind app]. rewrite Hc, Hu.
    cbn [lift pbind app ret Bak.parse_receipt]. rewrite Hp. reflexivity.
  - intros self text Hb H.
    assert (Ha : TakeoutCalc.UberReceipt.parse_amount self
                 = ([no_amount_notice], Raise IndexError))
      by (unfold TakeoutCalc.UberReceipt.parse_amount; rewrite Hb;
          cbn [Bak.UberReceipt.string_of lift pbind app]; rewrite H; reflexivity).
    assert (Hp : TakeoutCalc.UberReceipt.parse self = ([no_amount_notice], Raise IndexError))
      by (unfold TakeoutCalc.UberReceipt.parse; rewrite Ha; reflexivity).
    repeat split; [exact Ha|exact Hp|].
    intros email_obj email_data sender rest Hi Hs Hc Hu.
    unfold TakeoutCalc.script.
    rewrite for_enumerate_raise with (out := [no_amount_notice]) (e := IndexError);
      [reflexivity|].
    unfold TakeoutCalc.parse_message, TakeoutCalc.select. rewrite Hi. cbn [lift pbind app].
    rewrite Hs. cbn [attr_of lift pbind app]. rewrite Hc, Hu.
    cbn [lift pbind app ret TakeoutCalc.parse_receipt]. rewrite Hp. reflexivity.
Qed.

(** The same on [uber_message]: a mailbox that starts with it is not
    summed, whatever follows. *)
Lemma uber_no_amount_raises_witness :
  @Bak.parse latin1 text_only [uber_message; doordash_message] []
  = ([no_amount_notice], Raise IndexError).
Proof.
  apply (proj2 (proj2 (proj1 (@uber_no_amount_raises latin1 text_only) uber_receipt
                         eq_refl))
           uber_message uber_email (py "Uber Receipts <uber.us@uber.com>")
           [doordash_message] []);
    reflexivity.
Defined.

(** ** Decimal arithmetic *)
Module DecimalFacts.
Import Decimal.

Lemma ndigits_from_le (fuel : nat) (c k : Z) :
  1 <= k -> c < 10 ^ k -> ndigits_from fuel c <= k.
Proof.
  revert c k.
  induction fuel as [|fuel IH]; intros c k Hk Hc; cbn [ndigits_from]; [exact Hk|].
  destruct (Z.ltb_spec c 10) as [_|H10]; [exact Hk|].
  assert (Hk2 : 2 <= k).
  { destruct (Z.eq_dec k 1) as [->|]; [|lia]. change (10 ^ 1) with 10 in Hc. lia. }
  assert (Hdiv : c / 10 < 10 ^ (k - 1)).
  { apply Z.div_lt_upper_bound; [lia|].
    replace (10 * 10 ^ (k - 1)) with (10 ^ k); [exact Hc|].
    replace k with (Z.succ (k - 1)) at 1 by lia. rewrite Z.pow_succ_r by lia. reflexivity. }
  specialize (IH (c / 10) (k - 1) ltac:(lia) Hdiv). lia.
Qed.

(** [ndigits] counts the decimal digits of a positive coefficient. *)
Lemma ndigits_from_spec (fuel : nat) (c : Z) :
  0 < c < 2 ^ (Z.of_nat fuel + 1) ->
  10 ^ (ndigits_from fuel c - 1) <= c < 10 ^ ndigits_from fuel c.
Proof.
  revert c. induction fuel as [|fuel IH]; intros c Hc; cbn [ndigits_from].
  - change (2 ^ (Z.of_nat 0 + 1)) with 2 in Hc. change (10 ^ (1 - 1)) with 1.
    change (10 ^ 1) with 10. lia.
  - destruct (Z.ltb_spec c 10) as [H10|H10].
    + change (10 ^ (1 - 1)) with 1. change (10 ^ 1) with 10. lia.
    + assert (Hpow : 2 ^ (Z.of_nat (S fuel) + 1) = 2 * 2 ^ (Z.of_nat fuel + 1)).
      { replace (Z.of_nat (S fuel) + 1) with (Z.succ (Z.of_nat fuel + 1)) by lia.
        apply Z.pow_succ_r. lia. }
      assert (Hq : 0 < c / 10 < 2 ^ (Z.of_nat fuel + 1)).
      { split; [apply Z.div_str_pos; lia|].
        apply Z.div_lt_upper_bound; lia. }
      specialize (IH _ Hq).
      set (n := ndigits_from fuel (c / 10)) in *.
      assert (Hn : 1 <= n).
      { destruct (Z.le_gt_cases 1 n) as [|Hlt]; [assumption|].
        exfalso. rewrite (Z.pow_neg_r 10 (n - 1)) in IH by lia.
        destruct (Z.le_gt_cases 0 n) as [H0|H0].
        - replace n with 0 in IH by lia. change (10 ^ 0) with 1 in IH. lia.
        - rewrite (Z.pow_neg_r 10 n) in IH by lia. lia. }
      replace (1 + n - 1) with (Z.succ (n - 1)) by lia.
      replace (1 + n) with (Z.succ n) by lia.
      rewrite !Z.pow_succ_r by lia.
      pose proof (Z.div_mod c 10 ltac:(lia)) as Hdm.
      pose proof (Z.mod_pos_bound c 10 ltac:(lia)) as Hm.
      lia.
Qed.

Lemma ndigits_spec (c : Z) :
  0 < c -> 10 ^ (ndigits c - 1) <= c < 10 ^ ndigits c.
Proof.
  intros Hc. apply ndigits_from_spec. split; [exact Hc|].
  rewrite Z2Nat.id by apply Z.log2_nonneg.
  replace (Z.log2 c + 1) with (Z.succ (Z.log2 c)) by lia.
  apply Z.log2_spec. exact Hc.
Qed.

(** A sum that fits is left as it is by the context. *)
Lemma fix_fits (x : t) : fits x -> fix_ x = Return x.
Proof.
  intros [[Hc0 Hc] [He1 He2]]. unfold fix_.
  destruct (Z.eqb_spec (coef x) 0) as [E|_].
  - destruct x as [c e]. simpl in *. subst c. f_equal. f_equal.
    unfold Etiny, Emin, Emax, prec in *. lia.
  - pose proof (ndigits_from_le (Z.to_nat (Z.log2 (coef x))) (coef x) prec
                  ltac:(unfold prec; lia) Hc) as Hn.
    fold (ndigits (coef x)) in Hn.
    clear Hc.
    assert (H1 : (ndigits (coef x) + exp x - prec >? Etop) = false)
      by (rewrite Z.gtb_ltb; apply Z.ltb_ge;
          unfold Etop, Emax, Etiny, Emin, prec in *; lia).
    rewrite H1.
    assert (H2 : (exp x <? Z.max (ndigits (coef x) + exp x - prec) Etiny) = false)
      by (apply Z.ltb_ge; unfold Etop, Emax, Etiny, Emin, prec in *; lia).
    rewrite H2. reflexivity.
Qed.

Lemma add_fits (a b : t) : fits (add_exact a b) -> add a b = Return (add_exact a b).
Proof. apply fix_fits. Qed.

Lemma ten_not_zero : ~ (inject_Z 10 == 0)%Q.
Proof. discriminate. Qed.

Lemma scaled_value (c e e' : Z) :
  e' <= e ->
  (inject_Z (c * 10 ^ (e - e')) * inject_Z 10 ^ e' == inject_Z c * inject_Z 10 ^ e)%Q.
Proof.
  intros H. rewrite inject_Z_mult, Zpower_Qpower by lia.
  rewrite <- Qmult_assoc, <- Qpower_plus by exact ten_not_zero.
  replace (e - e' + e') with e by lia. reflexivity.
Qed.

(** The exact sum stands for the sum of the two numbers. *)
Lemma value_add_exact (a b : t) :
  (value (add_exact a b) == value a + value b)%Q.
Proof.
  unfold value, add_exact. simpl.
  rewrite inject_Z_plus, Qmult_plus_distr_l, !scaled_value by lia. reflexivity.
Qed.

Lemma value_zero : (value zero == 0)%Q.
Proof. reflexivity. Qed.

(** Amounts whose running sums fit add up to their exact sum. *)
Lemma add_all_exact (amounts : list t) (total : t) :
  sums_fit total amounts ->
  exists sum, for_each add amounts total = Return sum
              /\ (value sum == value total + sum_values amounts)%Q.
Proof.
  revert total. induction amounts as [|a l IH]; intros total; simpl.
  - intros _. exists total. split; [reflexivity|]. now rewrite Qplus_0_r.
  - intros [Hf Hl]. rewrite (add_fits _ _ Hf). simpl.
    destruct (IH _ Hl) as (sum & H1 & H2). exists sum. split; [exact H1|].
    rewrite H2, value_add_exact, Qplus_assoc. reflexivity.
Qed.

Lemma ndigits_small (c : Z) : c < 10 -> ndigits c = 1.
Proof.
  intros H. unfold ndigits. destruct (Z.to_nat (Z.log2 c)); cbn [ndigits_from];
    [reflexivity|].
  destruct (Z.ltb_spec c 10); [reflexivity|lia].
Qed.

Lemma ndigits_le (c k : Z) : 1 <= k -> c < 10 ^ k -> ndigits c <= k.
Proof. apply ndigits_from_le. Qed.

(** [round_half_even] gives the nearest number of units, the even one
    of two that are as near. *)
Lemma round_half_even_nearest (c k : Z) :
  0 <= c -> 0 <= k -> nearest_half_even c k (round_half_even c k).
Proof.
  intros Hc Hk. unfold nearest_half_even, round_half_even.
  assert (Hp : 0 < 10 ^ k) by (apply Z.pow_pos_nonneg; lia).
  set (p := 10 ^ k) in *.
  pose proof (Z.div_mod c p ltac:(lia)) as Hdm.
  pose proof (Z.mod_pos_bound c p Hp) as Hm.
  set (q := c / p) in *. set (r := c mod p) in *.
  destruct (Z.gtb_spec (2 * r) p) as [Hgt|Hle]; cbn [orb].
  - replace (c - (q + 1) * p) with (- (p - r)) by lia.
    rewrite Z.abs_opp, Z.abs_eq by lia. split; lia.
  - destruct (Z.eqb_spec (2 * r) p) as [Heq|Hne]; cbn [andb].
    + destruct (Z.odd q) eqn:Eo.
      * replace (c - (q + 1) * p) with (- (p - r)) by lia.
        rewrite Z.abs_opp, Z.abs_eq by lia. split; [lia|]. intros _.
        replace (q + 1) with (Z.succ q) by lia. rewrite Z.even_succ. exact Eo.
      * replace (c - q * p) with r by lia. rewrite Z.abs_eq by lia.
        split; [lia|]. intros _. rewrite <- Z.negb_odd, Eo. reflexivity.
    + replace (c - q * p) with r by lia. rewrite Z.abs_eq by lia. split; lia.
Qed.

Lemma round_half_even_bounds (c k : Z) :
  c / 10 ^ k <= round_half_even c k <= c / 10 ^ k + 1.
Proof.
  unfold round_half_even.
  destruct ((2 * (c mod 10 ^ k) >? 10 ^ k)
            || ((2 * (c mod 10 ^ k) =? 10 ^ k) && Z.odd (c / 10 ^ k))); lia.
Qed.


(** A coefficient of more than 28 digits is rounded to 28, half to
    even, when the exponent stays in the range of the context. *)
Lemma fix_rounded (x : t) :
  prec < ndigits (coef x) ->
  Etiny <= exp x ->
  ndigits (coef x) + exp x <= Emax ->
  exists r, fix_ x = Return r /\ rounded_to_context x r.
Proof.
  intros Hn He Hmax.
  assert (Hc : 10 <= coef x).
  { destruct (Z.lt_ge_cases (coef x) 10) as [H|H]; [|exact H].
    rewrite (ndigits_small _ H) in Hn. unfold prec in Hn. lia. }
  pose proof (ndigits_spec (coef x) ltac:(lia)) as Hs.
  set (c := coef x) in *. set (e := exp x) in *. set (nd := ndigits c) in *.
  set (k := nd - prec).
  assert (Hk : 0 < k) by (unfold k; lia).
  assert (Hpk : 0 < 10 ^ k) by (apply Z.pow_pos_nonneg; lia).
  assert (Hsplit1 : 10 ^ nd = 10 ^ k * 10 ^ prec).
  { rewrite <- Z.pow_add_r by (unfold prec; lia). f_equal. unfold k. lia. }
  assert (Hsplit2 : 10 ^ (nd - 1) = 10 ^ k * 10 ^ (prec - 1)).
  { rewrite <- Z.pow_add_r by (unfold prec; lia). f_equal. unfold k. lia. }
  assert (Hq1 : 10 ^ (prec - 1) <= c / 10 ^ k).
  { apply Z.div_le_lower_bound; [exact Hpk|]. rewrite <- Hsplit2. apply Hs. }
  assert (Hq2 : c / 10 ^ k < 10 ^ prec).
  { apply Z.div_lt_upper_bound; [exact Hpk|]. rewrite <- Hsplit1. apply Hs. }
  pose proof (round_half_even_bounds c k) as Hb.
  pose proof (round_half_even_nearest c k ltac:(lia) ltac:(lia)) as Hnear.
  set (q := round_half_even c k) in *.
  unfold fix_. fold c e nd.
  destruct (Z.eqb_spec c 0) as [H0|_]; [lia|].
  assert (H1 : (nd + e - prec >? Etop) = false)
    by (rewrite Z.gtb_ltb; apply Z.ltb_ge; unfold Etop, Emax, prec in *; lia).
  rewrite H1.
  assert (H2 : Z.max (nd + e - prec) Etiny = e + k) by (unfold k; lia).
  rewrite H2.
  assert (H3 : (e <? e + k) = true) by (apply Z.ltb_lt; lia).
  rewrite H3.
  assert (H4 : (nd + e - (e + k) <? 0) = false)
    by (apply Z.ltb_ge; unfold k, prec; lia).
  rewrite H4.
  replace (e + k - e) with k by lia. fold q.
  destruct (Z.gtb_spec (ndigits q) prec) as [Hcarry|Hfit].
  - assert (Hq : q = 10 ^ prec).
    { destruct (Z.lt_ge_cases q (10 ^ prec)) as [Hlt|Hge]; [|lia].
      pose proof (ndigits_le q prec ltac:(unfold prec; lia) Hlt). lia. }
    assert (H5 : (e + k + 1 >? Etop) = false)
      by (rewrite Z.gtb_ltb; apply Z.ltb_ge; unfold k, Etop, Emax, prec in *; lia).
    rewrite H5. eexists. split; [reflexivity|].
    unfold rounded_to_context. fold c e nd k. exists q. split; [exact Hnear|].
    cbn [coef exp]. rewrite Hq. split.
    + unfold value. cbn [coef exp].
      rewrite <- (scaled_value (10 ^ prec / 10) (e + k + 1) (e + k)) by lia.
      replace (e + k + 1 - (e + k)) with 1 by lia. reflexivity.
    + unfold prec. split; reflexivity.
  - assert (H5 : (e + k >? Etop) = false)
      by (rewrite Z.gtb_ltb; apply Z.ltb_ge; unfold k, Etop, Emax, prec in *; lia).
    rewrite H5. eexists. split; [reflexivity|].
    unfold rounded_to_context. fold c e nd k. exists q. split; [exact Hnear|].
    cbn [coef exp]. split; [reflexivity|].
    assert (Hqpos : 0 < q).
    { assert (0 < 10 ^ (prec - 1)) by (apply Z.pow_pos_nonneg; unfold prec; lia). lia. }
    split; [exact Hqpos|].
    pose proof (ndigits_spec q Hqpos) as Hsq.
    assert (10 ^ ndigits q <= 10 ^ prec) by (apply Z.pow_le_mono_r; lia).
    lia.
Qed.

End DecimalFacts.

(** The total of the lines is the amounts of the matching lines, added
    in turn. *)
Lemma total_of_lines_amounts `{U : Unicode} (pattern : Re.Pattern) (lines : list str)
    (amounts : list Decimal.t) (total : Decimal.t) :
  comprehension Decimal.of_str (captured pattern lines) = Return amounts ->
  total_of_lines pattern lines total = for_each Decimal.add amounts total.
Proof.
  unfold total_of_lines, captured.
  revert amounts total. induction lines as [|line lines IH]; intros amounts total; simpl.
  - intros [= <-]. reflexivity.
  - unfold add_amount at 1.
    destruct (Re.findall1 pattern line) as [|first others]; simpl.
    + apply IH.
    + destruct (Decimal.of_str first) as [amount|e]; simpl; [|discriminate].
      destruct (comprehension Decimal.of_str _) as [rest|e] eqn:E; simpl; [|discriminate].
      intros [= <-]. simpl.
      destruct (Decimal.add total amount) as [total'|e]; simpl; [|reflexivity].
      apply IH. reflexivity.
Qed.

(** ** The loops of [parse] *)

Module DoorDashLines.
Import DoorDashReceipt.
Section Lines.
Context `{U : Unicode}.

Lemma doordash_set_cost_total_same (self : t) : set_cost_total self (cost_total self) = self.
Proof. destruct self; reflexivity. Qed.

Lemma doordash_parse_order_id_set_cost_total (self : t) (total : Decimal.t) (line : str) :
  parse_order_id (set_cost_total self total) line
  = set_cost_total (parse_order_id self line) total.
Proof.
  unfold parse_order_id. destruct (Re.findall2 regex_order_id line) as [|[u i] ?]; reflexivity.
Qed.

Lemma doordash_fold_set_cost_total (lines : list str) (self : t) (total : Decimal.t) :
  fold_left parse_order_id lines (set_cost_total self total)
  = set_cost_total (fold_left parse_order_id lines self) total.
Proof.
  revert self. induction lines as [|line lines IH]; intros self; simpl; [reflexivity|].
  rewrite doordash_parse_order_id_set_cost_total. apply IH.
Qed.

Lemma doordash_parse_amount_total (self : t) (line : str) :
  parse_amount self line
  = (total <- add_amount regex_total (cost_total self) line ;;
     Return (set_cost_total self total)).
Proof.
  unfold parse_amount, add_amount.
  destruct (Re.findall1 regex_total line) as [|first others]; simpl.
  - now rewrite doordash_set_cost_total_same.
  - destruct (Decimal.of_str first) as [amount|e]; simpl; [|reflexivity].
    destruct (Decimal.add (cost_total self) amount); reflexivity.
Qed.

(** The loop keeps the two concerns apart: the total is the total of
    the lines, the order is what [parse_order_id] leaves after them. *)
Lemma doordash_parse_lines (lines : list str) (self : t) :
  for_each parse_line lines self
  = (total <- total_of_lines regex_total lines (cost_total self) ;;
     Return (set_cost_total (fold_left parse_order_id lines self) total)).
Proof.
  unfold total_of_lines.
  revert self. induction lines as [|line lines IH]; intros self; simpl.
  - now rewrite doordash_set_cost_total_same.
  - unfold parse_line at 1. rewrite doordash_parse_amount_total.
    destruct (add_amount regex_total (cost_total self) line) as [total|e]; simpl;
      [|reflexivity].
    rewrite IH, doordash_parse_order_id_set_cost_total, doordash_fold_set_cost_total. simpl.
    destruct (for_each (add_amount regex_total) lines total); reflexivity.
Qed.

Lemma doordash_fold_no_order (lines : list str) (self : t) :
  Forall (fun line => Re.findall2 regex_order_id line = []) lines ->
  fold_left parse_order_id lines self = self.
Proof.
  intros H. revert self. induction H as [|line lines Hl _ IH]; intros self; simpl;
    [reflexivity|].
  unfold parse_order_id at 2. rewrite Hl. apply IH.
Qed.

End Lines.
End DoorDashLines.

Module DeliverooLines.
Import DeliverooReceipt.
Section Lines.
Context `{U : Unicode}.

Lemma deliveroo_set_cost_total_same (self : t) : set_cost_total self (cost_total self) = self.
Proof. destruct self; reflexivity. Qed.

Lemma deliveroo_parse_names_set_cost_total (self : t) (total : Decimal.t) (line : str) :
  parse_names (set_cost_total self total) line
  = set_cost_total (parse_names self line) total.
Proof.
  unfold parse_names, parse_order_id, parse_restaurant.
  destruct (Re.findall2 regex_restaurant_name line) as [|[name ?] ?];
    destruct (Re.findall1 regex_order_id line); reflexivity.
Qed.

Lemma deliveroo_fold_set_cost_total (lines : list str) (self : t) (total : Decimal.t) :
  fold_left parse_names lines (set_cost_total self total)
  = set_cost_total (fold_left parse_names lines self) total.
Proof.
  revert self. induction lines as [|line lines IH]; intros self; simpl; [reflexivity|].
  rewrite deliveroo_parse_names_set_cost_total. apply IH.
Qed.

Lemma deliveroo_parse_amount_total (self : t) (line : str) :
  parse_amount self line
  = (total <- add_amount regex_total (cost_total self) line ;;
     Return (set_cost_total self total)).
Proof.
  unfold parse_amount, add_amount.
  destruct (Re.findall1 regex_total line) as [|first others]; simpl.
  - now rewrite deliveroo_set_cost_total_same.
  - destruct (Decimal.of_str first) as [amount|e]; simpl; [|reflexivity].
    destruct (Decimal.add (cost_total self) amount); reflexivity.
Qed.

Lemma deliveroo_parse_lines (lines : list str) (self : t) :
  for_each parse_line lines self
  = (total <- total_of_lines regex_total lines (cost_total self) ;;
     Return (set_cost_total (fold_left parse_names lines self) total)).
Proof.
  unfold total_of_lines.
  revert self. induction lines as [|line lines IH]; intros self; simpl.
  - now rewrite deliveroo_set_cost_total_same.
  - unfold parse_line at 1. rewrite deliveroo_parse_amount_total.
    destruct (add_amount regex_total (cost_total self) line) as [total|e]; simpl;
      [|reflexivity].
    fold (parse_names (set_cost_total self total) line).
    rewrite IH, deliveroo_parse_names_set_cost_total, deliveroo_fold_set_cost_total. simpl.
    destruct (for_each (add_amount regex_total) lines total); reflexivity.
Qed.

Lemma deliveroo_order_id_parse_names (self : t) (line : str) :
  order_id (parse_names self line)
  = match Re.findall1 regex_order_id line with
    | first :: _ => first
    | [] => order_id self
    end.
Proof.
  unfold parse_names, parse_order_id, parse_restaurant.
  destruct (Re.findall2 regex_restaurant_name line) as [|[name ?] ?];
    destruct (Re.findall1 regex_order_id line); reflexivity.
Qed.

Lemma deliveroo_fold_no_order (lines : list str) (self : t) :
  Forall (fun line => Re.findall1 regex_order_id line = []) lines ->
  order_id (fold_left parse_names lines self) = order_id self.
Proof.
  intros H. revert self. induction H as [|line lines Hl _ IH]; intros self; simpl;
    [reflexivity|].
  rewrite IH, deliveroo_order_id_parse_names, Hl. reflexivity.
Qed.

End Lines.
End DeliverooLines.

(** ** The order id *)

(** C1, as the code has it. After [parse] the order id (and, for
    DoorDash, the url) is the one captured from the last line that
    matches the pattern of the order id, by the first match in that line:
    every matching line assigns it anew. [parse] returns whenever the
    amounts of the lines add up in the decimal context. *)
Theorem order_id_last_match `{U : Unicode} :
  (forall (self : DoorDashReceipt.t) (body : str) (before after : list str)
          (line first_url first_id : str) (others : list (str * str))
          (total : Decimal.t),
     DoorDashReceipt.body_as_str self = Some body ->
     split body (DoorDashReceipt.line_seperator self) = (before ++ line :: after)%list ->
     Re.findall2 DoorDashReceipt.regex_order_id line = (first_url, first_id) :: others ->
     Forall (fun l => Re.findall2 DoorDashReceipt.regex_order_id l = []) after ->
     total_of_lines DoorDashReceipt.regex_total
       (split body (DoorDashReceipt.line_seperator self))
       (DoorDashReceipt.cost_total self) = Return total ->
     exists r, DoorDashReceipt.parse self = Return r
               /\ DoorDashReceipt.order_id r = first_id
               /\ DoorDashReceipt.url r = first_url)
  /\ (forall (self : DeliverooReceipt.t) (body : str) (before after : list str)
             (line first_id : str) (others : list str) (total : Decimal.t),
        DeliverooReceipt.body_as_str self = Some body ->
        split body (DeliverooReceipt.line_seperator self) = (before ++ line :: after)%list ->
        Re.findall1 DeliverooReceipt.regex_order_id line = first_id :: others ->
        Forall (fun l => Re.findall1 DeliverooReceipt.regex_order_id l = []) after ->
        total_of_lines DeliverooReceipt.regex_total
          (split body (DeliverooReceipt.line_seperator self))
          (DeliverooReceipt.cost_total self) = Return total ->
        exists r, DeliverooReceipt.parse self = Return r
                  /\ DeliverooReceipt.order_id r = first_id).
Proof.
  split.
  - intros self body before after line first_url first_id others total Hb Hs Hm Ha Ht.
    unfold DoorDashReceipt.parse. rewrite Hb. cbn [attr_of bind].
    rewrite DoorDashLines.doordash_parse_lines, Ht. cbn [bind].
    eexists. split; [reflexivity|].
    rewrite Hs, fold_left_app. cbn [fold_left].
    rewrite DoorDashLines.doordash_fold_no_order by exact Ha.
    unfold DoorDashReceipt.parse_order_id. rewrite Hm. split; reflexivity.
  - intros self body before after line first_id others total Hb Hs Hm Ha Ht.
    unfold DeliverooReceipt.parse. rewrite Hb. cbn [attr_of bind].
    rewrite DeliverooLines.deliveroo_parse_lines, Ht. cbn [bind].
    eexists. split; [reflexivity|].
    rewrite Hs, fold_left_app. cbn [fold_left DeliverooReceipt.order_id
                                    DeliverooReceipt.set_cost_total].
    rewrite DeliverooLines.deliveroo_fold_no_order by exact Ha.
    rewrite DeliverooLines.deliveroo_order_id_parse_names, Hm. reflexivity.
Qed.

Lemma order_id_last_match_witness :
  exists r, @DoorDashReceipt.parse latin1 (doordash_of two_orders_doordash) = Return r
            /\ DoorDashReceipt.order_id r = py "aaaaaaaa-bbbb-cccc-dddd-eeeeeeeeeeee"
            /\ DoorDashReceipt.url r
               = py "https://www.doordash.com/orders/aaaaaaaa-bbbb-cccc-dddd-eeeeeeeeeeee".
Proof.
  apply (proj1 (@order_id_last_match latin1) (doordash_of two_orders_doordash)
           (as_string (plain_part two_orders_doordash))
           (header_lines ++ [first_order_line]) [[]] second_order_line
           _ _ [] Decimal.zero);
    try (vm_compute; reflexivity).
  repeat constructor.
Defined.

(** Against C1 as stated: of two lines that name an order, the first in
    the document is 11111111-2222-3333-4444-555555555555 (for
    Deliveroo 1111), and the order id after [parse] is that of the
    second. *)
Lemma order_id_first_match_counterexample :
  List.map (@Re.findall2 latin1 (@DoorDashReceipt.regex_order_id latin1))
    (split two_orders_doordash LF)
  = [[(py "https://www.doordash.com/orders/11111111-2222-3333-4444-555555555555",
       py "11111111-2222-3333-4444-555555555555")];
     [(py "https://www.doordash.com/orders/aaaaaaaa-bbbb-cccc-dddd-eeeeeeeeeeee",
       py "aaaaaaaa-bbbb-cccc-dddd-eeeeeeeeeeee")];
     []]
  /\ fmap DoorDashReceipt.order_id
       (r <- DoorDashReceipt.init
               (plain_email doordash_sender two_orders_doordash) ;;
        @DoorDashReceipt.parse latin1 r)
     = Return (py "aaaaaaaa-bbbb-cccc-dddd-eeeeeeeeeeee")
  /\ py "aaaaaaaa-bbbb-cccc-dddd-eeeeeeeeeeee" <> py "11111111-2222-3333-4444-555555555555"
  /\ List.map (@Re.findall1 latin1 (@DeliverooReceipt.regex_order_id latin1))
       (split two_orders_deliveroo LF)
     = [[py "1111"]; [py "2222"]; []]
  /\ fmap DeliverooReceipt.order_id
       (r <- DeliverooReceipt.init
               (plain_email deliveroo_sender two_orders_deliveroo) ;;
        @DeliverooReceipt.parse latin1 r)
     = Return (py "2222")
  /\ py "2222" <> py "1111".
Proof.
  repeat split; try (vm_compute; reflexivity); discriminate.
Qed.

(** ** The total *)

(** C3, as the code has it. The lines that match the amount rule always
    convert to decimal amounts [a1 .. aN], and the total after [parse]
    is what adding them in turn to 0 gives in the decimal context: no
    amount overwrites another. The total is their exact sum whenever
    every running sum fits the context, that is has at most 28 digits
    and an exponent the context leaves alone. A running sum of more than
    28 digits, with an exponent in the range of the context, is brought
    to 28 significant digits by rounding to the nearest, ties to
    even. *)
Theorem amount_total_exact_sum `{U : Unicode} :
  (forall (self : DoorDashReceipt.t) (body : str),
     DoorDashReceipt.body_as_str self = Some body ->
     DoorDashReceipt.cost_total self = Decimal.zero ->
     exists amounts,
       comprehension Decimal.of_str
         (captured DoorDashReceipt.regex_total
            (split body (DoorDashReceipt.line_seperator self))) = Return amounts
       /\ fmap DoorDashReceipt.cost_total (DoorDashReceipt.parse self)
          = for_each Decimal.add amounts Decimal.zero
       /\ (sums_fit Decimal.zero amounts ->
           exists r, DoorDashReceipt.parse self = Return r
                     /\ (Decimal.value (DoorDashReceipt.cost_total r)
                         == sum_values amounts)%Q))
  /\ (forall (self : DeliverooReceipt.t) (body : str),
        DeliverooReceipt.body_as_str self = Some body ->
        DeliverooReceipt.cost_total self = Decimal.zero ->
        exists amounts,
          comprehension Decimal.of_str
            (captured DeliverooReceipt.regex_total
               (split body (DeliverooReceipt.line_seperator self))) = Return amounts
          /\ fmap DeliverooReceipt.cost_total (DeliverooReceipt.parse self)
             = for_each Decimal.add amounts Decimal.zero
          /\ (sums_fit Decimal.zero amounts ->
              exists r, DeliverooReceipt.parse self = Return r
                        /\ (Decimal.value (DeliverooReceipt.cost_total r)
                            == sum_values amounts)%Q))
  /\ (forall total amount : Decimal.t,
        let sum := Decimal.add_exact total amount in
        Decimal.prec < Decimal.ndigits (Decimal.coef sum) ->
        Decimal.Etiny <= Decimal.exp sum ->
        Decimal.ndigits (Decimal.coef sum) + Decimal.exp sum <= Decimal.Emax ->
        exists r, Decimal.add total amount = Return r /\ rounded_to_context sum r).
Proof.
  split; [|split].
  - intros self body Hb H0.
    destruct (proj1 (ReFacts.amounts_convert
                       (split body (DoorDashReceipt.line_seperator self))))
      as [amounts Hc].
    exists amounts. split; [exact Hc|].
    assert (Hp : DoorDashReceipt.parse self
                 = (total <- for_each Decimal.add amounts Decimal.zero ;;
                    Return (DoorDashReceipt.set_cost_total
                              (fold_left DoorDashReceipt.parse_order_id
                                 (split body (DoorDashReceipt.line_seperator self)) self)
                              total))).
    { unfold DoorDashReceipt.parse. rewrite Hb. cbn [attr_of bind].
      rewrite DoorDashLines.doordash_parse_lines, H0, (total_of_lines_amounts _ _ _ _ Hc).
      reflexivity. }
    split.
    + rewrite Hp. destruct (for_each Decimal.add amounts Decimal.zero); reflexivity.
    + intros Hf.
      destruct (DecimalFacts.add_all_exact amounts Decimal.zero Hf) as (sum & Hs & Hv).
      rewrite Hp, Hs. cbn [bind]. eexists. split; [reflexivity|].
      cbn [DoorDashReceipt.cost_total DoorDashReceipt.set_cost_total].
      rewrite Hv, DecimalFacts.value_zero, Qplus_0_l. reflexivity.
  - intros self body Hb H0.
    destruct (proj1 (proj2 (ReFacts.amounts_convert
                              (split body (DeliverooReceipt.line_seperator self)))))
      as [amounts Hc].
    exists amounts. split; [exact Hc|].
    assert (Hp : DeliverooReceipt.parse self
                 = (total <- for_each Decimal.add amounts Decimal.zero ;;
                    Return (DeliverooReceipt.set_cost_total
                              (fold_left parse_names
                                 (split body (DeliverooReceipt.line_seperator self)) self)
                              total))).
    { unfold DeliverooReceipt.parse. rewrite Hb. cbn [attr_of bind].
      rewrite DeliverooLines.deliveroo_parse_lines, H0,
        (total_of_lines_amounts _ _ _ _ Hc).
      reflexivity. }
    split.
    + rewrite Hp. destruct (for_each Decimal.add amounts Decimal.zero); reflexivity.
    + intros Hf.
      destruct (DecimalFacts.add_all_exact amounts Decimal.zero Hf) as (sum & Hs & Hv).
      rewrite Hp, Hs. cbn [bind]. eexists. split; [reflexivity|].
      cbn [DeliverooReceipt.cost_total DeliverooReceipt.set_cost_total].
      rewrite Hv, DecimalFacts.value_zero, Qplus_0_l. reflexivity.
  - intros total amount sum. apply DecimalFacts.fix_rounded.
Qed.

Lemma amount_total_exact_sum_witness :
  (exists r, @DoorDashReceipt.parse latin1 (doordash_of two_amounts_doordash) = Return r
             /\ (Decimal.value (DoorDashReceipt.cost_total r)
                 == sum_values [{| Decimal.coef := 1250; Decimal.exp := -2 |};
                                {| Decimal.coef := 100; Decimal.exp := -2 |}])%Q)
  /\ (exists r,
        Decimal.add {| Decimal.coef := 9999999999999999999999999999; Decimal.exp := -1 |}
                    {| Decimal.coef := 5; Decimal.exp := -2 |} = Return r
        /\ rounded_to_context
             {| Decimal.coef := 99999999999999999999999999995; Decimal.exp := -2 |} r).
Proof.
  split.
  - destruct (proj1 (@amount_total_exact_sum latin1) (doordash_of two_amounts_doordash)
                (as_string (plain_part two_amounts_doordash)) eq_refl eq_refl)
      as (amounts & Hc & _ & H).
    vm_compute in Hc. injection Hc as <-.
    apply H. repeat split; vm_compute; easy.
  - apply (proj2 (proj2 (@amount_total_exact_sum latin1))
             {| Decimal.coef := 9999999999999999999999999999; Decimal.exp := -1 |}
             {| Decimal.coef := 5; Decimal.exp := -2 |});
      vm_compute; easy.
Defined.

(** Against C3 as stated: the amounts 999999999999999999999999999.9 and
    0.05 are read exactly, and the total after [parse] is
    1000000000000000000000000000, which is not their sum. *)
Lemma amount_total_rounded_counterexample :
  let a1 := {| Decimal.coef := 9999999999999999999999999999; Decimal.exp := -1 |} in
  let a2 := {| Decimal.coef := 5; Decimal.exp := -2 |} in
  let rounded := {| Decimal.coef := 1000000000000000000000000000; Decimal.exp := 0 |} in
  comprehension (@Decimal.of_str latin1)
    (@captured latin1 (@DoorDashReceipt.regex_total latin1) (split long_amounts_doordash LF))
  = Return [a1; a2]
  /\ fmap DoorDashReceipt.cost_total
       (r <- DoorDashReceipt.init
               (plain_email doordash_sender long_amounts_doordash) ;;
        @DoorDashReceipt.parse latin1 r)
     = Return rounded
  /\ comprehension (@Decimal.of_str latin1)
       (@captured latin1 (@DeliverooReceipt.regex_total latin1) (split long_amounts_deliveroo LF))
     = Return [a1; a2]
  /\ fmap DeliverooReceipt.cost_total
       (r <- DeliverooReceipt.init
               (plain_email deliveroo_sender long_amounts_deliveroo) ;;
        @DeliverooReceipt.parse latin1 r)
     = Return rounded
  /\ ~ (Decimal.value rounded == sum_values [a1; a2])%Q.
Proof.
  repeat split; try (vm_compute; reflexivity).
  intros H. vm_compute in H. discriminate H.
Qed.

(** * Further properties of the code *)

(** ** Flattening, on any payload *)

Lemma yield_each_leaves (payload : list Obj) :
  Forall (fun o => forall found, get_email_messages_of o = Return found ->
                                 Forall (fun leaf => is_leaf leaf = true) found) payload ->
  forall found, yield_each get_email_messages_of payload = Return found ->
                Forall (fun leaf => is_leaf leaf = true) found.
Proof.
  induction 1 as [|o payload Ho _ IH]; simpl; intros found.
  - intros [= <-]. constructor.
  - destruct (get_email_messages_of o) as [xs|] eqn:E; simpl; [|discriminate].
    destruct (yield_each get_email_messages_of payload) as [ys|]; simpl; [|discriminate].
    intros [= <-]. apply Forall_app. split; [apply Ho|apply IH]; reflexivity.
Qed.

Lemma get_email_messages_of_leaves (o : Obj) (found : list Obj) :
  get_email_messages_of o = Return found ->
  Forall (fun leaf => is_leaf leaf = true) found.
Proof.
  revert found. induction o as [| s | b | m | m parts IH | items IH] using Obj_nested_ind;
    intros found; simpl; try discriminate.
  - intros [= <-]. repeat constructor.
  - apply yield_each_leaves. exact IH.
  - apply yield_each_leaves. exact IH.
Qed.

Lemma leaves_flat (l : list Obj) :
  Forall (fun leaf => is_leaf leaf = true) l -> _get_email_messages l = Return l.
Proof.
  unfold _get_email_messages.
  induction 1 as [|o l Ho _ IH]; [reflexivity|].
  destruct o; try discriminate Ho. simpl. rewrite IH. reflexivity.
Qed.

Lemma flatten_leaves (email_payload leaves : list Obj) :
  _get_email_messages email_payload = Return leaves ->
  Forall (fun leaf => is_leaf leaf = true) leaves.
Proof.
  apply yield_each_leaves.
  apply Forall_forall. intros o _ found. apply get_email_messages_of_leaves.
Qed.

(** X1. What flattening returns holds leaves only, whatever was nested in
    the payload, and flattening it again returns it unchanged. *)
Theorem get_email_messages_leaves (email_payload leaves : list Obj) :
  _get_email_messages email_payload = Return leaves ->
  Forall (fun leaf => is_leaf leaf = true) leaves
  /\ _get_email_messages leaves = Return leaves.
Proof.
  intros H. pose proof (flatten_leaves _ _ H) as Hl.
  split; [exact Hl|apply leaves_flat; exact Hl].
Qed.

Lemma get_email_messages_leaves_witness :
  Forall (fun leaf => is_leaf leaf = true)
    [Msg (plain_part (py "a")); Msg (html_part (py "b")); Msg (plain_part (py "c"))]
  /\ _get_email_messages
       [Msg (plain_part (py "a")); Msg (html_part (py "b")); Msg (plain_part (py "c"))]
     = Return [Msg (plain_part (py "a")); Msg (html_part (py "b")); Msg (plain_part (py "c"))].
Proof.
  apply (get_email_messages_leaves nested_payload). reflexivity.
Defined.

Lemma yield_each_only_messages (payload : list Obj) :
  Forall (fun o =>
            (only_messages o = true -> exists found, get_email_messages_of o = Return found)
            /\ (only_messages o = false -> get_email_messages_of o = Raise AttributeError))
         payload ->
  (forallb only_messages payload = true ->
   exists found, yield_each get_email_messages_of payload = Return found)
  /\ (forallb only_messages payload = false ->
      yield_each get_email_messages_of payload = Raise AttributeError).
Proof.
  induction 1 as [|o payload [Ht Hf] _ [IHt IHf]]; simpl.
  - split; [eauto|discriminate].
  - destruct (only_messages o); simpl.
    + destruct (Ht eq_refl) as [xs ->]. simpl. split.
      * intros H. destruct (IHt H) as [ys ->]. simpl. eauto.
      * intros H. rewrite (IHf H). reflexivity.
    + split; [discriminate|]. intros _. rewrite (Hf eq_refl). reflexivity.
Qed.

Lemma get_email_messages_of_only_messages (o : Obj) :
  (only_messages o = true -> exists found, get_email_messages_of o = Return found)
  /\ (only_messages o = false -> get_email_messages_of o = Raise AttributeError).
Proof.
  induction o as [| s | b | m | m parts IH | items IH] using Obj_nested_ind; simpl;
    try (split; [discriminate|reflexivity]).
  - split; [eauto|discriminate].
  - apply yield_each_only_messages. exact IH.
  - apply yield_each_only_messages. exact IH.
Qed.

(** X2. Flattening returns exactly when every value in the payload, at
    any depth, is a message; a string, bytes or [None] anywhere in it
    makes it raise [AttributeError], and it raises nothing else. *)
Theorem get_email_messages_fails (email_payload : list Obj) :
  (forallb only_messages email_payload = true ->
   exists leaves, _get_email_messages email_payload = Return leaves)
  /\ (forallb only_messages email_payload = false ->
      _get_email_messages email_payload = Raise AttributeError).
Proof.
  apply yield_each_only_messages. apply Forall_forall. intros o _.
  apply get_email_messages_of_only_messages.
Qed.

Lemma get_email_messages_fails_witness :
  _get_email_messages payload_with_string = Raise AttributeError.
Proof.
  apply (proj2 (get_email_messages_fails payload_with_string)). reflexivity.
Defined.

(** ** AbstractEmail *)

Lemma comprehension_each {A B} (f : A -> Result B) (l : list A) (r : list B) :
  comprehension f l = Return r -> Forall2 (fun a b => f a = Return b) l r.
Proof.
  revert r. induction l as [|a l IH]; simpl; intros r.
  - intros [= <-]. constructor.
  - destruct (f a) as [b|] eqn:E; simpl; [|discriminate].
    destruct (comprehension f l) as [bs|]; simpl; [|discriminate].
    intros [= <-]. constructor; [exact E|apply IH; reflexivity].
Qed.

(** X3. [AbstractEmail] refuses with [TypeError] a value that is not a
    message. When it returns, it keeps the message, the body has one entry
    for each leaf, in order, each what [_read_email_text] returns for that
    leaf; the leaves of a multipart message are what flattening its
    payload returns, all of them messages that are not multipart, and the
    one leaf of any other message is its payload, a string. *)
Theorem abstract_email_reads_leaves `{L : Library} (email : Obj) :
  (is_message email = false -> AbstractEmail.init email = Raise TypeError)
  /\ (forall e, AbstractEmail.init email = Return e ->
        AbstractEmail.email_data e = email
        /\ Forall2 (fun leaf entry => _read_email_text leaf = Return entry)
             (AbstractEmail.multipart_messages e) (AbstractEmail.body e)
        /\ (forall m parts, email = Multipart m parts ->
              _get_email_messages parts = Return (AbstractEmail.multipart_messages e)
              /\ Forall (fun leaf => is_leaf leaf = true)
                   (AbstractEmail.multipart_messages e))
        /\ (forall m, email = Msg m ->
              AbstractEmail.multipart_messages e = [Str (get_payload m)])).
Proof.
  split.
  - destruct email; simpl; intros H; try reflexivity; discriminate H.
  - intros e H.
    assert (Hr : exists leaves body,
               AbstractEmail.read_email_payload email = Return (leaves, body)
               /\ AbstractEmail.email_data e = email
               /\ AbstractEmail.multipart_messages e = leaves
               /\ AbstractEmail.body e = body).
    { unfold AbstractEmail.init in H.
      destruct email; try discriminate H;
        (destruct (AbstractEmail.read_email_payload _) as [[leaves body]|] eqn:E;
         simpl in H; [|discriminate H]);
        injection H as <-; exists leaves, body; auto. }
    destruct Hr as (leaves & body & Hr & -> & <- & <-).
    unfold AbstractEmail.read_email_payload in Hr.
    split; [reflexivity|].
    destruct email as [| s | b | m | m parts | items];
      cbn [payload_of bind] in Hr; try discriminate Hr.
    + destruct (comprehension _read_email_text [Str (get_payload m)]) as [entries|] eqn:E;
        cbn [bind] in Hr; [|discriminate Hr].
      injection Hr as Hl Hb. rewrite <- Hl, <- Hb.
      split; [apply comprehension_each; exact E|]. split; [intros ? ? [=]|].
      intros m' [= <-]. reflexivity.
    + destruct (_get_email_messages parts) as [found|] eqn:Ef;
        cbn [bind] in Hr; [|discriminate Hr].
      destruct (comprehension _read_email_text found) as [entries|] eqn:E;
        cbn [bind] in Hr; [|discriminate Hr].
      injection Hr as Hl Hb. rewrite <- Hl, <- Hb.
      split; [apply comprehension_each; exact E|]. split; [|intros ? [=]].
      intros m' parts' [= <- <-]. split; [exact Ef|].
      apply (flatten_leaves parts found Ef).
Qed.

Lemma abstract_email_reads_leaves_witness :
  @AbstractEmail.init text_only (Str (py "From: someone")) = Raise TypeError
  /\ Forall2 (fun leaf entry => @_read_email_text text_only leaf = Return entry)
       (AbstractEmail.multipart_messages two_plain_parts)
       (AbstractEmail.body two_plain_parts).
Proof.
  split.
  - apply (proj1 (@abstract_email_reads_leaves text_only (Str (py "From: someone")))).
    reflexivity.
  - apply (proj2 (@abstract_email_reads_leaves text_only
                    (mbox_message doordash_sender three_parts)) two_plain_parts).
    reflexivity.
Defined.

(** X4. A message that is not multipart is read as one bare string:
    whatever its content type and its transfer encoding, its body is one
    entry with content type "NA", encoding "NA" and the text that
    [get_html_text] makes of the payload as it is, and [AbstractEmail]
    fails exactly as [get_html_text] does on that payload. *)
Theorem single_message_read_as_html `{L : Library} (m : Message) :
  fmap AbstractEmail.body (AbstractEmail.init (Msg m))
  = fmap (fun text => [(py "NA", py "NA", text)]) (get_html_text (Str (get_payload m)))
  /\ fmap AbstractEmail.multipart_messages (AbstractEmail.init (Msg m))
     = fmap (fun _ => [Str (get_payload m)]) (get_html_text (Str (get_payload m))).
Proof.
  unfold AbstractEmail.init, AbstractEmail.read_email_payload, _read_email_text.
  cbn [payload_of bind comprehension is_str].
  change (contains (py "NA") (py "text/plain")) with false.
  change (contains (py "NA") (py "text/html")) with false.
  change (str_eqb (py "NA") (py "NA")) with true.
  cbn [andb].
  destruct (get_html_text (Str (get_payload m))); split; reflexivity.
Qed.

Lemma init_single_leaf `{L : Library} (m : Message) (e : AbstractEmail.t) :
  AbstractEmail.init (Msg m) = Return e ->
  AbstractEmail.multipart_messages e = [Str (get_payload m)]
  /\ AbstractEmail.sender e = From_ m.
Proof.
  unfold AbstractEmail.init, AbstractEmail.read_email_payload.
  cbn [payload_of bind].
  destruct (comprehension _read_email_text [Str (get_payload m)]) as [body|];
    cbn [bind]; [|discriminate].
  intros [= <-]. split; reflexivity.
Qed.

(** The loop stops at the first message whose step raises. *)
Lemma for_enumerate_stops {A S} (body : S -> nat -> A -> Py S) (index : nat)
    (a : A) (l : list A) (s : S) (out : list Printed) (e : Exception) :
  body s index a = (out, Raise e) ->
  for_enumerate body index (a :: l) s = (out, Raise e).
Proof. intros H. simpl. rewrite H. reflexivity. Qed.

(** X5. DoorDashReceipt and DeliverooReceipt cannot be made from a
    message that is not multipart: its one leaf is a string, and the
    constructors raise [TypeError] when they ask it for its content type.
    The loop over the mailbox stops there with that exception. *)
Theorem single_message_not_a_receipt `{U : Unicode} `{L : Library}
    (m : Message) (e : AbstractEmail.t) :
  AbstractEmail.init (Msg m) = Return e ->
  DoorDashReceipt.init e = Raise TypeError
  /\ DeliverooReceipt.init e = Raise TypeError
  /\ (forall sender rest results,
        From_ m = Some sender ->
        contains sender (py "uber") = false ->
        contains sender (py "doordash") = true
        \/ contains sender (py "deliveroo") = true ->
        Bak.parse (Msg m :: rest) results = ([], Raise TypeError))
  /\ (forall sender rest,
        From_ m = Some sender ->
        contains sender (py "uber") = false ->
        contains sender (py "doordash") = false ->
        contains sender (py "deliveroo") = true ->
        TakeoutCalc.script (Msg m :: rest) = ([], Raise TypeError)).
Proof.
  intros H.
  destruct (init_single_leaf m e H) as [Hl Hs].
  assert (Hd : DoorDashReceipt.init e = Raise TypeError)
    by (unfold DoorDashReceipt.init; rewrite Hl; reflexivity).
  assert (Hr : DeliverooReceipt.init e = Raise TypeError)
    by (unfold DeliverooReceipt.init; rewrite Hl; reflexivity).
  repeat split; [exact Hd|exact Hr| |].
  - intros sender rest results Hf Hu Hc. unfold Bak.parse.
    rewrite for_enumerate_stops with (out := []) (e := TypeError); [reflexivity|].
    unfold Bak.parse_message, Bak.select. rewrite H. cbn [lift pbind app].
    rewrite Hs, Hf. cbn [attr_of lift pbind app]. rewrite Hu.
    destruct (contains sender (py "doordash")) eqn:Ed.
    + rewrite Hd. reflexivity.
    + destruct Hc as [Hc|Hc]; [discriminate Hc|]. rewrite Hc, Hr. reflexivity.
  - intros sender rest Hf Hu Hd' Hc. unfold TakeoutCalc.script.
    rewrite for_enumerate_stops with (out := []) (e := TypeError); [reflexivity|].
    unfold TakeoutCalc.parse_message, TakeoutCalc.select. rewrite H. cbn [lift pbind app].
    rewrite Hs, Hf. cbn [attr_of lift pbind app]. rewrite Hu, Hd', Hc, Hr. reflexivity.
Qed.

Lemma single_message_not_a_receipt_witness :
  @Bak.parse latin1 text_only [single_part_message; doordash_message] []
  = ([], Raise TypeError).
Proof.
  apply (proj1 (proj2 (proj2 (@single_message_not_a_receipt latin1 text_only
                                single_part single_part_email eq_refl)))
           doordash_sender [doordash_message] []);
    [reflexivity|reflexivity|left; reflexivity].
Defined.

(** ** What the matcher finds, assertions included *)
Module StrictFacts.
Import Re ReStrict.
Section Sound.
Context `{U : Unicode}.

Lemma iterate_holds {A} (step : cursor -> captures -> cursor -> captures -> Prop)
    (body : cursor -> captures -> (cursor -> captures -> option A) -> option A)
    (lo : nat) (hi : option nat) (k : cursor -> captures -> option A) :
  (forall c g k' x, body c g k' = Some x ->
                    exists c' g', step c g c' g' /\ k' c' g' = Some x) ->
  forall fuel n c g x,
    within hi n ->
    iterate body lo hi k fuel n c g = Some x ->
    exists m c' g', repeated step m c g c' g' /\ (lo <= n + m)%nat
                    /\ within hi (n + m) /\ k c' g' = Some x.
Proof.
  intros Hbody.
  assert (Hstop : forall n c g x,
             within hi n ->
             (if (lo <=? n)%nat then k c g else None) = Some x ->
             exists m c' g', repeated step m c g c' g' /\ (lo <= n + m)%nat
                             /\ within hi (n + m) /\ k c' g' = Some x).
  { intros n c g x Hw H. destruct (Nat.leb_spec lo n) as [Hle|]; [|discriminate].
    exists O, c, g. rewrite Nat.add_0_r. simpl. auto. }
  induction fuel as [|fuel IH]; intros n c g x Hw H; cbn [iterate] in H.
  - apply Hstop; assumption.
  - destruct (more hi n) eqn:Em; [|apply Hstop; assumption].
    destruct (body c g _) as [y|] eqn:E; [|apply Hstop; assumption].
    injection H as ->.
    destruct (Hbody _ _ _ _ E) as (c1 & g1 & Hs & Hk).
    destruct (progressed c c1 || (n <? lo)%nat); [|discriminate].
    assert (Hw' : within hi (S n)).
    { destruct hi as [h|]; simpl in *; [|exact I]. apply Nat.ltb_lt in Em. lia. }
    destruct (IH _ _ _ _ Hw' Hk) as (m & c' & g' & Hr & Hle & Hwm & Hx).
    exists (S m), c', g'. replace (n + S m)%nat with (S n + m)%nat by lia.
    repeat split; [|lia|exact Hwm|exact Hx].
    simpl. exists c1, g1. split; assumption.
Qed.

(** Whatever the matcher finds is a match with its assertions true, and
    the rest of the pattern was run from where it ends. *)
Lemma exec_holds (r : re) :
  forall A c g (k : cursor -> captures -> option A) x,
    exec r c g k = Some x ->
    exists c' g', Holds r c g c' g' /\ k c' g' = Some x.
Proof.
  induction r as [|p|a IHa b IHb|a IHa lo hi|a IHa|n a IHa|m| |];
    intros A c g k x H; cbn [exec] in H.
  - exists c, g. simpl. auto.
  - destruct c as [b [|y t]]; simpl in H; [discriminate|].
    destruct (p y) eqn:Ep; [|discriminate].
    exists {| before := Some y; rest := t |}, g. simpl. split; [|exact H].
    exists y. auto.
  - destruct (IHa _ _ _ _ _ H) as (c1 & g1 & H1 & H2).
    destruct (IHb _ _ _ _ _ H2) as (c2 & g2 & H3 & H4).
    exists c2, g2. split; [|exact H4]. simpl. exists c1, g1. auto.
  - assert (Hw : within hi 0) by (destruct hi; simpl; [lia|exact I]).
    destruct (iterate_holds (Holds a) _ lo hi k (fun c g k' x => IHa A c g k' x)
                _ _ _ _ _ Hw H) as (m & c' & g' & Hr & Hle & Hwm & Hk).
    exists c', g'. split; [|exact Hk]. simpl. exists m. auto.
  - destruct (exec a c g _) as [[c1 g1]|] eqn:E; [|discriminate].
    destruct (IHa _ _ _ _ _ E) as (c' & g' & H1 & [= -> ->]).
    exists c1, g1. auto.
  - destruct (IHa _ _ _ _ _ H) as (c' & g' & H1 & H2).
    exists c', (set_capture (pred n) (consumed c c') g'). split; [|exact H2].
    simpl. exists g'. auto.
  - exists c, g. destruct (before c) as [y|] eqn:Eb.
    + destruct m; simpl in H; [|discriminate].
      destruct (Z.eqb_spec y 10) as [->|]; [|discriminate].
      split; [simpl; rewrite Eb; auto|exact H].
    + split; [simpl; rewrite Eb; auto|exact H].
  - exists c, g. destruct (rest c) as [|y [|z t]] eqn:Er; [| |discriminate].
    + split; [simpl; rewrite Er; auto|exact H].
    + destruct (Z.eqb_spec y 10) as [->|]; [|discriminate].
      split; [simpl; rewrite Er; auto|exact H].
  - exists c, g. destruct (xorb _ _) eqn:Ex; [|discriminate].
    split; [simpl; auto|exact H].
Qed.

Lemma repeated_ind_step (step : cursor -> captures -> cursor -> captures -> Prop)
    (P : cursor -> captures -> cursor -> captures -> Prop) :
  (forall c g, P c g c g) ->
  (forall c g c1 g1 c' g', step c g c1 g1 -> P c1 g1 c' g' -> P c g c' g') ->
  forall n c g c' g', repeated step n c g c' g' -> P c g c' g'.
Proof.
  intros H0 HS. induction n as [|n IH]; intros c g c' g'; simpl.
  - intros [-> ->]. apply H0.
  - intros (c1 & g1 & H1 & H2). eapply HS; [exact H1|]. apply IH. exact H2.
Qed.

(** A match takes a piece off the front of the text. *)
Lemma holds_suffix (r : re) :
  forall c g c' g', Holds r c g c' g' -> exists xs, rest c = (xs ++ rest c')%list.
Proof.
  induction r as [|p|a IHa b IHb|a IHa lo hi|a IHa|n a IHa|m| |];
    intros c g c' g'; simpl;
    try (intros [-> _]; exists []; reflexivity).
  - intros (x & H & _). exists [x]. exact H.
  - intros (c1 & g1 & H1 & H2).
    destruct (IHa _ _ _ _ H1) as [xs Hx]. destruct (IHb _ _ _ _ H2) as [ys Hy].
    exists (xs ++ ys)%list. rewrite Hx, Hy. apply app_assoc.
  - intros (n & _ & _ & H). revert H.
    apply (repeated_ind_step (Holds a)
             (fun c g c' g' => exists xs, rest c = (xs ++ rest c')%list)).
    + intros c0 g0. exists []. reflexivity.
    + intros c0 g0 c1 g1 c2 g2 H1 [ys Hy]. destruct (IHa _ _ _ _ H1) as [xs Hx].
      exists (xs ++ ys)%list. rewrite Hx, Hy. apply app_assoc.
  - apply IHa.
  - intros (g1 & H & _). eapply IHa. exact H.
Qed.

(** A match ends where it started or after a character. *)
Lemma holds_before (r : re) :
  forall c g c' g', Holds r c g c' g' -> c' = c \/ exists x, before c' = Some x.
Proof.
  induction r as [|p|a IHa b IHb|a IHa lo hi|a IHa|n a IHa|m| |];
    intros c g c' g'; simpl;
    try (intros [-> _]; left; reflexivity).
  - intros (x & _ & _ & H & _). right. eauto.
  - intros (c1 & g1 & H1 & H2).
    destruct (IHb _ _ _ _ H2) as [->|H]; [|right; exact H].
    apply (IHa _ _ _ _ H1).
  - intros (n & _ & _ & H). revert H.
    apply (repeated_ind_step (Holds a)
             (fun c g c' g' => c' = c \/ exists x, before c' = Some x)).
    + intros c0 g0. left. reflexivity.
    + intros c0 g0 c1 g1 c2 g2 H1 [->|H]; [|right; exact H].
      apply (IHa _ _ _ _ H1).
  - apply IHa.
  - intros (g1 & H & _). eapply IHa. exact H.
Qed.

Lemma consumed_is (c c' : cursor) (xs : str) :
  rest c = (xs ++ rest c')%list -> consumed c c' = xs.
Proof.
  intros H. unfold consumed. rewrite H, length_app.
  replace (length xs + length (rest c') - length (rest c'))%nat with (length xs) by lia.
  rewrite firstn_app, Nat.sub_diag, firstn_all. simpl. apply app_nil_r.
Qed.

(** A literal takes its text, and nothing else. *)
Lemma holds_lit (s : str) :
  forall c g c' g', Holds (Lit s) c g c' g' ->
                    rest c = (s ++ rest c')%list
                    /\ before c' = last_seen (before c) s /\ g' = g.
Proof.
  induction s as [|x s IH]; intros c g c' g'; simpl.
  - intros [-> ->]. auto.
  - intros (c1 & g1 & (y & Hy & Ey & Hb & ->) & H).
    apply Z.eqb_eq in Ey. subst y.
    destruct (IH _ _ _ _ H) as (H1 & H2 & H3).
    rewrite Hy, H1, H2, Hb. auto.
Qed.

(** A repeated class takes a run of characters of the class, as many as
    its bounds allow. *)
Lemma holds_chars (p : Z -> bool) (lo : nat) (hi : option nat) :
  forall c g c' g', Holds (Repeat (Char p) lo hi) c g c' g' ->
                    exists xs, rest c = (xs ++ rest c')%list
                               /\ (lo <= length xs)%nat /\ within hi (length xs)
                               /\ Forall (fun x => p x = true) xs
                               /\ before c' = last_seen (before c) xs /\ g' = g.
Proof.
  intros c g c' g' (n & Hlo & Hhi & H).
  assert (Hr : exists xs, rest c = (xs ++ rest c')%list /\ length xs = n
                          /\ Forall (fun x => p x = true) xs
                          /\ before c' = last_seen (before c) xs /\ g' = g).
  { clear Hlo Hhi. revert c g H. induction n as [|n IH]; intros c g; simpl.
    - intros [-> ->]. exists []. auto.
    - intros (c1 & g1 & (x & Hx & Hp & Hb & ->) & H2).
      destruct (IH _ _ H2) as (xs & H3 & H4 & H5 & H6 & H7).
      exists (x :: xs). rewrite Hx, H3, H6, Hb. simpl. auto. }
  destruct Hr as (xs & H1 & <- & H3 & H4 & H5). exists xs.
  repeat split; assumption.
Qed.

Lemma match_at_holds (p : Pattern) (c0 c1 : cursor) (m : Match) :
  match_at p c0 = Some (m, c1) ->
  Holds (expr p) c0 (repeat None (ngroups p)) c1 (groups m)
  /\ group0 m = consumed c0 c1.
Proof.
  unfold match_at. intros H.
  destruct (exec_holds _ _ _ _ _ _ H) as (c' & g' & Hm & [= <- <-]). auto.
Qed.

(** ** Patterns that start with [^] *)

Lemma finditer_from_later (p : Pattern) (r : re) (fuel : nat) :
  expr p = Cat (Bol false) r ->
  forall c, (exists x, before c = Some x) -> finditer_from fuel p c = [].
Proof.
  intros He. induction fuel as [|fuel IH]; intros c [x Hx]; cbn [finditer_from];
    [reflexivity|].
  assert (Hm : match_at p c = None)
    by (unfold match_at; rewrite He; cbn [exec]; rewrite Hx; reflexivity).
  rewrite Hm. unfold step. destruct (rest c) as [|y t]; [reflexivity|].
  apply IH. simpl. eauto.
Qed.

(** A pattern that starts with [^] is matched at the start of the text
    or not at all: [finditer] finds at most one match. *)
Lemma finditer_anchored (p : Pattern) (r : re) (text : str) :
  expr p = Cat (Bol false) r ->
  finditer p text
  = match match_at p (start text) with
    | Some (m, _) => [m]
    | None => []
    end.
Proof.
  intros He. unfold finditer. cbn [finditer_from].
  destruct (match_at p (start text)) as [[m c']|] eqn:E.
  - f_equal. destruct (progressed (start text) c') eqn:Ep.
    + apply (finditer_from_later p r _ He).
      destruct (match_at_holds _ _ _ _ E) as [Hh _].
      destruct (holds_before _ _ _ _ _ Hh) as [->|H]; [|exact H].
      unfold progressed in Ep. apply Nat.ltb_lt in Ep. lia.
    + unfold step. destruct (rest (start text)) as [|y t]; [reflexivity|].
      apply (finditer_from_later p r _ He). simpl. eauto.
  - unfold step. destruct (rest (start text)) as [|y t]; [reflexivity|].
    apply (finditer_from_later p r _ He). simpl. eauto.
Qed.

(** The group of an amount, with what it takes off the text. *)
Lemma holds_decimal_group (c : cursor) (g : captures) (c' : cursor) (g' : captures) :
  Holds (decimal_group 1) c g c' g' ->
  exists whole fraction,
    rest c = (whole ++ 46 :: fraction ++ rest c')%list
    /\ Forall (fun x => is_digit x = true) whole
    /\ Forall (fun x => is_digit x = true) fraction
    /\ whole <> [] /\ fraction <> []
    /\ before c' = last_seen (Some 46) fraction
    /\ g' = set_capture 0 (whole ++ 46 :: fraction) g.
Proof.
  unfold decimal_group. change (py ".") with [46]. cbn [Seq Holds pred]. unfold Plus.
  intros (g1 & (c1 & g2 & H1 & c2 & g3 & Hl & H3) & ->).
  destruct (holds_chars _ _ _ _ _ _ _ H1) as (whole & Hw & Lw & _ & Dw & Bw & ->).
  destruct (holds_lit [46] _ _ _ _ Hl) as (Hp & Bp & ->).
  destruct (holds_chars _ _ _ _ _ _ _ H3) as (fraction & Hf & Lf & _ & Df & Bf & ->).
  exists whole, fraction.
  assert (Hrest : rest c = (whole ++ 46 :: fraction ++ rest c')%list)
    by (rewrite Hw, Hp, Hf; reflexivity).
  repeat split; auto.
  - intros ->. simpl in Lw. lia.
  - intros ->. simpl in Lf. lia.
  - rewrite Bf, Bp. reflexivity.
  - rewrite (consumed_is c c' (whole ++ 46 :: fraction)); [reflexivity|].
    rewrite Hrest, <- app_assoc. reflexivity.
Qed.

(** The first match of a search starts somewhere in the text. *)
Lemma finditer_from_head (p : Pattern) (fuel : nat) :
  forall c m ms, finditer_from fuel p c = m :: ms ->
                 exists c0 c1 pre, match_at p c0 = Some (m, c1)
                                   /\ rest c = (pre ++ rest c0)%list.
Proof.
  induction fuel as [|fuel IH]; intros c m ms; cbn [finditer_from]; [discriminate|].
  destruct (match_at p c) as [[m0 c']|] eqn:E.
  - intros [= <- _]. exists c, c', []. auto.
  - unfold step. destruct (rest c) as [|y t] eqn:Er; [discriminate|].
    intros H. destruct (IH _ _ _ H) as (c0 & c1 & pre & Hm & Hp).
    exists c0, c1, (y :: pre). simpl in Hp. rewrite Hp. auto.
Qed.

End Sound.
End StrictFacts.

(** ** The rules of the receipts: what a line must be *)

(** X6. The amount rule of DoorDash finds at most one amount in a line,
    and only in a line that is "Total Charged ", a currency symbol,
    digits, a point and digits, with a word boundary after them; the
    amount is the digits with the point. On every other line
    [parse_amount] leaves the receipt as it is. *)
Theorem doordash_amount_rule `{U : Unicode} (self : DoorDashReceipt.t) (line : str) :
  (Re.findall1 DoorDashReceipt.regex_total line = []
   /\ DoorDashReceipt.parse_amount self line = Return self)
  \/ exists x whole fraction tail,
       line = (py "Total Charged " ++ x :: whole ++ 46 :: fraction ++ tail)%list
       /\ Sc x = true
       /\ Forall (fun c => is_digit c = true) whole
       /\ Forall (fun c => is_digit c = true) fraction
       /\ whole <> [] /\ fraction <> []
       /\ xorb (Re.word_at (ReStrict.last_seen (Some 46) fraction))
               (Re.word_at (hd_error tail)) = true
       /\ Re.findall1 DoorDashReceipt.regex_total line = [(whole ++ 46 :: fraction)%list]
       /\ DoorDashReceipt.parse_amount self line
          = (amount <- Decimal.of_str (whole ++ 46 :: fraction) ;;
             total <- Decimal.add (DoorDashReceipt.cost_total self) amount ;;
             Return (DoorDashReceipt.set_cost_total self total)).
Proof.
  unfold DoorDashReceipt.parse_amount, Re.findall1.
  rewrite (StrictFacts.finditer_anchored DoorDashReceipt.regex_total _ line eq_refl).
  destruct (Re.match_at DoorDashReceipt.regex_total (Re.start line)) as [[m c']|] eqn:E;
    [right|left; split; reflexivity].
  destruct (StrictFacts.match_at_holds _ _ _ _ E) as [Hh _].
  unfold DoorDashReceipt.regex_total in Hh. cbn [Re.expr Re.ngroups Re.Seq repeat] in Hh.
  cbn [ReStrict.Holds] in Hh.
  destruct Hh as (c1 & g1 & (-> & -> & _) & c2 & g2 & Hl & c3 & g3
                  & (x & Hx & Sx & Bx & ->) & c4 & g4 & Hd & Hc & Hgm & Hb).
  subst c4.
  destruct (StrictFacts.holds_lit _ _ _ _ _ Hl) as (H1 & _ & ->).
  destruct (StrictFacts.holds_decimal_group _ _ _ _ Hd)
    as (whole & fraction & H2 & Dw & Df & Nw & Nf & Bf & Hg).
  exists x, whole, fraction, (Re.rest c').
  assert (Hm : Re.group_text m 1 = (whole ++ 46 :: fraction)%list)
    by (unfold Re.group_text, Re.group; rewrite Hgm, Hg; reflexivity).
  rewrite Bf in Hb. cbn [map]. rewrite Hm.
  repeat split; auto.
  simpl in H1. rewrite H1, Hx, H2. reflexivity.
Qed.

(** X7. The amount rule of Deliveroo finds at most one amount in a line,
    and only in a line that is two white-space characters, "Total",
    white space, a currency symbol, digits, a point and digits, and then
    the end of the line (or one line feed before it). A line that is
    indented otherwise, or that goes on after the amount, is left alone
    by [parse_amount]. *)
Theorem deliveroo_amount_rule `{U : Unicode} (self : DeliverooReceipt.t) (line : str) :
  (Re.findall1 DeliverooReceipt.regex_total line = []
   /\ DeliverooReceipt.parse_amount self line = Return self)
  \/ exists indent gap x whole fraction tail,
       line = (indent ++ py "Total" ++ gap ++ x :: whole ++ 46 :: fraction ++ tail)%list
       /\ length indent = 2%nat
       /\ Forall (fun c => White_Space c = true) indent
       /\ Forall (fun c => White_Space c = true) gap /\ gap <> []
       /\ Sc x = true
       /\ Forall (fun c => is_digit c = true) whole
       /\ Forall (fun c => is_digit c = true) fraction
       /\ whole <> [] /\ fraction <> []
       /\ (tail = [] \/ tail = [10])
       /\ Re.findall1 DeliverooReceipt.regex_total line = [(whole ++ 46 :: fraction)%list]
       /\ DeliverooReceipt.parse_amount self line
          = (amount <- Decimal.of_str (whole ++ 46 :: fraction) ;;
             total <- Decimal.add (DeliverooReceipt.cost_total self) amount ;;
             Return (DeliverooReceipt.set_cost_total self total)).
Proof.
  unfold DeliverooReceipt.parse_amount, Re.findall1.
  rewrite (StrictFacts.finditer_anchored DeliverooReceipt.regex_total _ line eq_refl).
  destruct (Re.match_at DeliverooReceipt.regex_total (Re.start line)) as [[m c']|] eqn:E;
    [right|left; split; reflexivity].
  destruct (StrictFacts.match_at_holds _ _ _ _ E) as [Hh _].
  unfold DeliverooReceipt.regex_total in Hh. cbn [Re.expr Re.ngroups Re.Seq repeat] in Hh.
  cbn [ReStrict.Holds] in Hh.
  destruct Hh as (c1 & g1 & (-> & -> & _) & c2 & g2 & Hi & c3 & g3 & Hl & c4 & g4 & Hg
                  & c5 & g5 & (x & Hx & Sx & Bx & ->) & c6 & g6 & Hd & Hc & Hgm & He).
  subst c6.
  apply StrictFacts.holds_chars in Hi.
  destruct Hi as (indent & H1 & L1 & L2 & W1 & _ & ->).
  destruct (StrictFacts.holds_lit _ _ _ _ _ Hl) as (H2 & _ & ->).
  apply StrictFacts.holds_chars in Hg.
  destruct Hg as (gap & H3 & L3 & _ & W3 & _ & ->).
  destruct (StrictFacts.holds_decimal_group _ _ _ _ Hd)
    as (whole & fraction & H4 & Dw & Df & Nw & Nf & _ & Hcap).
  exists indent, gap, x, whole, fraction, (Re.rest c').
  assert (Hm : Re.group_text m 1 = (whole ++ 46 :: fraction)%list)
    by (unfold Re.group_text, Re.group; rewrite Hgm, Hcap; reflexivity).
  cbn [map]. rewrite Hm. simpl in L2.
  repeat split; auto.
  - simpl in H1. rewrite H1, H2, H3, Hx, H4. reflexivity.
  - lia.
  - intros ->. simpl in L3. lia.
Qed.

(** X8. The restaurant rule of Deliveroo matches a line only when it is
    a name without line feed followed by " has your order!" up to the end
    of the line (or one line feed before it), and then the restaurant
    becomes that name, whole, even when empty; on every other line
    [parse_restaurant] changes nothing. *)
Theorem deliveroo_restaurant_rule `{U : Unicode} (self : DeliverooReceipt.t) (line : str) :
  (Re.findall2 DeliverooReceipt.regex_restaurant_name line = []
   /\ DeliverooReceipt.parse_restaurant self line = self)
  \/ exists name tail,
       line = (name ++ py " has your order!" ++ tail)%list
       /\ Forall (fun c => c <> 10) name
       /\ (tail = [] \/ tail = [10])
       /\ Re.findall2 DeliverooReceipt.regex_restaurant_name line
          = [(name, py " has your order!")]
       /\ DeliverooReceipt.parse_restaurant self line
          = DeliverooReceipt.set_restaurant self name.
Proof.
  unfold DeliverooReceipt.parse_restaurant, Re.findall2.
  rewrite (StrictFacts.finditer_anchored DeliverooReceipt.regex_restaurant_name _ line
             eq_refl).
  destruct (Re.match_at DeliverooReceipt.regex_restaurant_name (Re.start line))
    as [[m c']|] eqn:E; [right|left; split; reflexivity].
  destruct (StrictFacts.match_at_holds _ _ _ _ E) as [Hh _].
  unfold DeliverooReceipt.regex_restaurant_name in Hh.
  cbn [Re.expr Re.ngroups Re.Seq repeat] in Hh. cbn [ReStrict.Holds pred] in Hh.
  destruct Hh as (c1 & g1 & (-> & -> & _) & c2 & g2 & (g3 & Hn & ->) & c3 & g4
                  & (g5 & Hl & ->) & Hc & Hgm & He).
  subst c3.
  apply StrictFacts.holds_chars in Hn.
  destruct Hn as (name & H1 & _ & _ & Dn & _ & ->).
  destruct (StrictFacts.holds_lit _ _ _ _ _ Hl) as (H2 & _ & ->).
  rewrite (StrictFacts.consumed_is _ _ _ H1) in Hgm.
  rewrite (StrictFacts.consumed_is _ _ _ H2) in Hgm.
  exists name, (Re.rest c').
  assert (Hm1 : Re.group_text m 1 = name)
    by (unfold Re.group_text, Re.group; rewrite Hgm; reflexivity).
  assert (Hm2 : Re.group_text m 2 = py " has your order!")
    by (unfold Re.group_text, Re.group; rewrite Hgm; reflexivity).
  cbn [map]. rewrite Hm1, Hm2.
  repeat split; auto.
  - simpl in H1. rewrite H1, H2. reflexivity.
  - eapply Forall_impl; [|exact Dn]. intros c Hc ->. discriminate Hc.
Qed.

(** X9. The order rule of Deliveroo takes the order id from a place in
    the line where "Your Receipt for Order #" is followed by digits that
    end at a word boundary; the id is those digits as text, leading zeros
    kept. A line without a match leaves the order id as it is. *)
Theorem deliveroo_order_rule `{U : Unicode} (self : DeliverooReceipt.t) (line : str) :
  (Re.findall1 DeliverooReceipt.regex_order_id line = []
   /\ DeliverooReceipt.parse_order_id self line = self)
  \/ exists pre digits post,
       line = (pre ++ py "Your Receipt for Order #" ++ digits ++ post)%list
       /\ Forall (fun c => is_digit c = true) digits /\ digits <> []
       /\ xorb (Re.word_at (ReStrict.last_seen (Some 35) digits))
               (Re.word_at (hd_error post)) = true
       /\ hd_error (Re.findall1 DeliverooReceipt.regex_order_id line) = Some digits
       /\ DeliverooReceipt.parse_order_id self line
          = DeliverooReceipt.set_order_id self digits.
Proof.
  unfold DeliverooReceipt.parse_order_id, Re.findall1, Re.finditer.
  destruct (Re.finditer_from _ DeliverooReceipt.regex_order_id (Re.start line))
    as [|m ms] eqn:E; [left; split; reflexivity|right].
  destruct (StrictFacts.finditer_from_head _ _ _ _ _ E) as (c0 & c' & pre & Hm & Hp).
  destruct (StrictFacts.match_at_holds _ _ _ _ Hm) as [Hh _].
  unfold DeliverooReceipt.regex_order_id in Hh.
  cbn [Re.expr Re.ngroups Re.Seq repeat] in Hh. cbn [ReStrict.Holds pred] in Hh.
  destruct Hh as (c1 & g1 & Hl & c2 & g2 & (g3 & Hd & ->) & Hc & Hgm & Hb).
  subst c2.
  destruct (StrictFacts.holds_lit _ _ _ _ _ Hl) as (H1 & B1 & ->).
  apply StrictFacts.holds_chars in Hd.
  destruct Hd as (digits & H2 & L2 & _ & D2 & B2 & ->).
  rewrite (StrictFacts.consumed_is _ _ _ H2) in Hgm.
  exists pre, digits, (Re.rest c').
  assert (Hm1 : Re.group_text m 1 = digits)
    by (unfold Re.group_text, Re.group; rewrite Hgm; reflexivity).
  cbn [map hd_error]. rewrite Hm1.
  rewrite B2, B1 in Hb.
  repeat split; auto.
  - simpl in Hp. rewrite Hp, H1, H2. reflexivity.
  - intros ->. simpl in L2. lia.
Qed.

(** X10. The order rule of DoorDash takes the url and the order id from
    a place in the line where "<", the address of an order and "/>"
    stand: the id is five blocks of 8, 4, 4, 4 and 12 word characters
    joined by "-", and the url is "https://www.doordash.com/orders/"
    followed by that id, so the url always ends with the order id. A line
    without a match leaves both as they are. *)
Theorem doordash_order_rule `{U : Unicode} (self : DoorDashReceipt.t) (line : str) :
  (Re.findall2 DoorDashReceipt.regex_order_id line = []
   /\ DoorDashReceipt.parse_order_id self line = self)
  \/ exists pre b1 b2 b3 b4 b5 post,
       let id := (b1 ++ py "-" ++ b2 ++ py "-" ++ b3 ++ py "-" ++ b4 ++ py "-" ++ b5)%list in
       let url := (py "https://www.doordash.com/orders/" ++ id)%list in
       line = (pre ++ py "<" ++ url ++ py "/>" ++ post)%list
       /\ List.map (@length Z) [b1; b2; b3; b4; b5] = [8; 4; 4; 4; 12]%nat
       /\ Forall (fun c => Word c = true) (b1 ++ b2 ++ b3 ++ b4 ++ b5)
       /\ hd_error (Re.findall2 DoorDashReceipt.regex_order_id line) = Some (url, id)
       /\ DoorDashReceipt.parse_order_id self line
          = DoorDashReceipt.set_order_id self url id.
Proof.
  unfold DoorDashReceipt.parse_order_id, Re.findall2, Re.finditer.
  destruct (Re.finditer_from _ DoorDashReceipt.regex_order_id (Re.start line))
    as [|m ms] eqn:E; [left; split; reflexivity|right].
  destruct (StrictFacts.finditer_from_head _ _ _ _ _ E) as (c0 & c' & pre & Hm & Hp).
  destruct (StrictFacts.match_at_holds _ _ _ _ Hm) as [Hh _].
  unfold DoorDashReceipt.regex_order_id in Hh.
  cbn [Re.expr Re.ngroups Re.Seq repeat] in Hh. cbn [ReStrict.Holds pred] in Hh.
  destruct Hh as (c1 & g1 & Hlt & c2 & g2
                  & (g3 & (c3 & g4 & Hpre & g5
                           & (c4 & g6 & Hb1 & c5 & g7 & Hd1 & c6 & g8 & Hb2 & c7 & g9 & Hd2
                              & c8 & g10 & Hb3 & c9 & g11 & Hd3 & c10 & g12 & Hb4
                              & c11 & g13 & Hd4 & Hb5) & ->) & ->) & Hgt).
  destruct (StrictFacts.holds_lit _ _ _ _ _ Hlt) as (H0 & _ & ->).
  destruct (StrictFacts.holds_lit _ _ _ _ _ Hpre) as (H1 & _ & ->).
  apply StrictFacts.holds_chars in Hb1, Hb2, Hb3, Hb4, Hb5.
  destruct Hb1 as (b1 & E1 & L1 & U1 & W1 & _ & ->).
  destruct (StrictFacts.holds_lit _ _ _ _ _ Hd1) as (D1 & _ & ->).
  destruct Hb2 as (b2 & E2 & L2 & U2 & W2 & _ & ->).
  destruct (StrictFacts.holds_lit _ _ _ _ _ Hd2) as (D2 & _ & ->).
  destruct Hb3 as (b3 & E3 & L3 & U3 & W3 & _ & ->).
  destruct (StrictFacts.holds_lit _ _ _ _ _ Hd3) as (D3 & _ & ->).
  destruct Hb4 as (b4 & E4 & L4 & U4 & W4 & _ & ->).
  destruct (StrictFacts.holds_lit _ _ _ _ _ Hd4) as (D4 & _ & ->).
  destruct Hb5 as (b5 & E5 & L5 & U5 & W5 & _ & ->).
  destruct (StrictFacts.holds_lit _ _ _ _ _ Hgt) as (H2 & _ & Hgm).
  simpl in U1, U2, U3, U4, U5.
  set (id := (b1 ++ py "-" ++ b2 ++ py "-" ++ b3 ++ py "-" ++ b4 ++ py "-" ++ b5)%list).
  assert (Hid : Re.rest c3 = (id ++ Re.rest c2)%list).
  { unfold id. rewrite E1, D1, E2, D2, E3, D3, E4, D4, E5.
    repeat rewrite <- app_assoc. reflexivity. }
  assert (Hurl : Re.rest c1 = ((py "https://www.doordash.com/orders/" ++ id) ++ Re.rest c2)%list)
    by (rewrite H1, Hid, <- app_assoc; reflexivity).
  rewrite (StrictFacts.consumed_is _ _ _ Hid) in Hgm.
  rewrite (StrictFacts.consumed_is _ _ _ Hurl) in Hgm.
  exists pre, b1, b2, b3, b4, b5, (Re.rest c').
  assert (Hm1 : Re.group_text m 1 = (py "https://www.doordash.com/orders/" ++ id)%list)
    by (unfold Re.group_text, Re.group; rewrite Hgm; reflexivity).
  assert (Hm2 : Re.group_text m 2 = id)
    by (unfold Re.group_text, Re.group; rewrite Hgm; reflexivity).
  cbn zeta. fold id. cbn [map hd_error]. rewrite Hm1, Hm2.
  repeat split.
  - simpl in Hp. rewrite Hp, H0, Hurl, H2. repeat rewrite <- app_assoc. reflexivity.
  - cbn [map]. repeat f_equal; lia.
  - repeat (apply Forall_app; split); assumption.
Qed.

(** ** What the matcher does on a text of the right form *)
Module ExecFacts.
Import Re ReStrict.
Section Exec.
Context `{U : Unicode}.

(** A literal in front of the text is passed. *)
Lemma exec_lit (s : str) :
  forall A b t g (k : cursor -> captures -> option A),
    exec (Lit s) {| before := b; rest := (s ++ t)%list |} g k
    = k {| before := last_seen b s; rest := t |} g.
Proof.
  induction s as [|x s IH]; intros A b t g k; [reflexivity|].
  cbn [Lit exec app rest]. rewrite Z.eqb_refl. apply IH.
Qed.

(** Greedy repetition of a class over a run that ends where the class
    stops: when the rest of the pattern matches after the whole run,
    that is the match found. *)
Lemma iterate_greedy {A} (p : Z -> bool) (lo : nat)
    (body : cursor -> captures -> (cursor -> captures -> option A) -> option A)
    (k : cursor -> captures -> option A) (t : str) (g : captures) (x : A) :
  (forall c' g' k', body c' g' k' = exec (Char p) c' g' k') ->
  stops p t ->
  forall xs fuel n b,
    Forall (fun c => p c = true) xs ->
    (length xs < fuel)%nat ->
    (lo <= n + length xs)%nat ->
    k {| before := last_seen b xs; rest := t |} g = Some x ->
    iterate body lo None k fuel n {| before := b; rest := (xs ++ t)%list |} g = Some x.
Proof.
  intros Hbody Ht.
  induction xs as [|y xs IH]; intros fuel n b Hp Hf Hlo Hk.
  - destruct fuel as [|fuel]; [simpl in Hf; lia|].
    cbn [iterate more app]. rewrite Hbody. cbn [exec rest].
    assert (Hn : (lo <=? n)%nat = true) by (apply Nat.leb_le; simpl in Hlo; lia).
    rewrite Hn. simpl in Hk.
    destruct t as [|z t]; [exact Hk|]. simpl in Ht. rewrite Ht. exact Hk.
  - destruct fuel as [|fuel]; [simpl in Hf; lia|].
    inversion Hp as [|? ? Hy Hxs]; subst.
    cbn [iterate more app]. rewrite Hbody. cbn [exec rest]. rewrite Hy.
    assert (Hpr : progressed {| before := b; rest := y :: (xs ++ t)%list |}
                    {| before := Some y; rest := (xs ++ t)%list |} = true)
      by (unfold progressed; simpl; apply Nat.ltb_lt; lia).
    rewrite Hpr. cbn [orb].
    rewrite (IH fuel (S n) (Some y) Hxs); [reflexivity| | |exact Hk];
      simpl in Hf, Hlo; lia.
Qed.

(** Repetition of a class exactly [h] times over [h] characters of the
    class goes on with the rest of the pattern after them. *)
Lemma iterate_exact {A} (p : Z -> bool) (h : nat)
    (body : cursor -> captures -> (cursor -> captures -> option A) -> option A)
    (k : cursor -> captures -> option A) (t : str) (g : captures) :
  (forall c' g' k', body c' g' k' = exec (Char p) c' g' k') ->
  forall xs fuel n b,
    Forall (fun c => p c = true) xs ->
    (length xs <= fuel)%nat ->
    (n + length xs = h)%nat ->
    iterate body h (Some h) k fuel n {| before := b; rest := (xs ++ t)%list |} g
    = k {| before := last_seen b xs; rest := t |} g.
Proof.
  intros Hbody.
  induction xs as [|y xs IH]; intros fuel n b Hp Hf Hn.
  - simpl in Hn. rewrite Nat.add_0_r in Hn. subst n.
    destruct fuel as [|fuel]; cbn [iterate more app]; rewrite Nat.leb_refl;
      [reflexivity|].
    rewrite Nat.ltb_irrefl. reflexivity.
  - destruct fuel as [|fuel]; [simpl in Hf; lia|].
    apply Forall_cons_iff in Hp. destruct Hp as [Hy Hxs].
    cbn [iterate more app]. rewrite Hbody. cbn [exec rest]. rewrite Hy.
    assert (Hm : (n <? h)%nat = true)
      by (apply Nat.ltb_lt; simpl in Hn; lia).
    rewrite Hm.
    assert (Hpr : progressed {| before := b; rest := y :: (xs ++ t)%list |}
                    {| before := Some y; rest := (xs ++ t)%list |} = true)
      by (unfold progressed; simpl; apply Nat.ltb_lt; lia).
    rewrite Hpr. cbn [orb].
    assert (Hlo : (h <=? n)%nat = false)
      by (apply Nat.leb_gt; simpl in Hn; lia).
    rewrite Hlo.
    rewrite (IH fuel (S n) (Some y) Hxs); [|simpl in Hf; lia|simpl in Hn; lia].
    cbn [last_seen]. destruct (k _ g); reflexivity.
Qed.

(** The group of an amount takes digits, a point and digits when no
    digit follows them and the point is no digit itself. *)
Lemma exec_decimal_group {A} (n : nat) (whole fraction tail : str) (b : option Z)
    (g : captures) (k : cursor -> captures -> option A) (x : A) :
  Forall (fun c => is_digit c = true) whole ->
  Forall (fun c => is_digit c = true) fraction ->
  whole <> [] -> fraction <> [] ->
  is_digit 46 = false ->
  stops is_digit tail ->
  k {| before := last_seen (Some 46) fraction; rest := tail |}
    (set_capture (pred n) (whole ++ 46 :: fraction)%list g) = Some x ->
  exec (decimal_group n)
    {| before := b; rest := (whole ++ 46 :: fraction ++ tail)%list |} g k = Some x.
Proof.
  intros Dw Df Nw Nf Hp Ht Hk.
  unfold decimal_group, Plus, d. cbn [Seq exec rest].
  apply (iterate_greedy is_digit); [reflexivity|exact Hp|exact Dw|rewrite length_app; lia| |].
  { destruct whole; [congruence|simpl; lia]. }
  change (py ".") with ([46] : str).
  change (46 :: fraction ++ tail)%list with ([46] ++ (fraction ++ tail))%list.
  rewrite exec_lit. cbn [exec rest].
  apply (iterate_greedy is_digit); [reflexivity|exact Ht|exact Df|rewrite length_app; lia| |].
  { destruct fraction; [congruence|simpl; lia]. }
  cbn [last_seen].
  rewrite (StrictFacts.consumed_is _ _ (whole ++ 46 :: fraction)%list);
    [exact Hk|].
  cbn [rest]. rewrite <- app_assoc. reflexivity.
Qed.

Lemma consumed_is_run (b : option Z) (xs t : str) :
  consumed {| before := b; rest := (xs ++ t)%list |}
    {| before := last_seen b xs; rest := t |} = xs.
Proof. apply StrictFacts.consumed_is. reflexivity. Qed.

(** A text is a run of the class followed by a text the class stops
    at. *)
Lemma span_run (p : Z -> bool) (l : str) :
  exists xs t, l = (xs ++ t)%list /\ Forall (fun c => p c = true) xs /\ stops p t.
Proof.
  induction l as [|x l IH].
  - exists [], []. repeat split. constructor.
  - destruct (p x) eqn:E.
    + destruct IH as (xs & t & -> & F & S). exists (x :: xs), t.
      repeat split; [constructor; assumption|exact S].
    + exists [], (x :: l). repeat split; [constructor|exact E].
Qed.

Lemma filter_run (p : Z -> bool) (xs t : str) :
  Forall (fun c => p c = true) xs ->
  filter (fun c => negb (p c)) (xs ++ t) = filter (fun c => negb (p c)) t.
Proof.
  induction 1 as [|x xs Hx _ IH]; simpl; [reflexivity|]. rewrite Hx. exact IH.
Qed.

(** Taking out every run of one class leaves the characters that are
    not of the class. *)
Lemma remove_runs (p : Z -> bool) (n : nat) :
  forall fuel c,
    (length (rest c) < fuel)%nat ->
    remove_from fuel {| expr := Plus (Char p); ngroups := n |} c
    = filter (fun x => negb (p x)) (rest c).
Proof.
  induction fuel as [|fuel IH]; intros [b r] Hf; [simpl in Hf; lia|].
  destruct r as [|x t]; [reflexivity|].
  cbn [remove_from rest]. cbn [rest length] in Hf.
  destruct (p x) eqn:E.
  - destruct (span_run p t) as (xs & t' & -> & F & S).
    assert (M : match_at {| expr := Plus (Char p); ngroups := n |}
                  {| before := b; rest := x :: (xs ++ t')%list |}
                = Some ({| group0 := consumed {| before := b; rest := x :: (xs ++ t')%list |}
                                       {| before := last_seen b (x :: xs); rest := t' |};
                           groups := repeat None n |},
                        {| before := last_seen b (x :: xs); rest := t' |})).
    { unfold match_at, Plus. cbn [expr ngroups exec rest].
      change (x :: (xs ++ t')%list) with ((x :: xs) ++ t')%list.
      apply (iterate_greedy p);
        [reflexivity|exact S|constructor; assumption| | |reflexivity];
        rewrite ?length_app; simpl; lia. }
    rewrite M.
    assert (P : progressed {| before := b; rest := x :: (xs ++ t')%list |}
                  {| before := last_seen b (x :: xs); rest := t' |} = true)
      by (unfold progressed; cbn [rest length]; rewrite length_app;
          apply Nat.ltb_lt; lia).
    rewrite P, IH by (cbn [rest]; rewrite length_app in Hf; lia).
    cbn [rest filter]. rewrite E. cbn [negb]. symmetry. apply filter_run. exact F.
  - assert (M : match_at {| expr := Plus (Char p); ngroups := n |}
                  {| before := b; rest := x :: t |} = None).
    { unfold match_at, Plus. cbn [expr ngroups exec rest iterate more].
      rewrite E. reflexivity. }
    rewrite M, IH by (cbn [rest]; lia).
    cbn [rest filter]. rewrite E. reflexivity.
Qed.

(** Repetition of a class fails when the rest of the pattern fails
    wherever the repetition can stop. *)
Lemma iterate_fails {A} (p : Z -> bool) (lo : nat)
    (body : cursor -> captures -> (cursor -> captures -> option A) -> option A)
    (k : cursor -> captures -> option A) (g : captures) :
  (forall c' g' k', body c' g' k' = exec (Char p) c' g' k') ->
  forall fuel n b t,
    (forall ys zs, t = (ys ++ zs)%list -> Forall (fun c => p c = true) ys ->
                   k {| before := last_seen b ys; rest := zs |} g = None) ->
    iterate body lo None k fuel n {| before := b; rest := t |} g = None.
Proof.
  intros Hbody. induction fuel as [|fuel IH]; intros n b t H.
  - cbn [iterate]. destruct (lo <=? n)%nat; [|reflexivity].
    apply (H [] t eq_refl). constructor.
  - assert (Hstop : (if (lo <=? n)%nat then k {| before := b; rest := t |} g else None)
                    = None).
    { destruct (lo <=? n)%nat; [|reflexivity]. apply (H [] t eq_refl). constructor. }
    cbn [iterate more]. rewrite Hbody. cbn [exec rest].
    destruct t as [|y t]; [exact Hstop|].
    destruct (p y) eqn:E; [|exact Hstop].
    assert (Hpr : progressed {| before := b; rest := y :: t |}
                    {| before := Some y; rest := t |} = true)
      by (unfold progressed; simpl; apply Nat.ltb_lt; lia).
    rewrite Hpr. cbn [orb].
    rewrite IH; [exact Hstop|].
    intros ys zs -> F. apply (H (y :: ys) zs eq_refl). constructor; assumption.
Qed.

(** Greedy repetition of a class gives back what it took: the match is
    the one after [xs] when the rest of the pattern matches there and
    after no longer run. *)
Lemma iterate_backtrack {A} (p : Z -> bool) (lo : nat)
    (body : cursor -> captures -> (cursor -> captures -> option A) -> option A)
    (k : cursor -> captures -> option A) (t : str) (g : captures) (x : A) :
  (forall c' g' k', body c' g' k' = exec (Char p) c' g' k') ->
  forall xs fuel n b,
    Forall (fun c => p c = true) xs ->
    (length xs < fuel)%nat ->
    (lo <= n + length xs)%nat ->
    k {| before := last_seen b xs; rest := t |} g = Some x ->
    (forall ys zs, t = (ys ++ zs)%list -> ys <> [] -> Forall (fun c => p c = true) ys ->
                   k {| before := last_seen b (xs ++ ys); rest := zs |} g = None) ->
    iterate body lo None k fuel n {| before := b; rest := (xs ++ t)%list |} g = Some x.
Proof.
  intros Hbody. induction xs as [|y xs IH]; intros fuel n b Hp Hf Hlo Hk Hn.
  - destruct fuel as [|fuel]; [simpl in Hf; lia|].
    cbn [iterate more app]. rewrite Hbody. cbn [exec rest].
    assert (Hle : (lo <=? n)%nat = true) by (apply Nat.leb_le; simpl in Hlo; lia).
    rewrite Hle. simpl in Hk.
    destruct t as [|z t]; [exact Hk|].
    destruct (p z) eqn:E; [|exact Hk].
    assert (Hpr : progressed {| before := b; rest := z :: t |}
                    {| before := Some z; rest := t |} = true)
      by (unfold progressed; simpl; apply Nat.ltb_lt; lia).
    rewrite Hpr. cbn [orb].
    rewrite (iterate_fails p lo body k g Hbody); [exact Hk|].
    intros ys zs -> F. apply (Hn (z :: ys) zs eq_refl); [discriminate|].
    constructor; assumption.
  - destruct fuel as [|fuel]; [simpl in Hf; lia|].
    apply Forall_cons_iff in Hp. destruct Hp as [Hy Hxs].
    cbn [iterate more app]. rewrite Hbody. cbn [exec rest]. rewrite Hy.
    assert (Hpr : progressed {| before := b; rest := y :: (xs ++ t)%list |}
                    {| before := Some y; rest := (xs ++ t)%list |} = true)
      by (unfold progressed; simpl; apply Nat.ltb_lt; lia).
    rewrite Hpr. cbn [orb].
    rewrite (IH fuel (S n) (Some y) Hxs); [reflexivity| | |exact Hk|exact Hn];
      simpl in Hf, Hlo; lia.
Qed.

(** The search goes over a text in which no match can start. *)
Lemma finditer_from_skip (p : Pattern) (q : Z -> bool) :
  (forall b y t, q y = false -> match_at p {| before := b; rest := y :: t |} = None) ->
  forall pre fuel b t,
    Forall (fun y => q y = false) pre ->
    finditer_from (length pre + fuel) p {| before := b; rest := (pre ++ t)%list |}
    = finditer_from fuel p {| before := last_seen b pre; rest := t |}.
Proof.
  intros Hq. induction pre as [|y pre IH]; intros fuel b t F; [reflexivity|].
  apply Forall_cons_iff in F. destruct F as [Hy F].
  cbn [length Nat.add finditer_from app]. rewrite (Hq _ _ _ Hy).
  cbn [step rest last_seen]. apply IH. exact F.
Qed.

(** A possessive repetition of a class in a group takes the whole run
    of the class and gives nothing back. *)
Lemma exec_possessive_group {A} (p : Z -> bool) (n : nat) (b : option Z) (xs t : str)
    (g : captures) (k : cursor -> captures -> option A) :
  Forall (fun c => p c = true) xs ->
  stops p t ->
  exec (Group n (Possessive (Star (Char p))))
    {| before := b; rest := (xs ++ t)%list |} g k
  = k {| before := last_seen b xs; rest := t |} (set_capture (pred n) xs g).
Proof.
  intros Hp Ht. unfold Star. cbn [exec rest].
  rewrite (iterate_greedy p 0 _ _ t g ({| before := last_seen b xs; rest := t |}, g));
    [|reflexivity|exact Ht|exact Hp|rewrite length_app; lia|lia|reflexivity].
  rewrite (consumed_is_run b xs t). reflexivity.
Qed.

(** A match at the place the search has reached is the first one it
    finds. *)
Lemma finditer_from_found (p : Pattern) (fuel : nat) (c c' : cursor) (m : Match) :
  match_at p c = Some (m, c') ->
  exists ms, finditer_from (S fuel) p c = m :: ms.
Proof. intros H. cbn [finditer_from]. rewrite H. eauto. Qed.

End Exec.
End ExecFacts.

(** X11. The amount rule of DoorDash finds the amount of every line that
    is "Total Charged ", a currency symbol, digits, a point and digits,
    with a word boundary after them and no further digit, when the
    point is no digit of the character tables: [parse_amount] then adds
    the digits with the point to the total. *)
Theorem doordash_amount_found `{U : Unicode} (self : DoorDashReceipt.t)
    (x : Z) (whole fraction tail : str) :
  Sc x = true ->
  Forall (fun c => is_digit c = true) whole ->
  Forall (fun c => is_digit c = true) fraction ->
  whole <> [] -> fraction <> [] ->
  is_digit 46 = false ->
  ReStrict.stops is_digit tail ->
  xorb (Re.word_at (ReStrict.last_seen (Some 46) fraction))
       (Re.word_at (hd_error tail)) = true ->
  Re.findall1 DoorDashReceipt.regex_total
    (py "Total Charged " ++ x :: whole ++ 46 :: fraction ++ tail)%list
  = [(whole ++ 46 :: fraction)%list]
  /\ DoorDashReceipt.parse_amount self
       (py "Total Charged " ++ x :: whole ++ 46 :: fraction ++ tail)%list
     = (amount <- Decimal.of_str (whole ++ 46 :: fraction) ;;
        total <- Decimal.add (DoorDashReceipt.cost_total self) amount ;;
        Return (DoorDashReceipt.set_cost_total self total)).
Proof.
  intros Sx Dw Df Nw Nf Hp Ht Hb.
  assert (E : exists m c',
             Re.match_at DoorDashReceipt.regex_total
               (Re.start (py "Total Charged " ++ x :: whole ++ 46 :: fraction ++ tail)%list)
             = Some (m, c')
             /\ Re.groups m = [Some (whole ++ 46 :: fraction)%list]).
  { unfold Re.match_at, DoorDashReceipt.regex_total, Re.start, Re.currency.
    cbn [Re.expr Re.ngroups Re.Seq repeat]. cbn [Re.exec Re.before].
    rewrite ExecFacts.exec_lit. cbn [Re.exec Re.rest]. rewrite Sx.
    eexists. eexists. split.
    - apply ExecFacts.exec_decimal_group; try assumption.
      cbn [Re.before Re.rest]. rewrite Hb. reflexivity.
    - reflexivity. }
  destruct E as (m & c' & E & Hg).
  assert (Hf : Re.findall1 DoorDashReceipt.regex_total
                 (py "Total Charged " ++ x :: whole ++ 46 :: fraction ++ tail)%list
               = [(whole ++ 46 :: fraction)%list]).
  { unfold Re.findall1.
    rewrite (StrictFacts.finditer_anchored DoorDashReceipt.regex_total _ _ eq_refl), E.
    cbn [map]. unfold Re.group_text, Re.group. rewrite Hg. reflexivity. }
  split; [exact Hf|].
  unfold DoorDashReceipt.parse_amount. rewrite Hf. reflexivity.
Qed.

Lemma doordash_amount_found_witness :
  @Re.findall1 latin1 (@DoorDashReceipt.regex_total latin1)
    (py "Total Charged " ++ 36 :: py "12" ++ 46 :: py "50" ++ py " thanks")%list
  = [(py "12" ++ 46 :: py "50")%list].
Proof.
  apply (@doordash_amount_found latin1 (DoorDashReceipt.new []) 36
           (py "12") (py "50") (py " thanks"));
    try reflexivity; try discriminate; repeat constructor.
Defined.

(** X12. The amount rule of Deliveroo finds the amount of every line
    that is two white-space characters, "Total", white space, a currency
    symbol that is no white space, digits, a point that is no digit and
    digits, up to the end of the line (or one line feed before it):
    [parse_amount] then adds the digits with the point to the total. *)
Theorem deliveroo_amount_found `{U : Unicode} (self : DeliverooReceipt.t)
    (indent gap : str) (x : Z) (whole fraction tail : str) :
  length indent = 2%nat ->
  Forall (fun c => White_Space c = true) indent ->
  Forall (fun c => White_Space c = true) gap -> gap <> [] ->
  Sc x = true -> White_Space x = false ->
  Forall (fun c => is_digit c = true) whole ->
  Forall (fun c => is_digit c = true) fraction ->
  whole <> [] -> fraction <> [] ->
  is_digit 46 = false ->
  ReStrict.stops is_digit tail ->
  tail = [] \/ tail = [10] ->
  Re.findall1 DeliverooReceipt.regex_total
    (indent ++ py "Total" ++ gap ++ x :: whole ++ 46 :: fraction ++ tail)%list
  = [(whole ++ 46 :: fraction)%list]
  /\ DeliverooReceipt.parse_amount self
       (indent ++ py "Total" ++ gap ++ x :: whole ++ 46 :: fraction ++ tail)%list
     = (amount <- Decimal.of_str (whole ++ 46 :: fraction) ;;
        total <- Decimal.add (DeliverooReceipt.cost_total self) amount ;;
        Return (DeliverooReceipt.set_cost_total self total)).
Proof.
  intros Li Wi Wg Ng Sx Wx Dw Df Nw Nf Hp Ht He.
  assert (E : exists m c',
             Re.match_at DeliverooReceipt.regex_total
               (Re.start (indent ++ py "Total" ++ gap ++ x :: whole ++ 46 :: fraction
                          ++ tail)%list)
             = Some (m, c')
             /\ Re.groups m = [Some (whole ++ 46 :: fraction)%list]).
  { unfold Re.match_at, DeliverooReceipt.regex_total, Re.start, Re.currency, Re.Times,
      Re.Plus, Re.s.
    cbn [Re.expr Re.ngroups Re.Seq repeat]. cbn [Re.exec Re.before Re.rest].
    rewrite (ExecFacts.iterate_exact White_Space);
      [|reflexivity|exact Wi|lia|rewrite Li; reflexivity].
    rewrite ExecFacts.exec_lit.
    eexists. eexists. split.
    - apply (ExecFacts.iterate_greedy White_Space);
        [reflexivity|exact Wx|exact Wg|cbn [Re.rest]; rewrite length_app; lia| |].
      { destruct gap; [congruence|simpl; lia]. }
      cbn [Re.exec Re.rest]. rewrite Sx.
      apply ExecFacts.exec_decimal_group; try assumption.
      cbn [Re.before Re.rest].
      destruct He as [-> | ->]; reflexivity.
    - reflexivity. }
  destruct E as (m & c' & E & Hg).
  assert (Hf : Re.findall1 DeliverooReceipt.regex_total
                 (indent ++ py "Total" ++ gap ++ x :: whole ++ 46 :: fraction
                  ++ tail)%list
               = [(whole ++ 46 :: fraction)%list]).
  { unfold Re.findall1.
    rewrite (StrictFacts.finditer_anchored DeliverooReceipt.regex_total _ _ eq_refl), E.
    cbn [map]. unfold Re.group_text, Re.group. rewrite Hg. reflexivity. }
  split; [exact Hf|].
  unfold DeliverooReceipt.parse_amount. rewrite Hf. reflexivity.
Qed.

Lemma deliveroo_amount_found_witness :
  @Re.findall1 latin1 (@DeliverooReceipt.regex_total latin1)
    (py "  " ++ py "Total" ++ py "   " ++ 36 :: py "7" ++ 46 :: py "05" ++ [])%list
  = [(py "7" ++ 46 :: py "05")%list].
Proof.
  apply (@deliveroo_amount_found latin1 (DeliverooReceipt.new []) (py "  ") (py "   ") 36
           (py "7") (py "05") []);
    try reflexivity; try discriminate; try (left; reflexivity); repeat constructor.
Defined.

(** ** The line separator of a DeliverooReceipt *)

Lemma deliveroo_init_message_separator (self s1 : DeliverooReceipt.t) (o : Obj) :
  DeliverooReceipt.init_message self o = Return s1 ->
  DeliverooReceipt.line_seperator s1
  = if switches_to_crlf o then CRLF else DeliverooReceipt.line_seperator self.
Proof.
  unfold DeliverooReceipt.init_message, switches_to_crlf.
  destruct o as [| | |m|m parts|]; simpl; try discriminate;
    (destruct (Content_Type m) as [ct|]; [|discriminate]);
    destruct (Content_Transfer_Encoding m) as [enc|]; simpl;
    destruct (startswith ct (py "text/plain")); simpl;
    try discriminate; try (intros [= <-]; reflexivity);
    (destruct (startswith enc (py "quoted-printable")); simpl;
     [|intros [= <-]; reflexivity]);
    (destruct (Codec.decode_quoted_printable (as_string m)) as [text|]; [|discriminate]);
    simpl; destruct (isascii text); simpl; intros [= <-]; reflexivity.
Qed.

Lemma deliveroo_init_separator (l : list Obj) (self r : DeliverooReceipt.t) :
  for_each DeliverooReceipt.init_message l self = Return r ->
  DeliverooReceipt.line_seperator r
  = if existsb switches_to_crlf l then CRLF else DeliverooReceipt.line_seperator self.
Proof.
  revert self. induction l as [|o l IH]; intros self; simpl.
  - intros [= <-]. reflexivity.
  - destruct (DeliverooReceipt.init_message self o) as [s1|e] eqn:E; simpl; [|discriminate].
    intros H. rewrite (IH _ H), (deliveroo_init_message_separator _ _ _ E).
    destruct (switches_to_crlf o), (existsb switches_to_crlf l); reflexivity.
Qed.

(** X13. The line separator of a DeliverooReceipt is CRLF as soon as one
    text/plain part in quoted-printable decodes to a text that is not
    ASCII, whichever part the text of the body comes from in the end; it
    is the line feed when there is no such part. *)
Theorem deliveroo_separator_kept (email : AbstractEmail.t) (r : DeliverooReceipt.t) :
  DeliverooReceipt.init email = Return r ->
  DeliverooReceipt.line_seperator r
  = if existsb switches_to_crlf (AbstractEmail.multipart_messages email)
    then CRLF else LF.
Proof.
  unfold DeliverooReceipt.init. intros H.
  apply deliveroo_init_separator in H. exact H.
Qed.

Lemma deliveroo_separator_kept_witness :
  exists r, DeliverooReceipt.init cafe_then_total = Return r
            /\ DeliverooReceipt.body_as_str r
               = Some (as_string (plain_part (py "  Total  $18.90")))
            /\ DeliverooReceipt.line_seperator r = CRLF.
Proof.
  destruct (DeliverooReceipt.init cafe_then_total) as [r|e] eqn:E;
    [|vm_compute in E; discriminate].
  exists r. split; [reflexivity|]. split.
  - vm_compute in E. injection E as <-. reflexivity.
  - rewrite (deliveroo_separator_kept cafe_then_total r E). reflexivity.
Defined.

(** ** The text of an UberReceipt *)

Lemma encode_ascii (text : str) :
  Forall (fun c => ascii_char c = true) text -> Codec.encode text = Return text.
Proof.
  induction 1 as [|c text Hc _ IH]; simpl; [reflexivity|].
  rewrite IH. simpl.
  unfold ascii_char in Hc. apply andb_prop in Hc. destruct Hc as [_ Hc].
  assert (H : (c <? 128) = true) by (apply Z.ltb_lt; apply Z.leb_le in Hc; lia).
  rewrite H. reflexivity.
Qed.

(** X14. [UberReceipt] of [bak/parse.py] keeps the text of the body as
    it is unless the message is in quoted-printable and the text is not
    ASCII. Then the pattern takes out exactly the characters that are
    not ASCII, so encoding what is left cannot fail, and the text
    becomes what is left decoded from quoted-printable and UTF-8; the
    document searched for the amount is made from the text as it
    was. *)
Theorem uber_text_without_non_ascii `{U : Unicode} `{L : Library}
    (email : AbstractEmail.t) (content_type encoding text : str)
    (others : list (str * str * Obj)) (node : Node) (transfer_encoding : str) :
  AbstractEmail.body email = (content_type, encoding, Str text) :: others ->
  BeautifulSoup (Str text) = Return node ->
  item (AbstractEmail.email_data email) Content_Transfer_Encoding
  = Return (Some transfer_encoding) ->
  Re.sub_empty Bak.UberReceipt.re_ascii_chars text = filter ascii_char text
  /\ Codec.encode (filter ascii_char text) = Return (filter ascii_char text)
  /\ Bak.UberReceipt.init email
     = (body_as_str <-
          (if startswith transfer_encoding (py "quoted-printable") && negb (isascii text)
           then decoded <- Codec.decode (Codec.a2b_qp (filter ascii_char text)) ;;
                Return (Str decoded)
           else Return (Str text)) ;;
        Return {| Bak.UberReceipt.soup := node;
                  Bak.UberReceipt.email_data := AbstractEmail.email_data email;
                  Bak.UberReceipt.body := Str text;
                  Bak.UberReceipt.body_as_str := body_as_str;
                  Bak.UberReceipt.order_id := py "Unknown";
                  Bak.UberReceipt.cost_total := Decimal.zero;
                  Bak.UberReceipt.restaurant := py "Unknown" |}).
Proof.
  intros Hb Hs He.
  assert (H1 : Re.sub_empty Bak.UberReceipt.re_ascii_chars text = filter ascii_char text).
  { unfold Re.sub_empty, Bak.UberReceipt.re_ascii_chars.
    rewrite ExecFacts.remove_runs by (simpl; lia).
    apply filter_ext. intros c. unfold ascii_char. apply negb_involutive. }
  assert (H2 : Codec.encode (filter ascii_char text) = Return (filter ascii_char text)).
  { apply encode_ascii, Forall_forall. intros c Hc. apply filter_In in Hc. apply Hc. }
  split; [exact H1|]. split; [exact H2|].
  unfold Bak.UberReceipt.init, index. rewrite Hb. cbn [nth_error bind snd].
  rewrite Hs, He. cbn [bind attr_of Bak.UberReceipt.isascii_of Bak.UberReceipt.string_of].
  destruct (startswith transfer_encoding (py "quoted-printable")); [|reflexivity].
  destruct (isascii text); [reflexivity|].
  cbn [negb andb bind]. rewrite H1, H2. cbn [bind].
  destruct (Codec.decode _); reflexivity.
Qed.

Lemma uber_text_without_non_ascii_witness :
  fmap Bak.UberReceipt.body_as_str (@Bak.UberReceipt.init latin1 text_only uber_quoted_email)
  = Return (Str (py "Caf Luna = 1")).
Proof.
  rewrite (proj2 (proj2 (@uber_text_without_non_ascii latin1 text_only uber_quoted_email
                           (py "NA") (py "NA") uber_quoted_text []
                           (Tag (py "[document]") [Text uber_quoted_text])
                           (py "quoted-printable") eq_refl eq_refl eq_refl))).
  reflexivity.
Defined.

(** X15. [UberReceipt.parse_amount] of [bak/parse.py] has three
    outcomes. With no table cell that holds an amount it prints its
    notice and raises [IndexError]. Otherwise it looks at the first such
    cell only, which has one child: when the child is a tag, so that the
    amount is nested deeper, it raises [TypeError]; when the child is a
    text, the text holds a currency symbol, digits, a point and digits,
    and these digits with the point are added to the total. *)
Theorem uber_amount_cell `{U : Unicode} `{L : Library} (self : Bak.UberReceipt.t) :
  let cells :=
    Soup.find_all (Bak.UberReceipt.soup self) (py "td") Bak.UberReceipt.re_currency_sign in
  (cells = []
   /\ Bak.UberReceipt.parse_amount self = ([no_amount_notice], Raise IndexError))
  \/ (exists name inner_name inner others,
        cells = Tag name [Tag inner_name inner] :: others
        /\ Bak.UberReceipt.parse_amount self = ([], Raise TypeError))
  \/ (exists name text others pre x whole fraction tail,
        cells = Tag name [Text text] :: others
        /\ text = (pre ++ x :: whole ++ 46 :: fraction ++ tail)%list
        /\ Sc x = true
        /\ Forall (fun c => is_digit c = true) whole
        /\ Forall (fun c => is_digit c = true) fraction
        /\ whole <> [] /\ fraction <> []
        /\ Bak.UberReceipt.parse_amount self
           = ([], amount <- Decimal.of_str (whole ++ 46 :: fraction) ;;
                  total <- Decimal.add (Bak.UberReceipt.cost_total self) amount ;;
                  Return (Bak.UberReceipt.set_cost_total self total))).
Proof.
  intros cells. unfold Bak.UberReceipt.parse_amount. fold cells.
  destruct cells as [|first others] eqn:E; [left; split; reflexivity|right].
  assert (Hin : In first cells) by (rewrite E; left; reflexivity).
  unfold cells, Soup.find_all in Hin. apply filter_In in Hin. destruct Hin as [_ Hf].
  destruct first as [t|name contents]; [discriminate|].
  apply andb_prop in Hf. destruct Hf as [_ Hf].
  destruct contents as [|child [|second more]]; try discriminate.
  destruct child as [text|inner_name inner].
  - right. cbn [Soup.string] in Hf.
    destruct (Re.search Bak.UberReceipt.re_currency_sign text) as [m|] eqn:Es;
      [|discriminate].
    unfold Re.search, Re.finditer in Es.
    destruct (Re.finditer_from _ _ _) as [|m0 ms] eqn:Ef; [discriminate|].
    injection Es as ->.
    destruct (StrictFacts.finditer_from_head _ _ _ _ _ Ef) as (c0 & c1 & pre & Hm & Hpre).
    destruct (StrictFacts.match_at_holds _ _ _ _ Hm) as [Hh _].
    unfold Bak.UberReceipt.re_currency_sign in Hh.
    cbn [Re.expr Re.ngroups Re.Seq repeat] in Hh. cbn [ReStrict.Holds] in Hh.
    destruct Hh as (c2 & g2 & (x & Hx & Sx & _ & ->) & c3 & g3 & Hd & Hc & Hg & _).
    subst c3.
    destruct (StrictFacts.holds_decimal_group _ _ _ _ Hd)
      as (whole & fraction & H2 & Dw & Df & Nw & Nf & _ & Hcap).
    exists name, text, others, pre, x, whole, fraction, (Re.rest c1).
    repeat split; auto.
    + cbn [Re.start Re.rest] in Hpre. rewrite Hpre, Hx, H2. reflexivity.
    + cbn [length Nat.ltb Nat.leb ret pbind lift index nth_error bind Soup.contents app
             Bak.UberReceipt.search_node].
      unfold Re.search, Re.finditer. rewrite Ef. cbn [hd_error attr_of bind].
      unfold Re.group. rewrite Hg, Hcap. reflexivity.
  - left. exists name, inner_name, inner, others. split; reflexivity.
Qed.

(** X16. [UberReceipt.parse] of [takeout_calc/parse.py] searches the
    text of the body itself. A body that is no string raises
    [TypeError]; a text without an amount prints the notice and raises
    [IndexError]; otherwise the text holds a currency symbol, digits, a
    point and digits, these digits with the point are added to the
    amount, and then the restaurant is set to "Unknown" after the line
    of the TODO is printed, which happens only when the amount was
    added. *)
Theorem takeout_calc_uber_parse `{U : Unicode} (self : TakeoutCalc.UberReceipt.t) :
  ((forall text, TakeoutCalc.UberReceipt.body self <> Str text)
   /\ TakeoutCalc.UberReceipt.parse self = ([], Raise TypeError))
  \/ exists text,
       TakeoutCalc.UberReceipt.body self = Str text
       /\ ((Re.findall1 TakeoutCalc.UberReceipt.regex_total text = []
            /\ TakeoutCalc.UberReceipt.parse self = ([no_amount_notice], Raise IndexError))
           \/ exists pre x whole fraction tail,
                text = (pre ++ x :: whole ++ 46 :: fraction ++ tail)%list
                /\ Sc x = true
                /\ Forall (fun c => is_digit c = true) whole
                /\ Forall (fun c => is_digit c = true) fraction
                /\ whole <> [] /\ fraction <> []
                /\ TakeoutCalc.UberReceipt.parse self
                   = match (value <- Decimal.of_str (whole ++ 46 :: fraction) ;;
                            Decimal.add (TakeoutCalc.UberReceipt.amount self) value) with
                     | Return total =>
                         ([Line (py "TODO(MinuraIddamalgoda): Parse restaurant")],
                          Return (TakeoutCalc.UberReceipt.set_restaurant
                                    (TakeoutCalc.UberReceipt.set_amount self total)
                                    (py "Unknown")))
                     | Raise e => ([], Raise e)
                     end).
Proof.
  unfold TakeoutCalc.UberReceipt.parse, TakeoutCalc.UberReceipt.parse_amount.
  destruct (TakeoutCalc.UberReceipt.body self) as [| text | | | |] eqn:Eb;
    try (left; split; [intros ?; discriminate|reflexivity]).
  right. exists text. split; [reflexivity|].
  cbn [Bak.UberReceipt.string_of lift pbind].
  destruct (Re.findall1 TakeoutCalc.UberReceipt.regex_total text) as [|first others] eqn:Ef;
    [left; split; reflexivity|right].
  unfold Re.findall1, Re.finditer in Ef.
  destruct (Re.finditer_from _ _ _) as [|m ms] eqn:Ei; [discriminate|].
  cbn [map] in Ef. injection Ef as Ef _.
  destruct (StrictFacts.finditer_from_head _ _ _ _ _ Ei) as (c0 & c1 & pre & Hm & Hpre).
  destruct (StrictFacts.match_at_holds _ _ _ _ Hm) as [Hh _].
  unfold TakeoutCalc.UberReceipt.regex_total in Hh.
  cbn [Re.expr Re.ngroups Re.Seq repeat] in Hh. cbn [ReStrict.Holds] in Hh.
  destruct Hh as (c2 & g2 & (x & Hx & Sx & _ & ->) & c3 & g3 & Hd & Hc & Hg & _).
  subst c3.
  destruct (StrictFacts.holds_decimal_group _ _ _ _ Hd)
    as (whole & fraction & H2 & Dw & Df & Nw & Nf & _ & Hcap).
  assert (Hfirst : first = (whole ++ 46 :: fraction)%list)
    by (rewrite <- Ef; unfold Re.group_text, Re.group; rewrite Hg, Hcap; reflexivity).
  exists pre, x, whole, fraction, (Re.rest c1).
  repeat split; auto.
  - cbn [Re.start Re.rest] in Hpre. rewrite Hpre, Hx, H2. reflexivity.
  - rewrite Hfirst.
    cbn [length Nat.ltb Nat.leb ret pbind lift index nth_error bind app].
    destruct (Decimal.of_str (whole ++ 46 :: fraction)) as [value|e]; [|reflexivity].
    cbn [bind].
    destruct (Decimal.add (TakeoutCalc.UberReceipt.amount self) value); reflexivity.
Qed.

(** ** [parse] of DoorDashReceipt and DeliverooReceipt as a whole *)

Lemma fix_raises (x : Decimal.t) (e : Exception) :
  Decimal.fix_ x = Raise e -> e = DecimalOverflow.
Proof.
  unfold Decimal.fix_.
  destruct (Decimal.coef x =? 0); [discriminate|].
  destruct (_ >? Decimal.Etop); [intros [= <-]; reflexivity|].
  destruct (Decimal.exp x <? _); [|discriminate].
  destruct (if _ <? 0 then _ else _) as [c e'].
  destruct (if _ >? Decimal.prec then _ else _) as [coeff exp_min].
  destruct (exp_min >? Decimal.Etop); [intros [= <-]; reflexivity|discriminate].
Qed.

Lemma add_all_raises (amounts : list Decimal.t) (total : Decimal.t) (e : Exception) :
  for_each Decimal.add amounts total = Raise e -> e = DecimalOverflow.
Proof.
  revert total. induction amounts as [|amount amounts IH]; intros total; simpl;
    [discriminate|].
  destruct (Decimal.add total amount) as [total'|e'] eqn:E; simpl.
  - apply IH.
  - intros [= <-]. apply (fix_raises _ _ E).
Qed.

Lemma total_of_lines_raises `{U : Unicode} (lines : list str) (total : Decimal.t)
    (e : Exception) :
  (total_of_lines DoorDashReceipt.regex_total lines total = Raise e -> e = DecimalOverflow)
  /\ (total_of_lines DeliverooReceipt.regex_total lines total = Raise e
      -> e = DecimalOverflow).
Proof.
  destruct (ReFacts.amounts_convert lines) as ([a1 H1] & [a2 H2] & _).
  rewrite (total_of_lines_amounts _ _ _ total H1), (total_of_lines_amounts _ _ _ total H2).
  split; apply add_all_raises.
Qed.

Lemma total_of_lines_no_match `{U : Unicode} (pattern : Re.Pattern) (lines : list str)
    (total : Decimal.t) :
  Forall (fun line => Re.findall1 pattern line = []) lines ->
  total_of_lines pattern lines total = Return total.
Proof.
  unfold total_of_lines. induction 1 as [|line lines Hl _ IH]; simpl; [reflexivity|].
  unfold add_amount at 1. rewrite Hl. exact IH.
Qed.

Lemma doordash_fold_keeps `{U : Unicode} (lines : list str) (self : DoorDashReceipt.t) :
  let r := fold_left DoorDashReceipt.parse_order_id lines self in
  DoorDashReceipt.restaurant r = DoorDashReceipt.restaurant self
  /\ DoorDashReceipt.line_seperator r = DoorDashReceipt.line_seperator self
  /\ DoorDashReceipt.body_as_str r = DoorDashReceipt.body_as_str self
  /\ DoorDashReceipt.cost_total r = DoorDashReceipt.cost_total self.
Proof.
  revert self. induction lines as [|line lines IH]; intros self; simpl; [auto|].
  destruct (IH (DoorDashReceipt.parse_order_id self line)) as (H1 & H2 & H3 & H4).
  rewrite H1, H2, H3, H4. unfold DoorDashReceipt.parse_order_id.
  destruct (Re.findall2 DoorDashReceipt.regex_order_id line) as [|[u i] ?]; auto.
Qed.

Lemma deliveroo_restaurant_parse_names `{U : Unicode} (self : DeliverooReceipt.t)
    (line : str) :
  DeliverooReceipt.restaurant (parse_names self line)
  = match Re.findall2 DeliverooReceipt.regex_restaurant_name line with
    | (name, _) :: _ => name
    | [] => DeliverooReceipt.restaurant self
    end.
Proof.
  unfold parse_names, DeliverooReceipt.parse_order_id, DeliverooReceipt.parse_restaurant.
  destruct (Re.findall2 DeliverooReceipt.regex_restaurant_name line) as [|[name ?] ?];
    destruct (Re.findall1 DeliverooReceipt.regex_order_id line); reflexivity.
Qed.

Lemma deliveroo_fold_no_restaurant `{U : Unicode} (lines : list str)
    (self : DeliverooReceipt.t) :
  Forall (fun line => Re.findall2 DeliverooReceipt.regex_restaurant_name line = []) lines ->
  DeliverooReceipt.restaurant (fold_left parse_names lines self)
  = DeliverooReceipt.restaurant self.
Proof.
  intros H. revert self. induction H as [|line lines Hl _ IH]; intros self; simpl;
    [reflexivity|].
  rewrite IH, deliveroo_restaurant_parse_names, Hl. reflexivity.
Qed.

(** X17. The restaurant after [parse]. For a DeliverooReceipt it is the
    name captured from the last line that matches the pattern of the
    restaurant, every matching line assigning it anew, and the
    restaurant it had when no line matches. For a DoorDashReceipt no
    line changes the restaurant, nor the line separator or the text of
    the body. *)
Theorem restaurant_after_parse `{U : Unicode} :
  (forall (self r : DeliverooReceipt.t) (body : str) (before after : list str)
          (line name suffix : str) (others : list (str * str)),
     DeliverooReceipt.body_as_str self = Some body ->
     split body (DeliverooReceipt.line_seperator self) = (before ++ line :: after)%list ->
     Re.findall2 DeliverooReceipt.regex_restaurant_name line = (name, suffix) :: others ->
     Forall (fun l => Re.findall2 DeliverooReceipt.regex_restaurant_name l = []) after ->
     DeliverooReceipt.parse self = Return r ->
     DeliverooReceipt.restaurant r = name)
  /\ (forall (self r : DeliverooReceipt.t) (body : str),
        DeliverooReceipt.body_as_str self = Some body ->
        Forall (fun l => Re.findall2 DeliverooReceipt.regex_restaurant_name l = [])
          (split body (DeliverooReceipt.line_seperator self)) ->
        DeliverooReceipt.parse self = Return r ->
        DeliverooReceipt.restaurant r = DeliverooReceipt.restaurant self)
  /\ (forall self r : DoorDashReceipt.t,
        DoorDashReceipt.parse self = Return r ->
        DoorDashReceipt.restaurant r = DoorDashReceipt.restaurant self
        /\ DoorDashReceipt.line_seperator r = DoorDashReceipt.line_seperator self
        /\ DoorDashReceipt.body_as_str r = DoorDashReceipt.body_as_str self).
Proof.
  repeat split.
  - intros self r body before after line name suffix others Hb Hs Hm Ha.
    unfold DeliverooReceipt.parse. rewrite Hb. cbn [attr_of bind].
    rewrite DeliverooLines.deliveroo_parse_lines.
    destruct (total_of_lines _ _ _) as [total|e]; [|discriminate].
    cbn [bind]. intros [= <-].
    rewrite Hs, fold_left_app. cbn [fold_left DeliverooReceipt.restaurant
                                    DeliverooReceipt.set_cost_total].
    rewrite deliveroo_fold_no_restaurant by exact Ha.
    rewrite deliveroo_restaurant_parse_names, Hm. reflexivity.
  - intros self r body Hb Hn.
    unfold DeliverooReceipt.parse. rewrite Hb. cbn [attr_of bind].
    rewrite DeliverooLines.deliveroo_parse_lines.
    destruct (total_of_lines _ _ _) as [total|e]; [|discriminate].
    cbn [bind]. intros [= <-].
    cbn [DeliverooReceipt.restaurant DeliverooReceipt.set_cost_total].
    apply deliveroo_fold_no_restaurant. exact Hn.
  - revert H. unfold DoorDashReceipt.parse.
    destruct (DoorDashReceipt.body_as_str self) as [body|]; [|discriminate].
    cbn [attr_of bind]. rewrite DoorDashLines.doordash_parse_lines.
    destruct (total_of_lines _ _ _) as [total|e]; [|discriminate].
    cbn [bind]. intros [= <-]. apply doordash_fold_keeps.
  - revert H. unfold DoorDashReceipt.parse.
    destruct (DoorDashReceipt.body_as_str self) as [body|]; [|discriminate].
    cbn [attr_of bind]. rewrite DoorDashLines.doordash_parse_lines.
    destruct (total_of_lines _ _ _) as [total|e]; [|discriminate].
    cbn [bind]. intros [= <-]. apply doordash_fold_keeps.
  - revert H. unfold DoorDashReceipt.parse.
    destruct (DoorDashReceipt.body_as_str self) as [body|] eqn:Eb; [|discriminate].
    cbn [attr_of bind]. rewrite DoorDashLines.doordash_parse_lines.
    destruct (total_of_lines _ _ _) as [total|e]; [|discriminate].
    cbn [bind]. intros [= <-]. rewrite <- Eb. apply doordash_fold_keeps.
Qed.

Lemma restaurant_after_parse_witness :
  exists r, @DeliverooReceipt.parse latin1 (deliveroo_of deliveroo_text) = Return r
            /\ DeliverooReceipt.restaurant r = py "Luna Pizza".
Proof.
  destruct (@DeliverooReceipt.parse latin1 (deliveroo_of deliveroo_text)) as [r|e] eqn:E;
    [|vm_compute in E; discriminate].
  exists r. split; [reflexivity|].
  apply (proj1 (@restaurant_after_parse latin1) (deliveroo_of deliveroo_text) r
           (as_string (plain_part deliveroo_text)) header_lines
           [py "Your Receipt for Order #4711"; py "  Subtotal  $16.90";
            py "  Total  $18.90"; []]
           (py "Luna Pizza has your order!") (py "Luna Pizza") (py " has your order!") []);
    try exact E; try (vm_compute; reflexivity).
  repeat constructor.
Defined.

(** X18. [parse] of DoorDashReceipt and of DeliverooReceipt raises in
    two cases only: [AttributeError] when the receipt has no text, and
    the overflow of the decimal context when the amounts are added. What
    the patterns capture always converts to a decimal, and a text
    without any amount is no error. *)
Theorem receipt_parse_errors `{U : Unicode} :
  (forall (self : DoorDashReceipt.t) (e : Exception),
     DoorDashReceipt.parse self = Raise e ->
     (DoorDashReceipt.body_as_str self = None /\ e = AttributeError)
     \/ (DoorDashReceipt.body_as_str self <> None /\ e = DecimalOverflow))
  /\ (forall (self : DeliverooReceipt.t) (e : Exception),
        DeliverooReceipt.parse self = Raise e ->
        (DeliverooReceipt.body_as_str self = None /\ e = AttributeError)
        \/ (DeliverooReceipt.body_as_str self <> None /\ e = DecimalOverflow)).
Proof.
  split; intros self e.
  - unfold DoorDashReceipt.parse.
    destruct (DoorDashReceipt.body_as_str self) as [body|];
      [|intros [= <-]; left; split; reflexivity].
    cbn [attr_of bind]. rewrite DoorDashLines.doordash_parse_lines.
    destruct (total_of_lines _ _ _) as [total|e'] eqn:E; [discriminate|].
    cbn [bind]. intros [= <-]. right. split; [discriminate|].
    apply (proj1 (total_of_lines_raises _ _ _) E).
  - unfold DeliverooReceipt.parse.
    destruct (DeliverooReceipt.body_as_str self) as [body|];
      [|intros [= <-]; left; split; reflexivity].
    cbn [attr_of bind]. rewrite DeliverooLines.deliveroo_parse_lines.
    destruct (total_of_lines _ _ _) as [total|e'] eqn:E; [discriminate|].
    cbn [bind]. intros [= <-]. right. split; [discriminate|].
    apply (proj2 (total_of_lines_raises _ _ _) E).
Qed.

Lemma receipt_parse_errors_witness :
  (DoorDashReceipt.body_as_str (DoorDashReceipt.new []) = None
   /\ AttributeError = AttributeError)
  \/ (DoorDashReceipt.body_as_str (DoorDashReceipt.new []) <> None
      /\ AttributeError = DecimalOverflow).
Proof.
  apply (proj1 (@receipt_parse_errors latin1) (DoorDashReceipt.new []) AttributeError).
  reflexivity.
Defined.

Lemma deliveroo_fold_no_match `{U : Unicode} (lines : list str) (self : DeliverooReceipt.t) :
  Forall (fun l => Re.findall2 DeliverooReceipt.regex_restaurant_name l = []
                   /\ Re.findall1 DeliverooReceipt.regex_order_id l = []) lines ->
  fold_left parse_names lines self = self.
Proof.
  intros H. revert self. induction H as [|line lines [H1 H2] _ IH]; intros self; simpl;
    [reflexivity|].
  unfold parse_names at 2, DeliverooReceipt.parse_order_id,
    DeliverooReceipt.parse_restaurant.
  rewrite H1, H2. apply IH.
Qed.

(** X19. A text in which no line matches a pattern is no error for
    DoorDashReceipt and DeliverooReceipt: [parse] returns the receipt as
    it was, with the total, the order and the restaurant it had. *)
Theorem parse_without_match `{U : Unicode} :
  (forall (self : DoorDashReceipt.t) (body : str),
     DoorDashReceipt.body_as_str self = Some body ->
     Forall (fun l => Re.findall1 DoorDashReceipt.regex_total l = []
                      /\ Re.findall2 DoorDashReceipt.regex_order_id l = [])
       (split body (DoorDashReceipt.line_seperator self)) ->
     DoorDashReceipt.parse self = Return self)
  /\ (forall (self : DeliverooReceipt.t) (body : str),
        DeliverooReceipt.body_as_str self = Some body ->
        Forall (fun l => Re.findall1 DeliverooReceipt.regex_total l = []
                         /\ Re.findall2 DeliverooReceipt.regex_restaurant_name l = []
                         /\ Re.findall1 DeliverooReceipt.regex_order_id l = [])
          (split body (DeliverooReceipt.line_seperator self)) ->
        DeliverooReceipt.parse self = Return self).
Proof.
  split; intros self body Hb Hn.
  - unfold DoorDashReceipt.parse. rewrite Hb. cbn [attr_of bind].
    rewrite DoorDashLines.doordash_parse_lines.
    rewrite total_of_lines_no_match
      by (eapply Forall_impl; [|exact Hn]; intros l [H _]; exact H).
    cbn [bind].
    rewrite DoorDashLines.doordash_fold_no_order
      by (eapply Forall_impl; [|exact Hn]; intros l [_ H]; exact H).
    now rewrite DoorDashLines.doordash_set_cost_total_same.
  - unfold DeliverooReceipt.parse. rewrite Hb. cbn [attr_of bind].
    rewrite DeliverooLines.deliveroo_parse_lines.
    rewrite total_of_lines_no_match
      by (eapply Forall_impl; [|exact Hn]; intros l [H _]; exact H).
    cbn [bind].
    rewrite deliveroo_fold_no_match
      by (eapply Forall_impl; [|exact Hn]; intros l [_ H]; exact H).
    now rewrite DeliverooLines.deliveroo_set_cost_total_same.
Qed.

Lemma parse_without_match_witness :
  @DoorDashReceipt.parse latin1 (doordash_of (py "Thanks for your order"))
  = Return (doordash_of (py "Thanks for your order")).
Proof.
  apply (proj1 (@parse_without_match latin1) (doordash_of (py "Thanks for your order"))
           (as_string (plain_part (py "Thanks for your order"))) eq_refl).
  vm_compute. repeat constructor.
Defined.

(** X20. The restaurant rule of Deliveroo matches every line that is a
    name without line feed followed by " has your order!" and the end
    of the line (or one line feed before it): the pattern first takes
    the whole line as the name and gives back the last sixteen
    characters, and [parse_restaurant] sets the restaurant to the name
    before them. *)
Theorem deliveroo_restaurant_found `{U : Unicode} (self : DeliverooReceipt.t)
    (name tail : str) :
  Forall (fun c => c <> 10) name ->
  tail = [] \/ tail = [10] ->
  Re.findall2 DeliverooReceipt.regex_restaurant_name
    (name ++ py " has your order!" ++ tail)%list
  = [(name, py " has your order!")]
  /\ DeliverooReceipt.parse_restaurant self (name ++ py " has your order!" ++ tail)%list
     = DeliverooReceipt.set_restaurant self name.
Proof.
  intros Hn Ht.
  assert (E : exists m c',
             Re.match_at DeliverooReceipt.regex_restaurant_name
               (Re.start (name ++ py " has your order!" ++ tail)%list) = Some (m, c')
             /\ Re.groups m = [Some name; Some (py " has your order!")]).
  { unfold Re.match_at, DeliverooReceipt.regex_restaurant_name, Re.start, Re.Star, Re.dot.
    cbn [Re.expr Re.ngroups Re.Seq repeat]. cbn [Re.exec Re.before Re.rest].
    eexists. eexists. split.
    { apply (ExecFacts.iterate_backtrack (fun c => negb (c =? 10))).
      - reflexivity.
      - eapply Forall_impl; [|exact Hn]. intros c Hc. cbn beta.
        destruct (Z.eqb_spec c 10); [contradiction|reflexivity].
      - rewrite length_app. lia.
      - lia.
      - cbn beta. rewrite ExecFacts.exec_lit.
        rewrite (StrictFacts.consumed_is
                   {| Re.before := None;
                      Re.rest := (name ++ py " has your order!" ++ tail)%list |}
                   {| Re.before := ReStrict.last_seen None name;
                      Re.rest := (py " has your order!" ++ tail)%list |} name)
          by reflexivity.
        rewrite (StrictFacts.consumed_is
                   {| Re.before := ReStrict.last_seen None name;
                      Re.rest := (py " has your order!" ++ tail)%list |}
                   {| Re.before := ReStrict.last_seen (ReStrict.last_seen None name)
                                     (py " has your order!");
                      Re.rest := tail |} (py " has your order!"))
          by reflexivity.
        cbn [Re.rest pred Re.set_capture].
        destruct Ht as [-> | ->]; reflexivity.
      - intros ys zs Hs Hy _.
        match goal with |- ?lhs = None => destruct lhs as [a|] eqn:Ek end; [|reflexivity].
        exfalso.
        destruct (StrictFacts.exec_holds _ _ _ _ _ _ Ek) as (c1 & g1 & Hl & Hk).
        destruct (StrictFacts.holds_lit _ _ _ _ _ Hl) as (Hz & _).
        cbn [Re.rest] in Hz, Hk. rewrite Hz in Hs.
        assert (L := f_equal (@length Z) Hs). rewrite !length_app in L.
        destruct (Re.rest c1) as [|z [|z' more]]; [| |discriminate].
        + destruct Ht as [-> | ->]; cbn [length] in L.
          * destruct ys; [congruence|simpl in L; lia].
          * destruct ys as [|y [|y' ys]]; [congruence| |simpl in L; lia].
            vm_compute in Hs. discriminate.
        + destruct Ht as [-> | ->]; cbn [length] in L.
          * destruct ys; [congruence|simpl in L; lia].
          * destruct ys; [congruence|simpl in L; lia]. }
    reflexivity. }
  destruct E as (m & c' & E & Hg).
  assert (Hf : Re.findall2 DeliverooReceipt.regex_restaurant_name
                 (name ++ py " has your order!" ++ tail)%list
               = [(name, py " has your order!")]).
  { unfold Re.findall2.
    rewrite (StrictFacts.finditer_anchored DeliverooReceipt.regex_restaurant_name _ _
               eq_refl), E.
    cbn [map]. unfold Re.group_text, Re.group. rewrite Hg. reflexivity. }
  split; [exact Hf|].
  unfold DeliverooReceipt.parse_restaurant. rewrite Hf. reflexivity.
Qed.

Lemma deliveroo_restaurant_found_witness :
  @Re.findall2 latin1 DeliverooReceipt.regex_restaurant_name
    (py "Luna Pizza" ++ py " has your order!" ++ [])%list
  = [(py "Luna Pizza", py " has your order!")].
Proof.
  apply (@deliveroo_restaurant_found latin1 (DeliverooReceipt.new []) (py "Luna Pizza") []).
  - vm_compute. repeat constructor; discriminate.
  - left. reflexivity.
Defined.

(** ** Lines that name an order *)

Lemma last_seen_run (b b' : option Z) (xs : str) :
  xs <> [] -> ReStrict.last_seen b xs = ReStrict.last_seen b' xs.
Proof. destruct xs; [congruence|reflexivity]. Qed.

(** X21. The order rule of Deliveroo finds the order in every line that
    holds "Your Receipt for Order #" with no "Y" before it, followed by
    digits that end at a word boundary: [parse_order_id] sets the order
    id to these digits, whatever follows them. *)
Theorem deliveroo_order_found `{U : Unicode} (self : DeliverooReceipt.t)
    (pre digits tail : str) :
  Forall (fun c => c <> 89) pre ->
  Forall (fun c => is_digit c = true) digits -> digits <> [] ->
  ReStrict.stops is_digit tail ->
  xorb (Re.word_at (ReStrict.last_seen (Some 35) digits)) (Re.word_at (hd_error tail))
  = true ->
  (exists others,
     Re.findall1 DeliverooReceipt.regex_order_id
       (pre ++ py "Your Receipt for Order #" ++ digits ++ tail)%list
     = digits :: others)
  /\ DeliverooReceipt.parse_order_id self
       (pre ++ py "Your Receipt for Order #" ++ digits ++ tail)%list
     = DeliverooReceipt.set_order_id self digits.
Proof.
  intros Hpre Hd Nd Ht Hb.
  assert (Hq : forall b y t,
             (89 =? y) = false ->
             Re.match_at DeliverooReceipt.regex_order_id
               {| Re.before := b; Re.rest := y :: t |} = None).
  { intros b y t Hy. unfold Re.match_at, DeliverooReceipt.regex_order_id.
    cbn [Re.expr Re.ngroups Re.Seq repeat].
    change (py "Your Receipt for Order #") with (89 :: py "our Receipt for Order #").
    cbn [Re.Lit Re.exec Re.rest]. rewrite Hy. reflexivity. }
  assert (E : forall b, exists m c',
             Re.match_at DeliverooReceipt.regex_order_id
               {| Re.before := b;
                  Re.rest := (py "Your Receipt for Order #" ++ digits ++ tail)%list |}
             = Some (m, c')
             /\ Re.groups m = [Some digits]).
  { intros b. unfold Re.match_at, DeliverooReceipt.regex_order_id, Re.Plus, Re.d.
    cbn [Re.expr Re.ngroups Re.Seq repeat]. cbn [Re.exec].
    rewrite ExecFacts.exec_lit. cbn [Re.rest].
    eexists. eexists. split.
    { apply (ExecFacts.iterate_greedy is_digit);
        [reflexivity|exact Ht|exact Hd|rewrite length_app; lia| |].
      { destruct digits; [congruence|simpl; lia]. }
      cbn [Re.before Re.rest]. rewrite (last_seen_run _ (Some 35) digits Nd), Hb.
      reflexivity. }
    cbn [Re.groups pred Re.set_capture]. f_equal. f_equal.
    apply StrictFacts.consumed_is. reflexivity. }
  assert (Hf : exists others,
             Re.findall1 DeliverooReceipt.regex_order_id
               (pre ++ py "Your Receipt for Order #" ++ digits ++ tail)%list
             = digits :: others).
  { unfold Re.findall1, Re.finditer, Re.start.
    replace (S (length (pre ++ py "Your Receipt for Order #" ++ digits ++ tail)))
      with (length pre + S (length (py "Your Receipt for Order #" ++ digits ++ tail)))%nat
      by (rewrite (length_app pre); lia).
    rewrite (ExecFacts.finditer_from_skip _ (fun y => 89 =? y) Hq).
    - destruct (E (ReStrict.last_seen None pre)) as (m & c' & Hm & Hg).
      destruct (ExecFacts.finditer_from_found _
                  (length (py "Your Receipt for Order #" ++ digits ++ tail)) _ _ _ Hm)
        as [ms ->].
      cbn [map]. exists (map (fun m0 => Re.group_text m0 1) ms). f_equal.
      unfold Re.group_text, Re.group. rewrite Hg. reflexivity.
    - eapply Forall_impl; [|exact Hpre]. intros c Hc. cbn beta.
      destruct (Z.eqb_spec 89 c); [congruence|reflexivity]. }
  split; [exact Hf|].
  destruct Hf as [others Hf].
  unfold DeliverooReceipt.parse_order_id. rewrite Hf. reflexivity.
Qed.

Lemma deliveroo_order_found_witness :
  @DeliverooReceipt.parse_order_id latin1 (DeliverooReceipt.new [])
    (py "Hello! " ++ py "Your Receipt for Order #" ++ py "4711" ++ py " is here")%list
  = DeliverooReceipt.set_order_id (DeliverooReceipt.new []) (py "4711").
Proof.
  apply (@deliveroo_order_found latin1 (DeliverooReceipt.new []) (py "Hello! ") (py "4711")
           (py " is here"));
    try reflexivity; try discriminate;
    vm_compute; repeat constructor; discriminate.
Defined.

(** X22. The order rule of DoorDash finds the order in every line that
    holds, with no "<" before it, "<https://www.doordash.com/orders/",
    five groups of 8, 4, 4, 4 and 12 word characters with dashes between
    them, and "/>": [parse_order_id] sets the url to the address
    between the brackets without the last slash and the order id to the
    five groups with their dashes. *)
Theorem doordash_order_found `{U : Unicode} (self : DoorDashReceipt.t)
    (pre a b c d e tail : str) :
  Forall (fun x => x <> 60) pre ->
  Forall (fun x => Word x = true) a -> length a = 8%nat ->
  Forall (fun x => Word x = true) b -> length b = 4%nat ->
  Forall (fun x => Word x = true) c -> length c = 4%nat ->
  Forall (fun x => Word x = true) d -> length d = 4%nat ->
  Forall (fun x => Word x = true) e -> length e = 12%nat ->
  DoorDashReceipt.parse_order_id self
    (pre ++ py "<" ++ py "https://www.doordash.com/orders/" ++ dashed a b c d e
     ++ py "/>" ++ tail)%list
  = DoorDashReceipt.set_order_id self
      (py "https://www.doordash.com/orders/" ++ dashed a b c d e)%list
      (dashed a b c d e).
Proof.
  intros Hpre Wa La Wb Lb Wc Lc Wd Ld We Le.
  assert (Hq : forall p y t,
             (60 =? y) = false ->
             Re.match_at DoorDashReceipt.regex_order_id
               {| Re.before := p; Re.rest := y :: t |} = None).
  { intros p y t Hy. unfold Re.match_at, DoorDashReceipt.regex_order_id.
    cbn [Re.expr Re.ngroups Re.Seq repeat].
    change (py "<") with [60].
    cbn [Re.Lit Re.exec Re.rest]. rewrite Hy. reflexivity. }
  assert (E : forall p, exists m c',
             Re.match_at DoorDashReceipt.regex_order_id
               {| Re.before := p;
                  Re.rest := (py "<" ++ py "https://www.doordash.com/orders/"
                              ++ dashed a b c d e ++ py "/>" ++ tail)%list |}
             = Some (m, c')
             /\ Re.groups m
                = [Some (py "https://www.doordash.com/orders/" ++ dashed a b c d e)%list;
                   Some (dashed a b c d e)]).
  { intros p. unfold Re.match_at, DoorDashReceipt.regex_order_id, Re.Times, Re.w, dashed.
    cbn [Re.expr Re.ngroups Re.Seq repeat]. cbn [Re.exec Re.rest].
    rewrite <- !app_assoc.
    rewrite !ExecFacts.exec_lit.
    rewrite (ExecFacts.iterate_exact Word 8);
      [|reflexivity|exact Wa|cbn [Re.rest]; rewrite length_app; lia
       |rewrite La; reflexivity].
    rewrite ExecFacts.exec_lit. cbn [Re.rest].
    rewrite (ExecFacts.iterate_exact Word 4);
      [|reflexivity|exact Wb|cbn [Re.rest]; rewrite length_app; lia
       |rewrite Lb; reflexivity].
    rewrite ExecFacts.exec_lit. cbn [Re.rest].
    rewrite (ExecFacts.iterate_exact Word 4);
      [|reflexivity|exact Wc|cbn [Re.rest]; rewrite length_app; lia
       |rewrite Lc; reflexivity].
    rewrite ExecFacts.exec_lit. cbn [Re.rest].
    rewrite (ExecFacts.iterate_exact Word 4);
      [|reflexivity|exact Wd|cbn [Re.rest]; rewrite length_app; lia
       |rewrite Ld; reflexivity].
    rewrite ExecFacts.exec_lit. cbn [Re.rest].
    rewrite (ExecFacts.iterate_exact Word 12);
      [|reflexivity|exact We|cbn [Re.rest]; rewrite length_app; lia
       |rewrite Le; reflexivity].
    rewrite ExecFacts.exec_lit.
    eexists. eexists. split; [reflexivity|].
    cbn [Re.groups pred Re.set_capture]. f_equal; [|f_equal]; f_equal;
      apply StrictFacts.consumed_is; cbn [Re.rest]; rewrite <- ?app_assoc; reflexivity. }
  unfold DoorDashReceipt.parse_order_id, Re.findall2, Re.finditer, Re.start.
  set (found := (py "<" ++ py "https://www.doordash.com/orders/" ++ dashed a b c d e
                 ++ py "/>" ++ tail)%list) in *.
  replace (S (length (pre ++ found))) with (length pre + S (length found))%nat
    by (rewrite (length_app pre); lia).
  rewrite (ExecFacts.finditer_from_skip _ (fun y => 60 =? y) Hq).
  - destruct (E (ReStrict.last_seen None pre)) as (m & c' & Hm & Hg).
    destruct (ExecFacts.finditer_from_found _ (length found) _ _ _ Hm) as [ms ->].
    cbn [map]. unfold Re.group_text, Re.group. rewrite Hg. reflexivity.
  - eapply Forall_impl; [|exact Hpre]. intros x Hx. cbn beta.
    destruct (Z.eqb_spec 60 x); [congruence|reflexivity].
Qed.

Lemma doordash_order_found_witness :
  @DoorDashReceipt.parse_order_id latin1 (DoorDashReceipt.new [])
    (py "Order: " ++ py "<" ++ py "https://www.doordash.com/orders/"
     ++ dashed (py "11111111") (py "2222") (py "3333") (py "4444") (py "555555555555")
     ++ py "/>" ++ [])%list
  = DoorDashReceipt.set_order_id (DoorDashReceipt.new [])
      (py "https://www.doordash.com/orders/11111111-2222-3333-4444-555555555555")
      (py "11111111-2222-3333-4444-555555555555").
Proof.
  apply (@doordash_order_found latin1 (DoorDashReceipt.new []) (py "Order: ")
           (py "11111111") (py "2222") (py "3333") (py "4444") (py "555555555555") []);
    try reflexivity; vm_compute; repeat constructor; discriminate.
Defined.

(** ** The restaurant of an UberReceipt *)

(** X23. [UberReceipt.parse_restaurant] of [bak/parse.py]. A text that
    is no string raises [TypeError], and a text without a match leaves
    the receipt as it is. A match is white space, "You ordered from ",
    and a name that runs up to a line feed: the possessive repetition
    takes every character but the line feed, so that of the carriage
    return, the line feed and the bar the pattern asks for after the
    name only the line feed can follow, and a name on a last line
    without line feed is not found. The restaurant becomes the name
    without the white space at its end, unescaped. *)
Theorem uber_restaurant_rule `{U : Unicode} `{L : Library} (self : Bak.UberReceipt.t) :
  ((forall text, Bak.UberReceipt.body_as_str self <> Str text)
   /\ Bak.UberReceipt.parse_restaurant self = Raise TypeError)
  \/ exists text,
       Bak.UberReceipt.body_as_str self = Str text
       /\ ((Re.findall1 Bak.UberReceipt.re_restaurant_name text = []
            /\ Bak.UberReceipt.parse_restaurant self = Return self)
           \/ exists pre indent name tail,
                text = (pre ++ indent ++ py "You ordered from " ++ name ++ 10 :: tail)%list
                /\ Forall (fun c => White_Space c = true) indent /\ indent <> []
                /\ Forall (fun c => c <> 10) name
                /\ Bak.UberReceipt.parse_restaurant self
                   = Return (Bak.UberReceipt.set_restaurant self
                               (html_unescape (rstrip name)))).
Proof.
  unfold Bak.UberReceipt.parse_restaurant.
  destruct (Bak.UberReceipt.body_as_str self) as [| text | | | |] eqn:Eb;
    try (left; split; [intros ?; discriminate|reflexivity]).
  right. exists text. split; [reflexivity|].
  cbn [Bak.UberReceipt.string_of bind].
  destruct (Re.findall1 Bak.UberReceipt.re_restaurant_name text) as [|first others] eqn:Ef;
    [left; split; reflexivity|right].
  unfold Re.findall1, Re.finditer in Ef.
  destruct (Re.finditer_from _ _ _) as [|m ms] eqn:Ei; [discriminate|].
  cbn [map] in Ef. injection Ef as Ef _.
  destruct (StrictFacts.finditer_from_head _ _ _ _ _ Ei) as (c0 & c1 & pre & Hm & Hpre).
  cbn [Re.start Re.rest] in Hpre.
  unfold Re.match_at, Bak.UberReceipt.re_restaurant_name in Hm.
  cbn [Re.expr Re.ngroups Re.Seq repeat] in Hm.
  change (Re.exec (Re.Seq [Re.Bol true; Re.Plus Re.s; Re.Lit (py "You ordered from ")])
            c0 [None]
            (fun c' g' =>
               Re.exec (Re.Cat (Re.Group 1 (Re.Possessive (Re.Star Re.dot)))
                          (Re.Char (fun c => (c =? 13) || (c =? 10) || (c =? 124))))
                 c' g'
                 (fun c2 g2 => Some ({| Re.group0 := Re.consumed c0 c2;
                                        Re.groups := g2 |}, c2)))
          = Some (m, c1)) in Hm.
  destruct (StrictFacts.exec_holds _ _ _ _ _ _ Hm) as (c2 & g2 & Hh & Hk).
  cbn [Re.Seq ReStrict.Holds] in Hh.
  destruct Hh as (c3 & g3 & (-> & -> & _) & c4 & g4 & Hs & Hl).
  apply StrictFacts.holds_chars in Hs.
  destruct Hs as (indent & H1 & L1 & _ & W1 & _ & ->).
  destruct (StrictFacts.holds_lit _ _ _ _ _ Hl) as (H2 & _ & ->).
  destruct c2 as [b2 r2]. cbn [Re.rest] in H2.
  destruct (ExecFacts.span_run (fun c => negb (c =? 10)) r2) as (name & t & -> & Hn & Ht).
  unfold Re.dot in Hk. cbn [Re.exec] in Hk.
  change (Re.exec (Re.Group 1 (Re.Possessive (Re.Star (Re.Char (fun c => negb (c =? 10))))))
            {| Re.before := b2; Re.rest := (name ++ t)%list |} [None]
            (fun c' g' =>
               match Re.rest c' with
               | [] => None
               | x :: t' =>
                   if (x =? 13) || (x =? 10) || (x =? 124)
                   then Some ({| Re.group0 := Re.consumed c0 {| Re.before := Some x;
                                                                 Re.rest := t' |};
                                 Re.groups := g' |},
                              {| Re.before := Some x; Re.rest := t' |})
                   else None
               end)
          = Some (m, c1)) in Hk.
  rewrite (ExecFacts.exec_possessive_group _ _ _ _ _ _ _ Hn Ht) in Hk.
  cbn [Re.rest pred Re.set_capture] in Hk.
  destruct t as [|x t]; [discriminate|].
  simpl in Ht. destruct (Z.eqb_spec x 10) as [->|]; [|discriminate].
  cbn [Z.eqb orb] in Hk. injection Hk as <- _.
  assert (Hfirst : first = name)
    by (rewrite <- Ef; reflexivity).
  exists pre, indent, name, t. repeat split.
  - rewrite Hpre, H1, H2. reflexivity.
  - exact W1.
  - intros ->. simpl in L1. lia.
  - eapply Forall_impl; [|exact Hn]. intros c Hc ->. discriminate.
  - rewrite Hfirst. reflexivity.
Qed.
